(** * The Commodore 64 emulator core: banked memory and the 6510 interpreter

    A shallow embedding of [src/memory/memory.c] and [src/cpu/cpu.c], of the
    I/O chips and the screen of [src/io/io.c], and of the start-up in
    [src/main.c].
    C's fixed-width integers are integers of [Z] with the wrap-around
    written out; the static arrays are total functions from index to byte;
    the file-scope statics of each translation unit are the fields of a
    record that every operation receives and returns. *)

From Stdlib Require Import ZArith List Bool Lia.
Import ListNotations.
Local Open Scope Z_scope.

(** ** Fixed-width integers *)

Definition u8 (v : Z) : Z := v mod 256.
Definition u16 (v : Z) : Z := v mod 65536.
Definition u32 (v : Z) : Z := v mod 4294967296.

(** The conversion [(int8_t)] of a byte. *)
Definition i8 (v : Z) : Z := if u8 v <? 128 then u8 v else u8 v - 256.

(** The [int] value of a C comparison. *)
Definition b2z (t : bool) : Z := if t then 1 else 0.

(** ** Arrays *)

Definition array := Z -> Z.

Definition store (arr : array) (idx v : Z) : array :=
  fun j => if j =? idx then v else arr j.

(** [memset(arr, v, size)]. *)
Definition memset (arr : array) (v size : Z) : array :=
  fun j => if (0 <=? j) && (j <? size) then v else arr j.

(** [memcpy(&arr[start], data, length)]. *)
Definition memcpy (arr : array) (start : Z) (data : list Z) (length : Z) : array :=
  fun j => if (start <=? j) && (j <? start + length)
           then nth (Z.to_nat (j - start)) data 0
           else arr j.

(** [for (int i = first; ...; i++) acc = body i acc], [count] iterations. *)
Fixpoint for_loop {A : Type} (count : nat) (first : Z) (body : Z -> A -> A) (acc : A) : A :=
  match count with
  | O => acc
  | S count' => for_loop count' (first + 1) body (body first acc)
  end.

(** ** memory.h *)

Definition MEMORY_SIZE : Z := 65536.
Definition BASIC_ROM_START : Z := 0xA000.
Definition BASIC_ROM_END : Z := 0xBFFF.
Definition KERNAL_ROM_START : Z := 0xE000.
Definition KERNAL_ROM_END : Z := 0xFFFF.
Definition IO_REGION_START : Z := 0xD000.
Definition IO_REGION_END : Z := 0xDFFF.

(** ** memory.c: state *)

(** An entry of [memory_read_map] is a pointer into one of the four static
    arrays: the array and the index of the page's first byte. A read through
    it sees the array as it is at the time of the read. *)
Inductive Bank : Type := RAM | BASIC | KERNAL | CHAR.

Record Ptr : Type := mkPtr { bank : Bank; base : Z }.

Record Memory : Type := mkMemory {
  memory : array;
  basic_rom_enabled : bool;
  kernal_rom_enabled : bool;
  char_rom_enabled : bool;
  io_enabled : bool;
  basic_rom : array;
  kernal_rom : array;
  char_rom : array;
  memory_read_map : Z -> Ptr
}.

Definition set_memory (m : Memory) (ram : array) : Memory :=
  mkMemory ram (basic_rom_enabled m) (kernal_rom_enabled m) (char_rom_enabled m)
           (io_enabled m) (basic_rom m) (kernal_rom m) (char_rom m) (memory_read_map m).

Definition set_memory_read_map (m : Memory) (map : Z -> Ptr) : Memory :=
  mkMemory (memory m) (basic_rom_enabled m) (kernal_rom_enabled m) (char_rom_enabled m)
           (io_enabled m) (basic_rom m) (kernal_rom m) (char_rom m) map.

Definition set_page (map : Z -> Ptr) (page : Z) (p : Ptr) : Z -> Ptr :=
  fun j => if j =? page then p else map j.

(** ** memory.c: operations *)

Definition update_memory_maps (m : Memory) : Memory :=
  let map := for_loop 256 0
               (fun i map => set_page map i (mkPtr RAM (Z.shiftl i 8)))
               (memory_read_map m) in
  let map := if basic_rom_enabled m
             then for_loop 32 0xA0
                    (fun i map => set_page map i (mkPtr BASIC (Z.shiftl (i - 0xA0) 8))) map
             else map in
  let map := if kernal_rom_enabled m
             then for_loop 32 0xE0
                    (fun i map => set_page map i (mkPtr KERNAL (Z.shiftl (i - 0xE0) 8))) map
             else map in
  let map := if io_enabled m then map
             else if char_rom_enabled m
             then for_loop 16 0xD0
                    (fun i map => set_page map i (mkPtr CHAR (Z.shiftl (i - 0xD0) 8))) map
             else map in
  set_memory_read_map m map.

(** The six vector stores index [kernal_rom] with [0x1FFC - 0xE000] and the
    like: negative indices, outside the 8192 bytes of the image. In C these
    stores are undefined: which object they reach, and whether the program
    survives them, is for the build to settle (with the arrays laid out in
    the order of their declarations they fall into [memory] at
    [$5FFA..$5FFF]; another build may fault). The definition below keeps
    them as written, in cells of [kernal_rom] below index 0, which no
    operation reads: it gives the state that the in-bounds statements of
    [memory_init] produce, and says nothing of the cells the six stores
    reach outside [kernal_rom]. *)
Definition memory_init (m : Memory) : Memory :=
  let ram := memset (memory m) 0 MEMORY_SIZE in
  let basic := memset (basic_rom m) 0xEA 8192 in
  let kernal := memset (kernal_rom m) 0xEA 8192 in
  let char := memset (char_rom m) 0x00 4096 in
  let ram := store ram 0x0000 0x2F in
  let ram := store ram 0x0001 0x37 in
  let kernal := store kernal (0x1FFC - 0xE000) 0x00 in
  let kernal := store kernal (0x1FFD - 0xE000) 0xE0 in
  let kernal := store kernal (0x1FFA - 0xE000) 0x43 in
  let kernal := store kernal (0x1FFB - 0xE000) 0xFE in
  let kernal := store kernal (0x1FFE - 0xE000) 0x48 in
  let kernal := store kernal (0x1FFF - 0xE000) 0xFF in
  update_memory_maps
    (mkMemory ram true true true true basic kernal char (memory_read_map m)).

(** [memory_read_map[page][offset]]. *)
Definition deref (m : Memory) (p : Ptr) (offset : Z) : Z :=
  match bank p with
  | RAM => memory m (base p + offset)
  | BASIC => basic_rom m (base p + offset)
  | KERNAL => kernal_rom m (base p + offset)
  | CHAR => char_rom m (base p + offset)
  end.

(** The parameter is a [uint16_t]: the argument is converted on entry. *)
Definition memory_read (m : Memory) (address : Z) : Z :=
  let address := u16 address in
  let page := u8 (Z.shiftr address 8) in
  let offset := u8 (Z.land address 0xFF) in
  if (page >=? 0xD0) && (page <=? 0xDF) && io_enabled m
  then memory m address
  else deref m (memory_read_map m page) offset.

Definition memory_write (m : Memory) (address value : Z) : Memory :=
  let address := u16 address in
  let value := u8 value in
  (* what follows the three region tests *)
  let port_or_ram :=
    if address =? 0x0001 then
      let old_value := memory m 0x0001 in
      let m1 :=
        mkMemory (store (memory m) 0x0001 value)
                 (negb (Z.land value 0x03 =? 0))
                 (negb (Z.land value 0x02 =? 0))
                 ((Z.land value 0x04 =? 0) && negb (Z.land value 0x03 =? 0))
                 (negb (Z.land value 0x04 =? 0))
                 (basic_rom m) (kernal_rom m) (char_rom m) (memory_read_map m) in
      if negb (Z.land old_value 0x07 =? Z.land value 0x07)
      then update_memory_maps m1
      else m1
    else set_memory m (store (memory m) address value) in
  if basic_rom_enabled m && (address >=? BASIC_ROM_START) && (address <=? BASIC_ROM_END)
  then m
  else if kernal_rom_enabled m && (address >=? KERNAL_ROM_START) && (address <=? KERNAL_ROM_END)
  then m
  else if (address >=? IO_REGION_START) && (address <=? IO_REGION_END)
  then
    if io_enabled m then set_memory m (store (memory m) address value)
    else if char_rom_enabled m then m
    else port_or_ram
  else port_or_ram.

(** [data] is the caller's buffer, [length] the count passed with it. *)
Definition memory_load (m : Memory) (address : Z) (data : list Z) (length : Z) : Memory :=
  let address := u16 address in
  let length := u16 length in
  let length := if address + length >? MEMORY_SIZE
                then u16 (MEMORY_SIZE - address)
                else length in
  set_memory m (memcpy (memory m) address data length).

(** ** cpu.h *)

Record CPU : Type := mkCPU {
  cpu_pc : Z;
  cpu_a : Z;
  cpu_x : Z;
  cpu_y : Z;
  cpu_sp : Z;
  cpu_c : Z;
  cpu_z : Z;
  cpu_i : Z;
  cpu_d : Z;
  cpu_b : Z;
  cpu_v : Z;
  cpu_n : Z
}.

Inductive AddressingMode : Type :=
| ADDR_IMPLIED
| ADDR_ACCUMULATOR
| ADDR_IMMEDIATE
| ADDR_ZERO_PAGE
| ADDR_ZERO_PAGE_X
| ADDR_ZERO_PAGE_Y
| ADDR_RELATIVE
| ADDR_ABSOLUTE
| ADDR_ABSOLUTE_X
| ADDR_ABSOLUTE_Y
| ADDR_INDIRECT
| ADDR_INDEXED_INDIRECT
| ADDR_INDIRECT_INDEXED.

Definition STACK_PAGE : Z := 0x0100.
Definition NMI_VECTOR : Z := 0xFFFA.
Definition RESET_VECTOR : Z := 0xFFFC.
Definition IRQ_VECTOR : Z := 0xFFFE.

(** ** cpu.c: state *)

(** The statics of cpu.c ([cpu], [cycles]) together with the memory they
    act on. *)
Record Machine : Type := mkMachine {
  cpu : CPU;
  cycles : Z;
  mem : Memory
}.

Definition set_cpu (s : Machine) (r : CPU) : Machine := mkMachine r (cycles s) (mem s).
Definition set_mem (s : Machine) (m : Memory) : Machine := mkMachine (cpu s) (cycles s) m.
Definition set_cycles (s : Machine) (k : Z) : Machine := mkMachine (cpu s) k (mem s).

Definition with_pc (r : CPU) (w : Z) : CPU :=
  mkCPU w (cpu_a r) (cpu_x r) (cpu_y r) (cpu_sp r)
        (cpu_c r) (cpu_z r) (cpu_i r) (cpu_d r) (cpu_b r) (cpu_v r) (cpu_n r).
Definition with_sp (r : CPU) (w : Z) : CPU :=
  mkCPU (cpu_pc r) (cpu_a r) (cpu_x r) (cpu_y r) w
        (cpu_c r) (cpu_z r) (cpu_i r) (cpu_d r) (cpu_b r) (cpu_v r) (cpu_n r).
Definition with_a (r : CPU) (w : Z) : CPU :=
  mkCPU (cpu_pc r) w (cpu_x r) (cpu_y r) (cpu_sp r)
        (cpu_c r) (cpu_z r) (cpu_i r) (cpu_d r) (cpu_b r) (cpu_v r) (cpu_n r).
Definition with_x (r : CPU) (w : Z) : CPU :=
  mkCPU (cpu_pc r) (cpu_a r) w (cpu_y r) (cpu_sp r)
        (cpu_c r) (cpu_z r) (cpu_i r) (cpu_d r) (cpu_b r) (cpu_v r) (cpu_n r).
Definition with_y (r : CPU) (w : Z) : CPU :=
  mkCPU (cpu_pc r) (cpu_a r) (cpu_x r) w (cpu_sp r)
        (cpu_c r) (cpu_z r) (cpu_i r) (cpu_d r) (cpu_b r) (cpu_v r) (cpu_n r).
Definition with_i (r : CPU) (w : Z) : CPU :=
  mkCPU (cpu_pc r) (cpu_a r) (cpu_x r) (cpu_y r) (cpu_sp r)
        (cpu_c r) (cpu_z r) w (cpu_d r) (cpu_b r) (cpu_v r) (cpu_n r).
(** [cpu.z = (w == 0); cpu.n = (w & 0x80) != 0]. *)
Definition with_zn (r : CPU) (w : Z) : CPU :=
  mkCPU (cpu_pc r) (cpu_a r) (cpu_x r) (cpu_y r) (cpu_sp r)
        (cpu_c r) (b2z (w =? 0)) (cpu_i r) (cpu_d r) (cpu_b r) (cpu_v r)
        (b2z (negb (Z.land w 0x80 =? 0))).
Definition with_c (r : CPU) (w : Z) : CPU :=
  mkCPU (cpu_pc r) (cpu_a r) (cpu_x r) (cpu_y r) (cpu_sp r)
        w (cpu_z r) (cpu_i r) (cpu_d r) (cpu_b r) (cpu_v r) (cpu_n r).

(** ** cpu.c: the opcode tables

    [cpu_init] fills [opcode_sizes], [opcode_cycles] and [opcode_modes] with
    the defaults 1, 2 and [ADDR_IMPLIED] and then assigns one row per
    implemented opcode; nothing writes them afterwards. The rows, in the
    order of the source: opcode, size, cycles, mode. *)
Definition opcode_rows : list (Z * (Z * Z * AddressingMode)) :=
  [ (0xA9, (2, 2, ADDR_IMMEDIATE)); (0xA5, (2, 3, ADDR_ZERO_PAGE));
    (0xB5, (2, 4, ADDR_ZERO_PAGE_X)); (0xAD, (3, 4, ADDR_ABSOLUTE));
    (0xBD, (3, 4, ADDR_ABSOLUTE_X)); (0xB9, (3, 4, ADDR_ABSOLUTE_Y));
    (0xA1, (2, 6, ADDR_INDEXED_INDIRECT)); (0xB1, (2, 5, ADDR_INDIRECT_INDEXED));
    (0xA2, (2, 2, ADDR_IMMEDIATE)); (0xA6, (2, 3, ADDR_ZERO_PAGE));
    (0xB6, (2, 4, ADDR_ZERO_PAGE_Y)); (0xAE, (3, 4, ADDR_ABSOLUTE));
    (0xBE, (3, 4, ADDR_ABSOLUTE_Y));
    (0xA0, (2, 2, ADDR_IMMEDIATE)); (0xA4, (2, 3, ADDR_ZERO_PAGE));
    (0xB4, (2, 4, ADDR_ZERO_PAGE_X)); (0xAC, (3, 4, ADDR_ABSOLUTE));
    (0xBC, (3, 4, ADDR_ABSOLUTE_X));
    (0x85, (2, 3, ADDR_ZERO_PAGE)); (0x95, (2, 4, ADDR_ZERO_PAGE_X));
    (0x8D, (3, 4, ADDR_ABSOLUTE)); (0x9D, (3, 5, ADDR_ABSOLUTE_X));
    (0x99, (3, 5, ADDR_ABSOLUTE_Y)); (0x81, (2, 6, ADDR_INDEXED_INDIRECT));
    (0x91, (2, 6, ADDR_INDIRECT_INDEXED));
    (0x86, (2, 3, ADDR_ZERO_PAGE)); (0x96, (2, 4, ADDR_ZERO_PAGE_Y));
    (0x8E, (3, 4, ADDR_ABSOLUTE));
    (0x84, (2, 3, ADDR_ZERO_PAGE)); (0x94, (2, 4, ADDR_ZERO_PAGE_X));
    (0x8C, (3, 4, ADDR_ABSOLUTE));
    (0x4C, (3, 3, ADDR_ABSOLUTE)); (0x6C, (3, 5, ADDR_INDIRECT));
    (0x20, (3, 6, ADDR_ABSOLUTE)); (0x60, (1, 6, ADDR_IMPLIED));
    (0xE8, (1, 2, ADDR_IMPLIED)); (0xC8, (1, 2, ADDR_IMPLIED));
    (0xCA, (1, 2, ADDR_IMPLIED)); (0x88, (1, 2, ADDR_IMPLIED));
    (0xC9, (2, 2, ADDR_IMMEDIATE)); (0xC5, (2, 3, ADDR_ZERO_PAGE));
    (0xD5, (2, 4, ADDR_ZERO_PAGE_X)); (0xCD, (3, 4, ADDR_ABSOLUTE));
    (0xDD, (3, 4, ADDR_ABSOLUTE_X)); (0xD9, (3, 4, ADDR_ABSOLUTE_Y));
    (0xC1, (2, 6, ADDR_INDEXED_INDIRECT)); (0xD1, (2, 5, ADDR_INDIRECT_INDEXED));
    (0xF0, (2, 2, ADDR_RELATIVE)); (0xD0, (2, 2, ADDR_RELATIVE));
    (0xB0, (2, 2, ADDR_RELATIVE)); (0x90, (2, 2, ADDR_RELATIVE));
    (0x30, (2, 2, ADDR_RELATIVE)); (0x10, (2, 2, ADDR_RELATIVE));
    (0x70, (2, 2, ADDR_RELATIVE)); (0x50, (2, 2, ADDR_RELATIVE)) ].

(** The table entry of [opcode] after the assignments of [rows] (in order,
    a later one overwriting an earlier one) on top of the default [dflt]. *)
Fixpoint assigned {A : Type} (rows : list (Z * A)) (dflt : A) (opcode : Z) : A :=
  match rows with
  | [] => dflt
  | (op, row) :: rest => assigned rest (if opcode =? op then row else dflt) opcode
  end.

Definition opcode_sizes (opcode : Z) : Z :=
  assigned (map (fun r => (fst r, fst (fst (snd r)))) opcode_rows) 1 opcode.
Definition opcode_cycles (opcode : Z) : Z :=
  assigned (map (fun r => (fst r, snd (fst (snd r)))) opcode_rows) 2 opcode.
Definition opcode_modes (opcode : Z) : AddressingMode :=
  assigned (map (fun r => (fst r, snd (snd r))) opcode_rows) ADDR_IMPLIED opcode.

(** ** cpu.c: operations *)

Definition cpu_reset (s : Machine) : Machine :=
  let reset_vector :=
    u16 (Z.lor (memory_read (mem s) RESET_VECTOR)
               (Z.shiftl (memory_read (mem s) (RESET_VECTOR + 1)) 8)) in
  mkMachine (with_i (with_sp (with_pc (cpu s) reset_vector) 0xFD) 1) 0 (mem s).

(** The register part of [cpu_init], then [cpu_reset]. *)
Definition cpu_init (s : Machine) : Machine :=
  cpu_reset (set_cpu s (mkCPU 0 0 0 0 0xFD 0 0 1 0 0 0 0)).

Definition cpu_set_pc (s : Machine) (address : Z) : Machine :=
  set_cpu s (with_pc (cpu s) (u16 address)).

Definition cpu_push_byte (s : Machine) (value : Z) : Machine :=
  let m := memory_write (mem s) (STACK_PAGE + cpu_sp (cpu s)) value in
  mkMachine (with_sp (cpu s) (u8 (cpu_sp (cpu s) - 1))) (cycles s) m.

Definition cpu_pull_byte (s : Machine) : Z * Machine :=
  let s := set_cpu s (with_sp (cpu s) (u8 (cpu_sp (cpu s) + 1))) in
  (memory_read (mem s) (STACK_PAGE + cpu_sp (cpu s)), s).

Definition cpu_push_word (s : Machine) (value : Z) : Machine :=
  let value := u16 value in
  let s := cpu_push_byte s (Z.land (Z.shiftr value 8) 0xFF) in
  cpu_push_byte s (Z.land value 0xFF).

Definition cpu_pull_word (s : Machine) : Z * Machine :=
  let (low, s) := cpu_pull_byte s in
  let (high, s) := cpu_pull_byte s in
  (u16 (Z.lor (Z.shiftl high 8) low), s).

Definition cpu_get_operand_address (s : Machine) (mode : AddressingMode) : Z :=
  let pc := cpu_pc (cpu s) in
  let read := memory_read (mem s) in
  match mode with
  | ADDR_IMPLIED | ADDR_ACCUMULATOR => 0
  | ADDR_IMMEDIATE => u16 (pc + 1)
  | ADDR_ZERO_PAGE => u16 (read (pc + 1))
  | ADDR_ZERO_PAGE_X => u16 (Z.land (read (pc + 1) + cpu_x (cpu s)) 0xFF)
  | ADDR_ZERO_PAGE_Y => u16 (Z.land (read (pc + 1) + cpu_y (cpu s)) 0xFF)
  | ADDR_RELATIVE =>
      let offset := i8 (read (pc + 1)) in
      u16 (pc + 2 + offset)
  | ADDR_ABSOLUTE => u16 (Z.lor (read (pc + 1)) (Z.shiftl (read (pc + 2)) 8))
  | ADDR_ABSOLUTE_X =>
      u16 (Z.lor (read (pc + 1)) (Z.shiftl (read (pc + 2)) 8) + cpu_x (cpu s))
  | ADDR_ABSOLUTE_Y =>
      u16 (Z.lor (read (pc + 1)) (Z.shiftl (read (pc + 2)) 8) + cpu_y (cpu s))
  | ADDR_INDIRECT =>
      let ptr := u16 (Z.lor (read (pc + 1)) (Z.shiftl (read (pc + 2)) 8)) in
      if Z.land ptr 0xFF =? 0xFF
      then u16 (Z.lor (read ptr) (Z.shiftl (read (Z.land ptr 0xFF00)) 8))
      else u16 (Z.lor (read ptr) (Z.shiftl (read (ptr + 1)) 8))
  | ADDR_INDEXED_INDIRECT =>
      let zp := u8 (Z.land (read (pc + 1) + cpu_x (cpu s)) 0xFF) in
      u16 (Z.lor (read zp) (Z.shiftl (read (Z.land (zp + 1) 0xFF)) 8))
  | ADDR_INDIRECT_INDEXED =>
      let zp := u8 (read (pc + 1)) in
      u16 (Z.lor (read zp) (Z.shiftl (read (Z.land (zp + 1) 0xFF)) 8) + cpu_y (cpu s))
  end.

(** What the host answers during one instruction: the value [getchar] returns
    (a byte, or -1 at end of input) and whether [kbhit] reports a key. Each
    is called at most once per instruction. Text written by [printf] is not
    part of the state. *)
Record Host : Type := mkHost { getchar : Z; kbhit : bool }.

Definition cpu_emulate_kernal (h : Host) (s : Machine) (address : Z) : Machine :=
  let address := u16 address in
  let s :=
    if address =? 0xFFD2 then s
    else if address =? 0xFFCF then set_cpu s (with_a (cpu s) (u8 (getchar h)))
    else if address =? 0xFFE4 then
      let c := -1 in
      let c := if kbhit h then getchar h else c in
      set_cpu s (with_a (cpu s) (u8 (if c =? -1 then 0 else c)))
    else s in
  let (w, s) := cpu_pull_word s in
  set_cpu s (with_pc (cpu s) (u16 (w + 1))).

(** [case l1: case l2: ...]. *)
Definition is_case (opcode : Z) (labels : list Z) : bool :=
  existsb (Z.eqb opcode) labels.

(** A branch: [if (taken) { cpu.pc = address; size = 0; }]. *)
Definition branch (s : Machine) (taken : bool) (address size : Z) : Machine * Z :=
  if taken then (set_cpu s (with_pc (cpu s) address), 0) else (s, size).

(** The [switch (opcode)] of [cpu_step]: the state after the selected case
    and the value [size] then has. *)
Definition cpu_step_switch (h : Host) (s : Machine) (opcode address size : Z)
  : Machine * Z :=
  let r := cpu s in
  if is_case opcode [0xA9; 0xA5; 0xB5; 0xAD; 0xBD; 0xB9; 0xA1; 0xB1] then
    let w := memory_read (mem s) address in
    (set_cpu s (with_zn (with_a r w) w), size)
  else if is_case opcode [0xA2; 0xA6; 0xB6; 0xAE; 0xBE] then
    let w := memory_read (mem s) address in
    (set_cpu s (with_zn (with_x r w) w), size)
  else if is_case opcode [0xA0; 0xA4; 0xB4; 0xAC; 0xBC] then
    let w := memory_read (mem s) address in
    (set_cpu s (with_zn (with_y r w) w), size)
  else if is_case opcode [0x85; 0x95; 0x8D; 0x9D; 0x99; 0x81; 0x91] then
    (set_mem s (memory_write (mem s) address (cpu_a r)), size)
  else if is_case opcode [0x86; 0x96; 0x8E] then
    (set_mem s (memory_write (mem s) address (cpu_x r)), size)
  else if is_case opcode [0x84; 0x94; 0x8C] then
    (set_mem s (memory_write (mem s) address (cpu_y r)), size)
  else if is_case opcode [0x4C; 0x6C] then
    (set_cpu s (with_pc r address), 0)
  else if is_case opcode [0x20] then
    if address >=? 0xFF00 then
      let s := cpu_push_word s (cpu_pc r + 2) in
      (cpu_emulate_kernal h s address, 0)
    else
      let s := cpu_push_word s (cpu_pc r + 2 - 1) in
      (set_cpu s (with_pc (cpu s) address), 0)
  else if is_case opcode [0x60] then
    let (w, s) := cpu_pull_word s in
    (set_cpu s (with_pc (cpu s) (u16 (w + 1))), 0)
  else if is_case opcode [0xE8] then
    let w := u8 (cpu_x r + 1) in (set_cpu s (with_zn (with_x r w) w), size)
  else if is_case opcode [0xC8] then
    let w := u8 (cpu_y r + 1) in (set_cpu s (with_zn (with_y r w) w), size)
  else if is_case opcode [0xCA] then
    let w := u8 (cpu_x r - 1) in (set_cpu s (with_zn (with_x r w) w), size)
  else if is_case opcode [0x88] then
    let w := u8 (cpu_y r - 1) in (set_cpu s (with_zn (with_y r w) w), size)
  else if is_case opcode [0xC9; 0xC5; 0xD5; 0xCD; 0xDD; 0xD9; 0xC1; 0xD1] then
    let value := memory_read (mem s) address in
    let result := u8 (cpu_a r - value) in
    (set_cpu s (with_zn (with_c r (b2z (cpu_a r >=? value))) result), size)
  else if is_case opcode [0xF0] then branch s (negb (cpu_z r =? 0)) address size
  else if is_case opcode [0xD0] then branch s (cpu_z r =? 0) address size
  else if is_case opcode [0xB0] then branch s (negb (cpu_c r =? 0)) address size
  else if is_case opcode [0x90] then branch s (cpu_c r =? 0) address size
  else if is_case opcode [0x30] then branch s (negb (cpu_n r =? 0)) address size
  else if is_case opcode [0x10] then branch s (cpu_n r =? 0) address size
  else if is_case opcode [0x70] then branch s (negb (cpu_v r =? 0)) address size
  else if is_case opcode [0x50] then branch s (cpu_v r =? 0) address size
  else if is_case opcode [0xAA] then
    (set_cpu s (with_zn (with_x r (cpu_a r)) (cpu_a r)), size)
  else if is_case opcode [0xA8] then
    (set_cpu s (with_zn (with_y r (cpu_a r)) (cpu_a r)), size)
  else if is_case opcode [0x8A] then
    (set_cpu s (with_zn (with_a r (cpu_x r)) (cpu_x r)), size)
  else if is_case opcode [0x98] then
    (set_cpu s (with_zn (with_a r (cpu_y r)) (cpu_y r)), size)
  else if is_case opcode [0xBA] then
    (set_cpu s (with_zn (with_x r (cpu_sp r)) (cpu_sp r)), size)
  else if is_case opcode [0x9A] then
    (set_cpu s (with_sp r (cpu_x r)), size)
  else (* default: *)
    if opcode =? 0x20 then (cpu_emulate_kernal h s address, size)
    else (s, size).

Definition cpu_step (h : Host) (s : Machine) : Machine :=
  let opcode := memory_read (mem s) (cpu_pc (cpu s)) in
  let mode := opcode_modes opcode in
  let size := opcode_sizes opcode in
  let address := cpu_get_operand_address s mode in
  let (s', size) := cpu_step_switch h s opcode address size in
  let s' := if size >? 0
            then set_cpu s' (with_pc (cpu s') (u16 (cpu_pc (cpu s') + size)))
            else s' in
  set_cycles s' (u32 (cycles s' + opcode_cycles opcode)).

(** [n] calls of [cpu_step], the [k]-th with the host's answers [hosts k]. *)
Fixpoint cpu_steps (n : nat) (hosts : nat -> Host) (s : Machine) : Machine :=
  match n with
  | O => s
  | S n' => cpu_steps n' (fun k => hosts (S k)) (cpu_step (hosts O) s)
  end.

(** The loop of [cpu_execute]: [fuel] bounds the number of iterations;
    [None] means the bound was reached with the loop still running. *)
Fixpoint cpu_execute_loop (fuel : nat) (hosts : nat -> Host) (target_cycles : Z)
                          (s : Machine) : option Machine :=
  if cycles s <? target_cycles then
    match fuel with
    | O => None
    | S fuel' =>
        cpu_execute_loop fuel' (fun k => hosts (S k)) target_cycles (cpu_step (hosts O) s)
    end
  else Some s.

Definition cpu_execute (fuel : nat) (hosts : nat -> Host) (s : Machine) (num_cycles : Z)
  : option Machine :=
  let target_cycles := u32 (cycles s + u32 num_cycles) in
  cpu_execute_loop fuel hosts target_cycles s.

(** ** memory.c: ROM files and the dump *)

(** The static array a [uint8_t *] argument points into. *)
Definition bank_array (m : Memory) (b : Bank) : array :=
  match b with
  | RAM => memory m
  | BASIC => basic_rom m
  | KERNAL => kernal_rom m
  | CHAR => char_rom m
  end.

Definition set_bank_array (m : Memory) (b : Bank) (arr : array) : Memory :=
  match b with
  | RAM => set_memory m arr
  | BASIC =>
      mkMemory (memory m) (basic_rom_enabled m) (kernal_rom_enabled m) (char_rom_enabled m)
               (io_enabled m) arr (kernal_rom m) (char_rom m) (memory_read_map m)
  | KERNAL =>
      mkMemory (memory m) (basic_rom_enabled m) (kernal_rom_enabled m) (char_rom_enabled m)
               (io_enabled m) (basic_rom m) arr (char_rom m) (memory_read_map m)
  | CHAR =>
      mkMemory (memory m) (basic_rom_enabled m) (kernal_rom_enabled m) (char_rom_enabled m)
               (io_enabled m) (basic_rom m) (kernal_rom m) arr (memory_read_map m)
  end.

(** [file] is what [fopen] finds under the name: [None] when the file cannot
    be opened, else its bytes; [fread] stores the first [rom_size] of them,
    or all of them when there are fewer. The result is the value returned
    and the memory state. *)
Definition memory_load_rom (m : Memory) (file : option (list Z))
                           (rom_buffer : Bank) (rom_size : Z) : Z * Memory :=
  match file with
  | None => (0, m)
  | Some bytes =>
      let bytes_read := Z.min rom_size (Z.of_nat (List.length bytes)) in
      let m := set_bank_array m rom_buffer
                 (memcpy (bank_array m rom_buffer) 0 bytes bytes_read) in
      (1, update_memory_maps m)
  end.

Definition memory_load_basic_rom (m : Memory) (file : option (list Z)) : Z * Memory :=
  memory_load_rom m file BASIC 8192.

Definition memory_load_kernal_rom (m : Memory) (file : option (list Z)) : Z * Memory :=
  memory_load_rom m file KERNAL 8192.

Definition memory_load_char_rom (m : Memory) (file : option (list Z)) : Z * Memory :=
  memory_load_rom m file CHAR 4096.

(** What [memory_dump] prints, one item per [printf] call with its
    arguments: the heading, the address that starts a line, a byte, and the
    final newline. *)
Inductive Dumped : Type :=
| DumpHeading (start_address end_address : Z)
| DumpLine (addr : Z)
| DumpByte (value : Z)
| DumpEnd.

(** The [for] loop of [memory_dump], [addr] a [uint16_t]; [fuel] bounds the
    number of iterations, [None] means the bound was reached with the loop
    still running. *)
Fixpoint memory_dump_loop (fuel : nat) (m : Memory) (start_address end_address addr : Z)
                          (out : list Dumped) : option (list Dumped) :=
  if addr <=? end_address then
    match fuel with
    | O => None
    | S fuel' =>
        let out := if Z.rem (addr - start_address) 16 =? 0
                   then out ++ [DumpLine addr] else out in
        let out := out ++ [DumpByte (memory_read m addr)] in
        memory_dump_loop fuel' m start_address end_address (u16 (addr + 1)) out
    end
  else Some (out ++ [DumpEnd]).

Definition memory_dump (fuel : nat) (m : Memory) (start_address length : Z)
  : option (list Dumped) :=
  let start_address := u16 start_address in
  let length := u16 length in
  let end_address := u16 (start_address + length - 1) in
  let end_address := if end_address >=? MEMORY_SIZE
                     then u16 (MEMORY_SIZE - 1) else end_address in
  memory_dump_loop fuel m start_address end_address start_address
                   [DumpHeading start_address end_address].

(** ** cpu.c: the status byte and interrupts *)

Definition cpu_get_status (s : Machine) : Z :=
  let r := cpu s in
  let status := 0 in
  let status := u8 (Z.lor status (Z.shiftl (cpu_c r) 0)) in
  let status := u8 (Z.lor status (Z.shiftl (cpu_z r) 1)) in
  let status := u8 (Z.lor status (Z.shiftl (cpu_i r) 2)) in
  let status := u8 (Z.lor status (Z.shiftl (cpu_d r) 3)) in
  let status := u8 (Z.lor status (Z.shiftl (cpu_b r) 4)) in
  let status := u8 (Z.lor status (Z.shiftl 1 5)) in
  let status := u8 (Z.lor status (Z.shiftl (cpu_v r) 6)) in
  let status := u8 (Z.lor status (Z.shiftl (cpu_n r) 7)) in
  status.

Definition cpu_set_status (s : Machine) (status : Z) : Machine :=
  let status := u8 status in
  let r := cpu s in
  set_cpu s
    (mkCPU (cpu_pc r) (cpu_a r) (cpu_x r) (cpu_y r) (cpu_sp r)
           (Z.land (Z.shiftr status 0) 1)
           (Z.land (Z.shiftr status 1) 1)
           (Z.land (Z.shiftr status 2) 1)
           (Z.land (Z.shiftr status 3) 1)
           (Z.land (Z.shiftr status 4) 1)
           (Z.land (Z.shiftr status 6) 1)
           (Z.land (Z.shiftr status 7) 1)).

Definition cpu_interrupt (s : Machine) (is_nmi : Z) : Machine :=
  if negb (is_nmi =? 0) || (cpu_i (cpu s) =? 0) then
    let s := cpu_push_word s (cpu_pc (cpu s)) in
    let status := cpu_get_status s in
    let status := u8 (Z.land status (Z.lnot (Z.shiftl 1 4))) in
    let s := cpu_push_byte s status in
    let s := set_cpu s (with_i (cpu s) 1) in
    let vector := if negb (is_nmi =? 0) then NMI_VECTOR else IRQ_VECTOR in
    let s := set_cpu s
               (with_pc (cpu s)
                  (u16 (Z.lor (memory_read (mem s) vector)
                              (Z.shiftl (memory_read (mem s) (vector + 1)) 8)))) in
    set_cycles s (u32 (cycles s + 7))
  else s.

(** ** memory.h: the screen *)

Definition COLOR_RAM_START : Z := 0xD800.
Definition SCREEN_MEMORY_START : Z := 0x0400.

(** ** io.h *)

Definition VIC_BASE_ADDRESS : Z := 0xD000.
Definition VIC_REGISTERS_SIZE : Z := 0x40.
Definition SID_BASE_ADDRESS : Z := 0xD400.
Definition SID_REGISTERS_SIZE : Z := 0x20.
Definition CIA1_BASE_ADDRESS : Z := 0xDC00.
Definition CIA2_BASE_ADDRESS : Z := 0xDD00.
Definition CIA_REGISTERS_SIZE : Z := 0x10.

(** ** io.c: state *)

Record IO : Type := mkIO {
  vic_registers : array;
  sid_registers : array;
  cia1_registers : array;
  cia2_registers : array;
  screen_data : array;
  color_data : array;
  keyboard_matrix : array;
  audio_enabled : Z
}.

Definition set_vic_registers (io : IO) (arr : array) : IO :=
  mkIO arr (sid_registers io) (cia1_registers io) (cia2_registers io)
       (screen_data io) (color_data io) (keyboard_matrix io) (audio_enabled io).
Definition set_sid_registers (io : IO) (arr : array) : IO :=
  mkIO (vic_registers io) arr (cia1_registers io) (cia2_registers io)
       (screen_data io) (color_data io) (keyboard_matrix io) (audio_enabled io).
Definition set_cia1_registers (io : IO) (arr : array) : IO :=
  mkIO (vic_registers io) (sid_registers io) arr (cia2_registers io)
       (screen_data io) (color_data io) (keyboard_matrix io) (audio_enabled io).
Definition set_cia2_registers (io : IO) (arr : array) : IO :=
  mkIO (vic_registers io) (sid_registers io) (cia1_registers io) arr
       (screen_data io) (color_data io) (keyboard_matrix io) (audio_enabled io).
Definition set_screen_data (io : IO) (arr : array) : IO :=
  mkIO (vic_registers io) (sid_registers io) (cia1_registers io) (cia2_registers io)
       arr (color_data io) (keyboard_matrix io) (audio_enabled io).
Definition set_color_data (io : IO) (arr : array) : IO :=
  mkIO (vic_registers io) (sid_registers io) (cia1_registers io) (cia2_registers io)
       (screen_data io) arr (keyboard_matrix io) (audio_enabled io).
Definition set_keyboard_matrix (io : IO) (arr : array) : IO :=
  mkIO (vic_registers io) (sid_registers io) (cia1_registers io) (cia2_registers io)
       (screen_data io) (color_data io) arr (audio_enabled io).

(** ** io.c: operations *)

(** The functions that call [memory_write] take and return the memory state
    with the I/O state. *)
Definition io_clear_screen (io : IO) (m : Memory) : IO * Memory :=
  let io := set_screen_data io (memset (screen_data io) 32 (40 * 25)) in
  let m := for_loop 1000 0
             (fun i m =>
                let m := memory_write m (SCREEN_MEMORY_START + i) 32 in
                memory_write m (COLOR_RAM_START + i) 14)
             m in
  (io, m).

Definition io_init (io : IO) (m : Memory) : IO * Memory :=
  let vic := memset (vic_registers io) 0 VIC_REGISTERS_SIZE in
  let sid := memset (sid_registers io) 0 SID_REGISTERS_SIZE in
  let cia1 := memset (cia1_registers io) 0 CIA_REGISTERS_SIZE in
  let cia2 := memset (cia2_registers io) 0 CIA_REGISTERS_SIZE in
  let screen := memset (screen_data io) 32 (40 * 25) in
  let color := memset (color_data io) 14 (40 * 25) in
  let keyboard := memset (keyboard_matrix io) 0xFF 8 in
  let vic := store vic 0x11 0x1B in
  let vic := store vic 0x16 0x08 in
  let vic := store vic 0x18 0x14 in
  let vic := store vic 0x20 0x0F in
  let vic := store vic 0x21 0x06 in
  let cia1 := store cia1 0x0D 0x00 in
  let cia2 := store cia2 0x0D 0x00 in
  io_clear_screen (mkIO vic sid cia1 cia2 screen color keyboard (audio_enabled io)) m.

(** The scan of the keyboard matrix in [io_read]. *)
Definition keyboard_scan (io : IO) : Z :=
  let row_select := u8 (Z.land (cia1_registers io 0) 0xFF) in
  for_loop 8 0
    (fun row result =>
       if Z.land row_select (Z.shiftl 1 row) =? 0
       then u8 (Z.land result (keyboard_matrix io row))
       else result)
    0xFF.

Definition io_read (io : IO) (address : Z) : Z :=
  let address := u16 address in
  if (address >=? VIC_BASE_ADDRESS) && (address <? VIC_BASE_ADDRESS + VIC_REGISTERS_SIZE)
  then vic_registers io (address - VIC_BASE_ADDRESS)
  else if (address >=? SID_BASE_ADDRESS) && (address <? SID_BASE_ADDRESS + SID_REGISTERS_SIZE)
  then sid_registers io (address - SID_BASE_ADDRESS)
  else if (address >=? CIA1_BASE_ADDRESS) && (address <? CIA1_BASE_ADDRESS + CIA_REGISTERS_SIZE)
  then if address =? CIA1_BASE_ADDRESS
       then keyboard_scan io
       else cia1_registers io (address - CIA1_BASE_ADDRESS)
  else if (address >=? CIA2_BASE_ADDRESS) && (address <? CIA2_BASE_ADDRESS + CIA_REGISTERS_SIZE)
  then cia2_registers io (address - CIA2_BASE_ADDRESS)
  else 0xFF.

(** What [io_beep] prints. *)
Definition io_beep (io : IO) : list Z :=
  if audio_enabled io =? 0 then [] else [7].

(** The state after the write and the characters printed. *)
Definition io_write (io : IO) (address value : Z) : IO * list Z :=
  let address := u16 address in
  let value := u8 value in
  if (address >=? VIC_BASE_ADDRESS) && (address <? VIC_BASE_ADDRESS + VIC_REGISTERS_SIZE)
  then (set_vic_registers io (store (vic_registers io) (address - VIC_BASE_ADDRESS) value), [])
  else if (address >=? SID_BASE_ADDRESS) && (address <? SID_BASE_ADDRESS + SID_REGISTERS_SIZE)
  then
    let io := set_sid_registers io
                (store (sid_registers io) (address - SID_BASE_ADDRESS) value) in
    if (address - SID_BASE_ADDRESS =? 0x01) && negb (audio_enabled io =? 0)
    then (io, io_beep io)
    else (io, [])
  else if (address >=? CIA1_BASE_ADDRESS) && (address <? CIA1_BASE_ADDRESS + CIA_REGISTERS_SIZE)
  then (set_cia1_registers io
          (store (cia1_registers io) (address - CIA1_BASE_ADDRESS) value), [])
  else if (address >=? CIA2_BASE_ADDRESS) && (address <? CIA2_BASE_ADDRESS + CIA_REGISTERS_SIZE)
  then (set_cia2_registers io
          (store (cia2_registers io) (address - CIA2_BASE_ADDRESS) value), [])
  else (io, []).

Definition io_set_key_pressed (io : IO) (key is_pressed : Z) : IO :=
  let key := u8 key in
  let row := u8 (Z.land (Z.shiftr key 4) 0x07) in
  let col := u8 (Z.land key 0x07) in
  if negb (is_pressed =? 0)
  then set_keyboard_matrix io
         (store (keyboard_matrix io) row
            (u8 (Z.land (keyboard_matrix io row) (Z.lnot (Z.shiftl 1 col)))))
  else set_keyboard_matrix io
         (store (keyboard_matrix io) row
            (u8 (Z.lor (keyboard_matrix io row) (Z.shiftl 1 col)))).

(** The conversion in the loop of [io_print_text]; ['a'] is 97, ['A'] 65,
    ['0'] 48. *)
Definition petscii_of (c : Z) : Z :=
  u8 (if (c >=? 97) && (c <=? 122) then c - (97 - 1)
      else if (c >=? 65) && (c <=? 90) then c - (65 - 65)
      else if (c >=? 48) && (c <=? 57) then c
      else if c =? 32 then 32
      else c).

(** [text] holds the characters before the terminating NUL. *)
Definition io_print_text (io : IO) (m : Memory) (x y : Z) (text : list Z) : IO * Memory :=
  let x := u8 x in
  let y := u8 y in
  if (x >=? 40) || (y >=? 25) then (io, m)
  else
    let screen_pos := u16 (y * 40 + x) in
    let text_len := u16 (Z.of_nat (length text)) in
    let text_len := if screen_pos + text_len >? 1000
                    then u16 (1000 - screen_pos)
                    else text_len in
    for_loop (Z.to_nat text_len) 0
      (fun i (st : IO * Memory) =>
         let (io, m) := st in
         let c := nth (Z.to_nat i) text 0 in
         let petscii := petscii_of c in
         let m := memory_write m (SCREEN_MEMORY_START + screen_pos + i) petscii in
         let io := set_screen_data io (store (screen_data io) (screen_pos + i) petscii) in
         (io, m))
      (io, m).

(** The conversion in the loop of [io_update_display]; ['.'] is 46. *)
Definition ascii_of (character : Z) : Z :=
  if (character >=? 1) && (character <=? 26) then character + (97 - 1)
  else if (character >=? 65) && (character <=? 90) then character
  else if (character >=? 193) && (character <=? 218) then character - (193 - 97)
  else if character =? 32 then 32
  else 46.

(** The characters [io_update_display] prints: the escape sequence that
    clears the terminal, then 25 lines. *)
Definition io_update_display (io : IO) : list Z :=
  let out := [27; 91; 50; 74; 27; 91; 72] in
  for_loop 25 0
    (fun y out =>
       let out := for_loop 40 0
                    (fun x out => out ++ [ascii_of (screen_data io (y * 40 + x))])
                    out in
       out ++ [10])
    out.

Definition io_update (io : IO) : list Z := io_update_display io.

Definition io_set_audio_enabled (io : IO) (enabled : Z) : IO :=
  mkIO (vic_registers io) (sid_registers io) (cia1_registers io) (cia2_registers io)
       (screen_data io) (color_data io) (keyboard_matrix io) enabled.

(** ** shell.c: state and initialisation *)

Record Shell : Type := mkShell { running : Z; in_basic_mode : Z }.

Definition shell_init (sh : Shell) : Shell := mkShell 1 0.

(** ** main.c *)

(** The static array [basic_rom] of [main.c], the start-up program
    [LDA #$01; STA $02; JMP $A000]. *)
Module Main.
Definition basic_rom : list Z := [0xA9; 0x01; 0x85; 0x02; 0x4C; 0x00; 0xA0].
End Main.

(** The three files are what [fopen] finds under [roms/basic.rom],
    [roms/kernal.rom] and [roms/chargen.rom]. *)
Definition load_roms (m : Memory) (basic_file kernal_file char_file : option (list Z))
  : Memory :=
  let (basic_loaded, m) := memory_load_basic_rom m basic_file in
  let (kernal_loaded, m) := memory_load_kernal_rom m kernal_file in
  let (char_loaded, m) := memory_load_char_rom m char_file in
  m.

(** The statics of the four translation units. *)
Record Emulator : Type := mkEmulator {
  emu_machine : Machine;
  emu_io : IO;
  emu_shell : Shell
}.

Definition init_emulator (e : Emulator)
                         (basic_file kernal_file char_file : option (list Z)) : Emulator :=
  let s := emu_machine e in
  let m := memory_init (mem s) in
  let m := load_roms m basic_file kernal_file char_file in
  let s := cpu_init (set_mem s m) in
  let (io, m) := io_init (emu_io e) (mem s) in
  let sh := shell_init (emu_shell e) in
  let m := memory_load m 0x0800 Main.basic_rom 7 in
  let m := memory_write m 0xFFFC 0x00 in
  let m := memory_write m 0xFFFD 0x08 in
  let s := cpu_reset (set_mem s m) in
  mkEmulator s io sh.

(** * Vocabulary of the properties *)

(** ** The page dispatch table *)

(** The entry [update_memory_maps] leaves for a page, read off the flags. *)
Definition page_source (m : Memory) (page : Z) : Ptr :=
  if negb (io_enabled m) && char_rom_enabled m && (0xD0 <=? page) && (page <=? 0xDF)
  then mkPtr CHAR (Z.shiftl (page - 0xD0) 8)
  else if kernal_rom_enabled m && (0xE0 <=? page) && (page <=? 0xFF)
  then mkPtr KERNAL (Z.shiftl (page - 0xE0) 8)
  else if basic_rom_enabled m && (0xA0 <=? page) && (page <=? 0xBF)
  then mkPtr BASIC (Z.shiftl (page - 0xA0) 8)
  else mkPtr RAM (Z.shiftl page 8).

(** The table is current when every page's entry is the one
    [update_memory_maps] would assign from the flags as they are now. *)
Definition maps_current (m : Memory) : Prop :=
  forall page, 0 <= page < 256 ->
    memory_read_map m page = memory_read_map (update_memory_maps m) page.

(** The table was assigned by some call of [update_memory_maps]: the memory
    has been initialised. *)
Definition maps_built (m : Memory) : Prop :=
  exists m0, forall page, 0 <= page < 256 ->
    memory_read_map m page = memory_read_map (update_memory_maps m0) page.

(** Pages that no bank ever overlays. *)
Definition plain_page (page : Z) : Prop :=
  0 <= page < 0xA0 \/ 0xC0 <= page < 0xD0.

(** ** The two ROM overlays that reject writes *)

Inductive Rom : Type := BasicRom | KernalRom.

Definition rom_enabled (m : Memory) (rom : Rom) : bool :=
  match rom with BasicRom => basic_rom_enabled m | KernalRom => kernal_rom_enabled m end.
Definition rom_start (rom : Rom) : Z :=
  match rom with BasicRom => BASIC_ROM_START | KernalRom => KERNAL_ROM_START end.
Definition rom_end (rom : Rom) : Z :=
  match rom with BasicRom => BASIC_ROM_END | KernalRom => KERNAL_ROM_END end.
Definition rom_image (m : Memory) (rom : Rom) : array :=
  match rom with BasicRom => basic_rom m | KernalRom => kernal_rom m end.

(** ** Memory states *)

(** The statics as the C initialisers leave them, before [memory_init].
    The entries of [memory_read_map] are null then; [memory_init] assigns
    all 256 of them before any is read, so the pointer that stands for
    null here is never followed. *)
Definition power_on : Memory :=
  mkMemory (fun _ => 0) true true true true
           (fun _ => 0) (fun _ => 0) (fun _ => 0) (fun _ => mkPtr RAM 0).

(** A state the interface reaches in which the table is stale: the port
    byte is changed behind the flags by [memory_load], and the port write
    that follows finds its low three bits unchanged and skips the rebuild. *)
Definition stale_memory : Memory :=
  memory_write
    (memory_load (memory_write (memory_init power_on) 0x0001 0x00) 0x0001 [0x07] 1)
    0x0001 0x07.

(** ** The processor port and runs of the memory interface *)

(** The decode of the low three bits of the byte at [ram[0x0001]]. *)
Definition port_bit (m : Memory) (k : Z) : bool := Z.testbit (memory m 0x0001) k.

Definition port_kernal (m : Memory) : bool := port_bit m 1.
Definition port_basic (m : Memory) : bool := port_bit m 0 || port_bit m 1.
Definition port_io (m : Memory) : bool := port_bit m 2.
Definition port_char (m : Memory) : bool :=
  negb (port_bit m 2) && (port_bit m 0 || port_bit m 1).

Definition flags_decoded (m : Memory) : Prop :=
  kernal_rom_enabled m = port_kernal m /\
  basic_rom_enabled m = port_basic m /\
  io_enabled m = port_io m /\
  char_rom_enabled m = port_char m.

(** The operations of the memory interface. *)
Inductive MemOp : Type :=
| OpRead (address : Z)
| OpWrite (address value : Z)
| OpLoad (address : Z) (data : list Z) (length : Z).

(** [memory_read] returns a byte and leaves the state as it is. *)
Definition apply_op (m : Memory) (op : MemOp) : Memory :=
  match op with
  | OpRead address => m
  | OpWrite address value => memory_write m address value
  | OpLoad address data length => memory_load m address data length
  end.

Definition run_ops (ops : list MemOp) (m : Memory) : Memory :=
  fold_left apply_op ops m.

(** A load whose range covers [$0001]. *)
Definition covers_port (op : MemOp) : bool :=
  match op with
  | OpLoad address _ length =>
      (u16 address <=? 0x0001) && (0x0001 <? u16 address + u16 length)
  | _ => false
  end.

(** A write to [$0001]. *)
Definition writes_port (op : MemOp) : bool :=
  match op with
  | OpWrite address _ => u16 address =? 0x0001
  | _ => false
  end.

(** The store that last put a byte at [$0001]: [memory_init]; a
    [memory_write] to [$0001], with the byte it stored; or a [memory_load]
    across [$0001], with the byte of the last [memory_write] to [$0001] before
    it, if there was one. *)
Inductive PortStore : Type :=
| ByInit
| ByWrite (value : Z)
| ByLoad (written : option Z).

Definition written_byte (st : PortStore) : option Z :=
  match st with
  | ByInit => None
  | ByWrite value => Some value
  | ByLoad written => written
  end.

Definition port_store_step (st : PortStore) (op : MemOp) : PortStore :=
  match op with
  | OpRead _ => st
  | OpWrite _ value => if writes_port op then ByWrite (u8 value) else st
  | OpLoad _ _ _ => if covers_port op then ByLoad (written_byte st) else st
  end.

Definition last_port_store (ops : list MemOp) : PortStore :=
  fold_left port_store_step ops ByInit.

(** The four flags are the decode of the byte [value]. *)
Definition decoded_from (value : Z) (m : Memory) : Prop :=
  kernal_rom_enabled m = Z.testbit value 1 /\
  basic_rom_enabled m = (Z.testbit value 0 || Z.testbit value 1) /\
  io_enabled m = Z.testbit value 2 /\
  char_rom_enabled m = (negb (Z.testbit value 2) && (Z.testbit value 0 || Z.testbit value 1)).

(** The four flags are on, as [memory_init] sets them. *)
Definition all_enabled (m : Memory) : Prop :=
  kernal_rom_enabled m = true /\
  basic_rom_enabled m = true /\
  io_enabled m = true /\
  char_rom_enabled m = true.

(** What holds of the flags, by the store that last put a byte at [$0001]. *)
Definition flags_at (st : PortStore) (m : Memory) : Prop :=
  match st with
  | ByInit =>
      kernal_rom_enabled m = port_kernal m /\
      basic_rom_enabled m = port_basic m /\
      io_enabled m = port_io m /\
      char_rom_enabled m = true /\ memory m 0x0001 = 0x37
  | ByWrite value => flags_decoded m /\ memory m 0x0001 = value
  | ByLoad (Some value) => decoded_from value m
  | ByLoad None => all_enabled m
  end.

(** What holds of the flags along a run: the KERNAL, BASIC and I/O flags are
    the decode of the port byte; the character-ROM flag is its decode once
    the port has been written ([seen]), and until then is on, as
    [memory_init] set it, over the port byte [0x37]. *)
Definition flags_tracked (seen : bool) (m : Memory) : Prop :=
  kernal_rom_enabled m = port_kernal m /\
  basic_rom_enabled m = port_basic m /\
  io_enabled m = port_io m /\
  (if seen then char_rom_enabled m = port_char m
   else char_rom_enabled m = true /\ memory m 0x0001 = 0x37).

(** ** Machines and scenarios *)

(** The word on top of the stack: its low byte one above [sp], its high byte
    two above, both modulo 256 within page 1. *)
Definition stack_top (s : Machine) (w : Z) : Prop :=
  memory (mem s) (STACK_PAGE + u8 (cpu_sp (cpu s) + 1)) = u8 (Z.land w 0xFF) /\
  memory (mem s) (STACK_PAGE + u8 (cpu_sp (cpu s) + 2)) = u8 (Z.land (Z.shiftr w 8) 0xFF).

(** The machine after [memory_init] and [cpu_init]. *)
Definition fresh_machine : Machine :=
  cpu_init (mkMachine (mkCPU 0 0 0 0 0 0 0 0 0 0 0 0) 0 (memory_init power_on)).

(** A host with no input: [getchar] reports end of input, [kbhit] no key. *)
Definition quiet : Host := mkHost (-1) false.

(** [JSR $FFD2] at [$0800], and the program of E2E-2: [JSR $C010] at
    [$C000], followed by a byte [EA], with [RTS] at [$C010]. *)
Definition chrout_call : Machine :=
  cpu_set_pc
    (set_mem fresh_machine (memory_load (mem fresh_machine) 0x0800 [0x20; 0xD2; 0xFF] 3))
    0x0800.

Definition jsr_rts_memory (m0 : Memory) : Memory :=
  memory_write (memory_load (memory_init m0) 0xC000 [0x20; 0x10; 0xC0; 0xEA] 4)
               0xC010 0x60.

Definition jsr_rts_call : Machine :=
  cpu_set_pc (set_mem fresh_machine (jsr_rts_memory power_on)) 0xC000.

(** Reset over registers [r] and cycle count [k], then [cpu_set_pc]. *)
Definition boot (m : Memory) (r : CPU) (k : Z) (pc : Z) : Machine :=
  cpu_set_pc (cpu_reset (mkMachine r k m)) pc.

(** The program of E2E-1 at [$0800]:
    [LDA #$42; CMP #$42; BEQ +2; 00; 00; EA]. *)
Definition cmp_beq_program : list Z :=
  [0xA9; 0x42; 0xC9; 0x42; 0xF0; 0x02; 0x00; 0x00; 0xEA].

Definition cmp_beq_machine (m0 : Memory) (r : CPU) (k : Z) : Machine :=
  boot (memory_load (memory_init m0) 0x0800 cmp_beq_program 9) r k 0x0800.

(** The state E2E-1 describes. *)
Definition cmp_beq_outcome (s : Machine) : Prop :=
  cpu_a (cpu s) = 0x42 /\
  cpu_z (cpu s) = 1 /\
  cpu_c (cpu s) = 1 /\
  cpu_n (cpu s) = 0 /\
  cpu_pc (cpu s) = 0x0808.

(** The set-up of E2E-4: three pokes and [JMP ($20FF)] at [$0800]. *)
Definition jmp_indirect_machine (m0 : Memory) (r : CPU) (k : Z) : Machine :=
  let m := memory_init m0 in
  let m := memory_write m 0x20FF 0x34 in
  let m := memory_write m 0x2100 0x12 in
  let m := memory_write m 0x2000 0xCD in
  boot (memory_load m 0x0800 [0x6C; 0xFF; 0x20] 3) r k 0x0800.

(** The step that ended the loop started below the target and added the
    cost of one instruction. *)
Definition last_step_crosses (target : Z) (s' : Machine) : Prop :=
  exists h t,
    s' = cpu_step h t /\
    cycles t < target /\
    cycles s' = cycles t + opcode_cycles (memory_read (mem t) (cpu_pc (cpu t))).

(** [cpu_execute] never returns: however many iterations are allowed, the
    loop is still running. *)
Definition runs_forever (hosts : nat -> Host) (s : Machine) (num_cycles : Z) : Prop :=
  forall fuel, cpu_execute fuel hosts s num_cycles = None.

(** [BNE -2] at [$0800] with [Z = 0]: a two-cycle instruction that branches
    to itself. *)
Definition spin_machine : Machine :=
  cpu_set_pc
    (set_mem fresh_machine (memory_load (mem fresh_machine) 0x0800 [0xD0; 0xFE] 2))
    0x0800.

(** ** The read and write contracts by region *)

Definition in_basic (address : Z) : bool :=
  (BASIC_ROM_START <=? address) && (address <=? BASIC_ROM_END).
Definition in_kernal (address : Z) : bool :=
  (KERNAL_ROM_START <=? address) && (address <=? KERNAL_ROM_END).
Definition in_io (address : Z) : bool :=
  (IO_REGION_START <=? address) && (address <=? IO_REGION_END).

(** The byte the banking flags expose at an address. *)
Definition visible (m : Memory) (address : Z) : Z :=
  if in_io address then
    if io_enabled m then memory m address
    else if char_rom_enabled m then char_rom m (address - IO_REGION_START)
    else memory m address
  else if in_kernal address && kernal_rom_enabled m
  then kernal_rom m (address - KERNAL_ROM_START)
  else if in_basic address && basic_rom_enabled m
  then basic_rom m (address - BASIC_ROM_START)
  else memory m address.

(** The addresses at which the flags make [memory_write] drop the byte. *)
Definition write_dropped (m : Memory) (address : Z) : bool :=
  (in_basic address && basic_rom_enabled m)
  || (in_kernal address && kernal_rom_enabled m)
  || (in_io address && negb (io_enabled m) && char_rom_enabled m).

(** ** Arrays of bytes *)

Definition byte (v : Z) : Prop := 0 <= v < 256.

Definition bytes_upto (arr : array) (size : Z) : Prop :=
  forall j, 0 <= j < size -> byte (arr j).

Definition memory_bytes (m : Memory) : Prop :=
  bytes_upto (memory m) MEMORY_SIZE /\
  bytes_upto (basic_rom m) 8192 /\
  bytes_upto (kernal_rom m) 8192 /\
  bytes_upto (char_rom m) 4096.

(** The data of every load are bytes. *)
Definition op_bytes (op : MemOp) : Prop :=
  match op with
  | OpLoad _ data _ => Forall byte data
  | _ => True
  end.

(** ** The dump *)

Definition dumped_bytes (out : list Dumped) : list Z :=
  flat_map (fun d => match d with DumpByte v => [v] | _ => [] end) out.

Definition dumped_lines (out : list Dumped) : list Z :=
  flat_map (fun d => match d with DumpLine a => [a] | _ => [] end) out.


Definition dump_runs_forever (m : Memory) (start_address length : Z) : Prop :=
  forall fuel, memory_dump fuel m start_address length = None.

(** ** Well-formed machines *)

Definition flag (v : Z) : Prop := v = 0 \/ v = 1.

(** Every register holds a value of its C type, every flag 0 or 1. *)
Definition cpu_wf (r : CPU) : Prop :=
  0 <= cpu_pc r < 65536 /\
  byte (cpu_a r) /\ byte (cpu_x r) /\ byte (cpu_y r) /\ byte (cpu_sp r) /\
  flag (cpu_c r) /\ flag (cpu_z r) /\ flag (cpu_i r) /\ flag (cpu_d r) /\
  flag (cpu_b r) /\ flag (cpu_v r) /\ flag (cpu_n r).

Definition machine_wf (s : Machine) : Prop :=
  cpu_wf (cpu s) /\
  0 <= cycles s < 4294967296 /\
  maps_built (mem s) /\
  memory_bytes (mem s).

(** ** Opcodes *)

(** The case labels of the [switch] in [cpu_step]. *)
Definition implemented_opcodes : list Z :=
  [0xA9; 0xA5; 0xB5; 0xAD; 0xBD; 0xB9; 0xA1; 0xB1;
   0xA2; 0xA6; 0xB6; 0xAE; 0xBE;
   0xA0; 0xA4; 0xB4; 0xAC; 0xBC;
   0x85; 0x95; 0x8D; 0x9D; 0x99; 0x81; 0x91;
   0x86; 0x96; 0x8E;
   0x84; 0x94; 0x8C;
   0x4C; 0x6C; 0x20; 0x60;
   0xE8; 0xC8; 0xCA; 0x88;
   0xC9; 0xC5; 0xD5; 0xCD; 0xDD; 0xD9; 0xC1; 0xD1;
   0xF0; 0xD0; 0xB0; 0x90; 0x30; 0x10; 0x70; 0x50;
   0xAA; 0xA8; 0x8A; 0x98; 0xBA; 0x9A].

(** The eight branches: the flag each tests and the value it branches on. *)
Definition branch_test (opcode : Z) : option ((CPU -> Z) * bool) :=
  if opcode =? 0xF0 then Some (cpu_z, true)
  else if opcode =? 0xD0 then Some (cpu_z, false)
  else if opcode =? 0xB0 then Some (cpu_c, true)
  else if opcode =? 0x90 then Some (cpu_c, false)
  else if opcode =? 0x30 then Some (cpu_n, true)
  else if opcode =? 0x10 then Some (cpu_n, false)
  else if opcode =? 0x70 then Some (cpu_v, true)
  else if opcode =? 0x50 then Some (cpu_v, false)
  else None.

(** The register an instruction that sets N and Z writes: loads,
    transfers, increments and decrements. *)
Definition nz_target (opcode : Z) : option (CPU -> Z) :=
  if is_case opcode [0xA9; 0xA5; 0xB5; 0xAD; 0xBD; 0xB9; 0xA1; 0xB1; 0x8A; 0x98]
  then Some cpu_a
  else if is_case opcode [0xA2; 0xA6; 0xB6; 0xAE; 0xBE; 0xAA; 0xBA; 0xE8; 0xCA]
  then Some cpu_x
  else if is_case opcode [0xA0; 0xA4; 0xB4; 0xAC; 0xBC; 0xA8; 0xC8; 0x88]
  then Some cpu_y
  else None.

(** The opcodes of [CMP]. *)
Definition cmp_opcodes : list Z := [0xC9; 0xC5; 0xD5; 0xCD; 0xDD; 0xD9; 0xC1; 0xD1].

(** The value [cpu_emulate_kernal] leaves in [cpu.a]. *)
Definition kernal_a (h : Host) (address a : Z) : Z :=
  if address =? 0xFFCF then u8 (getchar h)
  else if address =? 0xFFE4 then
    if kbhit h then (if getchar h =? -1 then 0 else u8 (getchar h)) else 0
  else a.

(** ** What no instruction touches *)

(** The flags I, D, B and V and the three ROM images agree. *)
Definition frozen (s s' : Machine) : Prop :=
  cpu_i (cpu s') = cpu_i (cpu s) /\
  cpu_d (cpu s') = cpu_d (cpu s) /\
  cpu_b (cpu s') = cpu_b (cpu s) /\
  cpu_v (cpu s') = cpu_v (cpu s) /\
  basic_rom (mem s') = basic_rom (mem s) /\
  kernal_rom (mem s') = kernal_rom (mem s) /\
  char_rom (mem s') = char_rom (mem s).

(** The machine after [memory_init] and [cpu_init] with [code] loaded at
    [address] and [pc] set there. *)
Definition program_at (address : Z) (code : list Z) : Machine :=
  cpu_set_pc
    (set_mem fresh_machine
       (memory_load (mem fresh_machine) address code (Z.of_nat (length code))))
    address.

(** ** The I/O registers *)

(** The addresses [io_read] and [io_write] decode. *)
Definition io_register (address : Z) : bool :=
  ((VIC_BASE_ADDRESS <=? address) && (address <? VIC_BASE_ADDRESS + VIC_REGISTERS_SIZE))
  || ((SID_BASE_ADDRESS <=? address) && (address <? SID_BASE_ADDRESS + SID_REGISTERS_SIZE))
  || ((CIA1_BASE_ADDRESS <=? address) && (address <? CIA1_BASE_ADDRESS + CIA_REGISTERS_SIZE))
  || ((CIA2_BASE_ADDRESS <=? address) && (address <? CIA2_BASE_ADDRESS + CIA_REGISTERS_SIZE)).

(** The statics of [io.c] before [io_init]. *)
Definition io_power_on : IO :=
  mkIO (fun _ => 0) (fun _ => 0) (fun _ => 0) (fun _ => 0)
       (fun _ => 0) (fun _ => 0) (fun _ => 0) 1.

(** ** The keyboard matrix *)

(** The row and the column [io_set_key_pressed] decodes from a key code. *)
Definition key_row (key : Z) : Z := (u8 key / 16) mod 8.
Definition key_col (key : Z) : Z := u8 key mod 8.

(** Row [row] is selected by the byte in CIA1 register 0: its bit is 0. *)
Definition row_selected (io : IO) (row : Z) : bool :=
  negb (Z.testbit (cia1_registers io 0) row).

(** The key at [row], [col] is down: its matrix bit is 0. *)
Definition key_down (io : IO) (row col : Z) : bool :=
  negb (Z.testbit (keyboard_matrix io row) col).

(** The I/O state after [io_init], called on the initialised memory. *)
Definition io_ready : IO := fst (io_init io_power_on (memory_init power_on)).

(** ** The screen *)

(** The 1000 cells of screen memory and of colour RAM. *)
Definition on_screen (address : Z) : bool :=
  (SCREEN_MEMORY_START <=? address) && (address <? SCREEN_MEMORY_START + 1000).
Definition in_colour (address : Z) : bool :=
  (COLOR_RAM_START <=? address) && (address <? COLOR_RAM_START + 1000).

(** A write to colour RAM reaches the RAM array: the character ROM is not
    banked in over it. *)
Definition colour_writable (m : Memory) : bool :=
  io_enabled m || negb (char_rom_enabled m).

(** The position in the output of [io_update_display] of the character for
    screen cell [k]: after the 7 characters of the escape sequence, 41
    characters per line. *)
Definition display_offset (k : Z) : nat := Z.to_nat (7 + 41 * (k / 40) + k mod 40).

(** Letters and the space. *)
Definition is_letter (c : Z) : bool :=
  ((97 <=? c) && (c <=? 122)) || ((65 <=? c) && (c <=? 90)).

(** ** Start-up *)

(** The bytes of a ROM file that could be opened are bytes. *)
Definition file_bytes (file : option (list Z)) : Prop :=
  match file with
  | None => True
  | Some bytes => Forall byte bytes
  end.

(** The statics of the program before [main] runs. *)
Definition emulator_power_on : Emulator :=
  mkEmulator (mkMachine (mkCPU 0 0 0 0 0 0 0 0 0 0 0 0) 0 power_on) io_power_on
             (mkShell 0 0).

(** The banks are all enabled, the table is current and the arrays hold
    bytes: the state of the memory throughout [init_emulator]. *)
Definition memory_ready (m : Memory) : Prop :=
  basic_rom_enabled m = true /\
  kernal_rom_enabled m = true /\
  char_rom_enabled m = true /\
  io_enabled m = true /\
  maps_current m /\
  memory_bytes m.

(** ** The vector stores of [memory_init] *)



(** * Properties *)

(** ** Arithmetic of addresses *)

(** Settle the comparisons of a goal: by the hypotheses where they decide
    one, by cases otherwise. *)
Ltac zbool_step :=
  match goal with
  | |- context [?p >=? ?q] => rewrite (Z.geb_leb p q)
  | |- context [?p >? ?q] => rewrite (Z.gtb_ltb p q)
  | |- context [?p <=? ?q] =>
      first [ rewrite (proj2 (Z.leb_le p q)) by lia
            | rewrite (proj2 (Z.leb_gt p q)) by lia
            | destruct (Z.leb_spec p q) ]
  | |- context [?p <? ?q] =>
      first [ rewrite (proj2 (Z.ltb_lt p q)) by lia
            | rewrite (proj2 (Z.ltb_ge p q)) by lia
            | destruct (Z.ltb_spec p q) ]
  | |- context [?p =? ?q] =>
      first [ rewrite (proj2 (Z.eqb_eq p q)) by lia
            | rewrite (proj2 (Z.eqb_neq p q)) by lia
            | destruct (Z.eqb_spec p q) ]
  end.

Ltac zbool :=
  repeat zbool_step;
  cbn [andb orb negb];
  try reflexivity; try lia.

(** Order and equality between closed numerals, by evaluation. *)
Ltac closed_bounds :=
  vm_compute; repeat split; first [reflexivity | intro; discriminate].

Lemma u8_range (v : Z) : 0 <= u8 v < 256.
Proof. unfold u8. apply Z.mod_pos_bound. lia. Qed.

Lemma u16_range (v : Z) : 0 <= u16 v < 65536.
Proof. unfold u16. apply Z.mod_pos_bound. lia. Qed.

Lemma u32_range (v : Z) : 0 <= u32 v < 4294967296.
Proof. unfold u32. apply Z.mod_pos_bound. lia. Qed.

Lemma u8_small (v : Z) : 0 <= v < 256 -> u8 v = v.
Proof. intros. unfold u8. apply Z.mod_small. lia. Qed.

Lemma u16_small (v : Z) : 0 <= v < 65536 -> u16 v = v.
Proof. intros. unfold u16. apply Z.mod_small. lia. Qed.

Lemma u32_small (v : Z) : 0 <= v < 4294967296 -> u32 v = v.
Proof. intros. unfold u32. apply Z.mod_small. lia. Qed.

Lemma shiftr8 (v : Z) : Z.shiftr v 8 = v / 256.
Proof. rewrite Z.shiftr_div_pow2 by lia. reflexivity. Qed.

Lemma shiftl8 (v : Z) : Z.shiftl v 8 = v * 256.
Proof. rewrite Z.shiftl_mul_pow2 by lia. reflexivity. Qed.

Lemma land_FF (v : Z) : Z.land v 0xFF = v mod 256.
Proof. change 0xFF with (Z.ones 8). rewrite Z.land_ones by lia. reflexivity. Qed.

(** The page and the offset [memory_read] splits an address into. *)
Lemma page_of_address (address : Z) :
  0 <= address < 65536 ->
  u8 (Z.shiftr address 8) = address / 256 /\ 0 <= address / 256 < 256.
Proof.
  intros H. rewrite shiftr8.
  assert (0 <= address / 256 < 256).
  { split; [apply Z.div_pos; lia | apply Z.div_lt_upper_bound; lia]. }
  split; [apply u8_small|]; assumption.
Qed.

Lemma offset_of_address (address : Z) : u8 (Z.land address 0xFF) = address mod 256.
Proof.
  rewrite land_FF. apply u8_small. apply Z.mod_pos_bound. lia.
Qed.

(** ** The page dispatch table *)

Lemma for_loop_set_page (f : Z -> Ptr) (count : nat) :
  forall first map j,
    for_loop count first (fun i map => set_page map i (f i)) map j =
    if (first <=? j) && (j <? first + Z.of_nat count) then f j else map j.
Proof.
  induction count as [|count IH]; intros first map j.
  - cbn [for_loop]. zbool.
  - cbn [for_loop]. rewrite IH. unfold set_page.
    rewrite Nat2Z.inj_succ. zbool.
    replace j with first by lia. reflexivity.
Qed.

Lemma update_memory_maps_page (m : Memory) (page : Z) :
  0 <= page < 256 ->
  memory_read_map (update_memory_maps m) page = page_source m page.
Proof.
  intros H. unfold update_memory_maps, page_source.
  cbn [memory_read_map set_memory_read_map].
  destruct (io_enabled m), (char_rom_enabled m), (kernal_rom_enabled m),
    (basic_rom_enabled m); cbn [negb andb];
    rewrite ?for_loop_set_page; cbn [Z.of_nat Pos.of_succ_nat Pos.succ]; zbool.
Qed.

Lemma maps_current_built (m : Memory) : maps_current m -> maps_built m.
Proof. intros H. exists m. exact H. Qed.

Lemma update_memory_maps_current (m : Memory) : maps_current (update_memory_maps m).
Proof.
  intros page H. rewrite !update_memory_maps_page by assumption. reflexivity.
Qed.

Lemma memory_init_current (m : Memory) : maps_current (memory_init m).
Proof. apply update_memory_maps_current. Qed.

Lemma maps_built_plain (m : Memory) (page : Z) :
  maps_built m -> plain_page page ->
  memory_read_map m page = mkPtr RAM (Z.shiftl page 8).
Proof.
  intros [m0 H] Hp. unfold plain_page in Hp.
  rewrite H, update_memory_maps_page by lia.
  unfold page_source. zbool; rewrite ?andb_false_r; reflexivity.
Qed.

(** ** Reads *)

Lemma memory_read_unfold (m : Memory) (address : Z) :
  0 <= address < 65536 ->
  memory_read m address =
  if (0xD0 <=? address / 256) && (address / 256 <=? 0xDF) && io_enabled m
  then memory m address
  else deref m (memory_read_map m (address / 256)) (address mod 256).
Proof.
  intros H. unfold memory_read. rewrite (u16_small address) by assumption.
  destruct (page_of_address address H) as [-> _].
  rewrite offset_of_address, Z.geb_leb. reflexivity.
Qed.

Lemma page_bounds (address lo hi : Z) :
  lo * 256 <= address < hi * 256 -> lo <= address / 256 < hi.
Proof.
  intros H. split.
  - apply Z.div_le_lower_bound; lia.
  - apply Z.div_lt_upper_bound; lia.
Qed.

Lemma split_address (address : Z) :
  Z.shiftl (address / 256) 8 + address mod 256 = address.
Proof. rewrite shiftl8. pose proof (Z.div_mod address 256). lia. Qed.

Lemma split_address_from (address lo : Z) :
  Z.shiftl (address / 256 - lo) 8 + address mod 256 = address - lo * 256.
Proof. rewrite shiftl8. pose proof (Z.div_mod address 256). lia. Qed.

(** A read from a page no bank overlays is a read of the RAM array. *)
Lemma memory_read_plain (m : Memory) (address : Z) :
  maps_built m -> 0 <= address < 0xA000 \/ 0xC000 <= address < 0xD000 ->
  memory_read m address = memory m address.
Proof.
  intros Hm H.
  assert (Hp : plain_page (address / 256)).
  { unfold plain_page.
    destruct H as [H|H]; [left|right]; apply page_bounds; lia. }
  rewrite memory_read_unfold by lia.
  rewrite (maps_built_plain m _ Hm Hp).
  unfold deref; cbn [bank base]. rewrite split_address.
  unfold plain_page in Hp. zbool.
Qed.

(** ** Writes *)

(** A write below [$A000] other than to the port, or to [$C000..$CFFF], is a
    store into the RAM array, whatever the banking. *)
Lemma memory_write_plain (m : Memory) (address value : Z) :
  1 < address < 0xA000 \/ 0xC000 <= address < 0xD000 \/ address = 0 ->
  memory_write m address value = set_memory m (store (memory m) address (u8 value)).
Proof.
  intros H. unfold memory_write.
  rewrite (u16_small address) by lia.
  unfold BASIC_ROM_START, BASIC_ROM_END, KERNAL_ROM_START, KERNAL_ROM_END,
    IO_REGION_START, IO_REGION_END.
  zbool; rewrite ?andb_false_r; reflexivity.
Qed.

(** A write to the port always reaches the port handler. *)
Lemma memory_write_port (m : Memory) (value : Z) :
  memory_write m 0x0001 value =
  let m1 :=
    mkMemory (store (memory m) 0x0001 (u8 value))
             (negb (Z.land (u8 value) 0x03 =? 0))
             (negb (Z.land (u8 value) 0x02 =? 0))
             ((Z.land (u8 value) 0x04 =? 0) && negb (Z.land (u8 value) 0x03 =? 0))
             (negb (Z.land (u8 value) 0x04 =? 0))
             (basic_rom m) (kernal_rom m) (char_rom m) (memory_read_map m) in
  if negb (Z.land (memory m 0x0001) 0x07 =? Z.land (u8 value) 0x07)
  then update_memory_maps m1
  else m1.
Proof.
  unfold memory_write. change (u16 1) with 1.
  change (1 >=? BASIC_ROM_START) with false.
  change (1 >=? KERNAL_ROM_START) with false.
  change (1 >=? IO_REGION_START) with false.
  rewrite !andb_false_r. reflexivity.
Qed.

(** Writes into an enabled ROM are dropped. *)
Lemma memory_write_basic_rom (m : Memory) (address value : Z) :
  basic_rom_enabled m = true -> 0xA000 <= address <= 0xBFFF ->
  memory_write m address value = m.
Proof.
  intros Hb H. unfold memory_write. rewrite (u16_small address) by lia.
  rewrite Hb. unfold BASIC_ROM_START, BASIC_ROM_END. zbool.
Qed.

Lemma memory_write_kernal_rom (m : Memory) (address value : Z) :
  kernal_rom_enabled m = true -> 0xE000 <= address <= 0xFFFF ->
  memory_write m address value = m.
Proof.
  intros Hk H. unfold memory_write. rewrite (u16_small address) by lia.
  rewrite Hk. unfold BASIC_ROM_START, BASIC_ROM_END, KERNAL_ROM_START, KERNAL_ROM_END.
  zbool; rewrite ?andb_false_r; reflexivity.
Qed.

(** A read from an enabled ROM, through a current table, is a read of the
    image. *)
Lemma memory_read_basic_rom (m : Memory) (address : Z) :
  maps_current m -> basic_rom_enabled m = true -> 0xA000 <= address <= 0xBFFF ->
  memory_read m address = basic_rom m (address - 0xA000).
Proof.
  intros Hm Hb H.
  pose proof (page_bounds address 0xA0 0xC0 ltac:(lia)) as Hp.
  rewrite memory_read_unfold by lia.
  rewrite Hm, update_memory_maps_page by lia.
  unfold page_source. rewrite Hb.
  zbool; rewrite ?andb_false_r; cbn [andb];
    unfold deref; cbn [bank base]; rewrite split_address_from; reflexivity.
Qed.

Lemma memory_read_kernal_rom (m : Memory) (address : Z) :
  maps_current m -> kernal_rom_enabled m = true -> 0xE000 <= address <= 0xFFFF ->
  memory_read m address = kernal_rom m (address - 0xE000).
Proof.
  intros Hm Hk H.
  pose proof (page_bounds address 0xE0 0x100 ltac:(lia)) as Hp.
  rewrite memory_read_unfold by lia.
  rewrite Hm, update_memory_maps_page by lia.
  unfold page_source. rewrite Hk.
  zbool; rewrite ?andb_false_r; cbn [andb];
    unfold deref; cbn [bank base]; rewrite split_address_from; reflexivity.
Qed.

(** With BASIC banked out and a current table, [$A000..$BFFF] is RAM. *)
Lemma memory_read_basic_out (m : Memory) (address : Z) :
  maps_current m -> basic_rom_enabled m = false -> 0xA000 <= address <= 0xBFFF ->
  memory_read m address = memory m address.
Proof.
  intros Hm Hb H.
  pose proof (page_bounds address 0xA0 0xC0 ltac:(lia)) as Hp.
  rewrite memory_read_unfold by lia.
  rewrite Hm, update_memory_maps_page by lia.
  unfold page_source. rewrite Hb.
  zbool; rewrite ?andb_false_r; cbn [andb];
    unfold deref; cbn [bank base]; rewrite split_address; reflexivity.
Qed.

(** ** The two ROM overlays that reject writes *)

(** C4, as stated, fails in [stale_memory]: BASIC is enabled and the write
    to [$A000] is dropped, yet the read returns the RAM byte 0, not the ROM
    byte [0xEA]. *)
Lemma rom_read_after_write_stale_table :
  basic_rom_enabled stale_memory = true /\
  memory_read (memory_write stale_memory 0xA000 0x55) 0xA000 = 0 /\
  basic_rom stale_memory (0xA000 - 0xA000) = 0xEA.
Proof. vm_compute. repeat split. Qed.

(** C4 (amended): while a ROM is enabled, a write into its region leaves the
    whole memory state unchanged; and when the page dispatch table is
    current with the banking flags, the read that follows returns the ROM
    byte at offset [address - region start]. *)
Theorem rom_write_discarded (m : Memory) (rom : Rom) (address value : Z) :
  rom_enabled m rom = true ->
  rom_start rom <= address <= rom_end rom ->
  memory_write m address value = m /\
  (maps_current m ->
   memory_read (memory_write m address value) address =
   rom_image m rom (address - rom_start rom)).
Proof.
  intros He H. destruct rom; cbn in He, H |- *.
  - unfold BASIC_ROM_START, BASIC_ROM_END in *.
    rewrite memory_write_basic_rom by (assumption || lia).
    split; [reflexivity|]. intros Hm. apply memory_read_basic_rom; assumption.
  - unfold KERNAL_ROM_START, KERNAL_ROM_END in *.
    rewrite memory_write_kernal_rom by (assumption || lia).
    split; [reflexivity|]. intros Hm. apply memory_read_kernal_rom; assumption.
Qed.

Lemma rom_write_discarded_after_init :
  rom_enabled (memory_init power_on) KernalRom = true /\
  rom_start KernalRom <= 0xFFFC <= rom_end KernalRom /\
  memory_write (memory_init power_on) 0xFFFC 0x00 = memory_init power_on /\
  memory_read (memory_write (memory_init power_on) 0xFFFC 0x00) 0xFFFC =
  rom_image (memory_init power_on) KernalRom (0xFFFC - rom_start KernalRom).
Proof.
  assert (He : rom_enabled (memory_init power_on) KernalRom = true) by reflexivity.
  assert (H : rom_start KernalRom <= 0xFFFC <= rom_end KernalRom)
    by (unfold rom_start, rom_end, KERNAL_ROM_START, KERNAL_ROM_END; lia).
  destruct (rom_write_discarded (memory_init power_on) KernalRom 0xFFFC 0x00 He H)
    as [Hw Hr].
  split; [exact He|]. split; [exact H|]. split; [exact Hw|].
  exact (Hr (memory_init_current power_on)).
Defined.

(** ** The processor port *)

(** The byte a port write stores. *)
Lemma memory_write_port_byte (m : Memory) (value : Z) :
  memory (memory_write m 0x0001 value) 0x0001 = u8 value.
Proof.
  rewrite memory_write_port. cbv zeta.
  destruct (negb _); cbn [memory update_memory_maps set_memory_read_map];
    unfold store; reflexivity.
Qed.

(** A port write whose low three bits differ from the stored byte's leaves
    a rebuilt, hence current, table. *)
Lemma memory_write_port_rebuilds (m : Memory) (value : Z) :
  Z.land (memory m 0x0001) 0x07 <> Z.land (u8 value) 0x07 ->
  maps_current (memory_write m 0x0001 value).
Proof.
  intros H. rewrite memory_write_port. cbv zeta.
  rewrite (proj2 (Z.eqb_neq _ _) H). cbn [negb].
  apply update_memory_maps_current.
Qed.

(** The flags a port write computes. *)
Lemma memory_write_port_flags (m : Memory) (value : Z) :
  let m' := memory_write m 0x0001 value in
  basic_rom_enabled m' = negb (Z.land (u8 value) 0x03 =? 0) /\
  kernal_rom_enabled m' = negb (Z.land (u8 value) 0x02 =? 0) /\
  char_rom_enabled m' =
    ((Z.land (u8 value) 0x04 =? 0) && negb (Z.land (u8 value) 0x03 =? 0)) /\
  io_enabled m' = negb (Z.land (u8 value) 0x04 =? 0).
Proof.
  cbv zeta. rewrite memory_write_port. cbv zeta.
  destruct (negb (_ =? _)); repeat split; reflexivity.
Qed.

(** C5: after [memory_init], [$A000] reads the BASIC image's [0xEA]; with
    [0x00] written to the port it reads the RAM byte, which is 0; with
    [0x07] written back it reads [0xEA] again. After [0x07] and then [0x30]
    are written to the port, the four banking flags are all off and every
    read in [$A000..$BFFF] returns the RAM byte. *)
Theorem banking_toggle (m0 : Memory) (address : Z) :
  0xA000 <= address <= 0xBFFF ->
  let m := memory_init m0 in
  let off := memory_write m 0x0001 0x00 in
  let back := memory_write off 0x0001 0x07 in
  let out := memory_write (memory_write m 0x0001 0x07) 0x0001 0x30 in
  memory_read m 0xA000 = 0xEA /\
  memory_read off 0xA000 = memory off 0xA000 /\
  memory off 0xA000 = 0 /\
  memory_read back 0xA000 = 0xEA /\
  basic_rom_enabled out = false /\
  kernal_rom_enabled out = false /\
  io_enabled out = false /\
  char_rom_enabled out = false /\
  memory_read out address = memory out address.
Proof.
  intros H m off back out.
  assert (Hout : maps_current out).
  { apply memory_write_port_rebuilds. rewrite memory_write_port_byte.
    vm_compute. discriminate. }
  destruct (memory_write_port_flags (memory_write m 0x0001 0x07) 0x30)
    as (Hb & Hk & Hc & Hi).
  fold out in Hb, Hk, Hc, Hi.
  change (u8 48) with 48 in Hb, Hk, Hc, Hi.
  cbn in Hb, Hk, Hc, Hi.
  split; [vm_compute; reflexivity|].
  split; [vm_compute; reflexivity|].
  split; [vm_compute; reflexivity|].
  split; [vm_compute; reflexivity|].
  repeat (split; [assumption|]).
  apply memory_read_basic_out; assumption.
Qed.

Lemma banking_toggle_at_A123 :
  let m := memory_init power_on in
  let off := memory_write m 0x0001 0x00 in
  let back := memory_write off 0x0001 0x07 in
  let out := memory_write (memory_write m 0x0001 0x07) 0x0001 0x30 in
  memory_read m 0xA000 = 0xEA /\
  memory_read off 0xA000 = memory off 0xA000 /\
  memory off 0xA000 = 0 /\
  memory_read back 0xA000 = 0xEA /\
  basic_rom_enabled out = false /\
  kernal_rom_enabled out = false /\
  io_enabled out = false /\
  char_rom_enabled out = false /\
  memory_read out 0xA123 = memory out 0xA123.
Proof. apply (banking_toggle power_on 0xA123). lia. Defined.

(** ** Program loading *)

(** C10: [memory_load] copies into the RAM array whatever the banking: every
    byte of the range, truncated at the end of memory, lands in RAM; so does
    a byte under an enabled ROM, where [memory_write] drops its byte;
    nothing else in RAM changes; a range that covers the port at [$0001]
    replaces the stored port byte by the loaded one; and the banking flags,
    the ROM images and the page dispatch table are the same afterwards. *)
Theorem memory_load_raw_copy (m : Memory) (address : Z) (data : list Z) (length : Z) :
  0 <= address < 65536 ->
  0 <= length < 65536 ->
  length <= Z.of_nat (List.length data) ->
  let m' := memory_load m address data length in
  (forall j, address <= j < address + length -> j < MEMORY_SIZE ->
             memory m' j = nth (Z.to_nat (j - address)) data 0) /\
  (forall j, ~ (address <= j < address + length /\ j < MEMORY_SIZE) ->
             memory m' j = memory m j) /\
  (forall j rom value, address <= j < address + length ->
             rom_enabled m rom = true -> rom_start rom <= j <= rom_end rom ->
             memory m' j = nth (Z.to_nat (j - address)) data 0 /\
             memory_write m j value = m) /\
  (address <= 0x0001 < address + length ->
             memory m' 0x0001 = nth (Z.to_nat (0x0001 - address)) data 0) /\
  basic_rom_enabled m' = basic_rom_enabled m /\
  kernal_rom_enabled m' = kernal_rom_enabled m /\
  char_rom_enabled m' = char_rom_enabled m /\
  io_enabled m' = io_enabled m /\
  basic_rom m' = basic_rom m /\
  kernal_rom m' = kernal_rom m /\
  char_rom m' = char_rom m /\
  memory_read_map m' = memory_read_map m.
Proof.
  intros Ha Hl Hd m'.
  assert (Hmem : forall j,
             memory m' j =
             if (address <=? j) && (j <? address + length) && (j <? MEMORY_SIZE)
             then nth (Z.to_nat (j - address)) data 0 else memory m j).
  { intros j. unfold m', memory_load, MEMORY_SIZE.
    rewrite (u16_small address), (u16_small length) by assumption.
    cbn [memory set_memory]. unfold memcpy.
    destruct (Z.gtb_spec (address + length) 65536).
    - rewrite u16_small by lia. zbool.
    - zbool. }
  split; [intros j H1 H2; rewrite Hmem; unfold MEMORY_SIZE in *; zbool|].
  split; [intros j H1; rewrite Hmem; unfold MEMORY_SIZE in *; zbool|].
  split.
  { intros j rom value H1 He Hj. split.
    - rewrite Hmem. unfold MEMORY_SIZE.
      destruct rom; cbn in Hj;
        unfold BASIC_ROM_START, BASIC_ROM_END, KERNAL_ROM_START, KERNAL_ROM_END in Hj;
        zbool.
    - destruct rom; cbn in He, Hj;
        unfold BASIC_ROM_START, BASIC_ROM_END, KERNAL_ROM_START, KERNAL_ROM_END in Hj.
      + apply memory_write_basic_rom; assumption.
      + apply memory_write_kernal_rom; assumption. }
  split; [intros H1; rewrite Hmem; unfold MEMORY_SIZE; zbool|].
  repeat split; reflexivity.
Qed.

(** A load over [$0000..$0001] after [memory_init]: the port byte becomes
    [0x00] while all four flags stay on. *)
Lemma memory_load_raw_copy_over_port :
  let m := memory_init power_on in
  let m' := memory_load m 0x0000 [0x2F; 0x00] 2 in
  memory m' 0x0001 = 0x00 /\
  basic_rom_enabled m' = true /\
  memory_read_map m' = memory_read_map m.
Proof.
  intros m m'.
  destruct (memory_load_raw_copy m 0x0000 [0x2F; 0x00] 2
              ltac:(lia) ltac:(lia) ltac:(cbn; lia))
    as (_ & _ & _ & Hport & Hb & _ & _ & _ & _ & _ & _ & Hmap).
  split; [exact (Hport ltac:(lia))|].
  split; [exact Hb|exact Hmap].
Defined.

(** ** The banking flags against the port byte *)

(** Every byte decodes as the port handler computes. *)
Lemma byte_cases (P : Z -> bool) :
  forallb P (map Z.of_nat (seq 0 256)) = true ->
  forall w, 0 <= w < 256 -> P w = true.
Proof.
  intros H w Hw. rewrite forallb_forall in H. apply H.
  apply in_map_iff. exists (Z.to_nat w). split; [lia|].
  apply in_seq. lia.
Qed.

Lemma port_decode_bits (w : Z) :
  0 <= w < 256 ->
  negb (Z.land w 0x02 =? 0) = Z.testbit w 1 /\
  negb (Z.land w 0x03 =? 0) = (Z.testbit w 0 || Z.testbit w 1) /\
  negb (Z.land w 0x04 =? 0) = Z.testbit w 2 /\
  (Z.land w 0x04 =? 0) = negb (Z.testbit w 2).
Proof.
  intros Hw.
  pose proof (byte_cases
    (fun w => Bool.eqb (negb (Z.land w 0x02 =? 0)) (Z.testbit w 1)
           && Bool.eqb (negb (Z.land w 0x03 =? 0)) (Z.testbit w 0 || Z.testbit w 1)
           && Bool.eqb (negb (Z.land w 0x04 =? 0)) (Z.testbit w 2)
           && Bool.eqb (Z.land w 0x04 =? 0) (negb (Z.testbit w 2)))
    ltac:(vm_compute; reflexivity) w Hw) as H.
  cbv beta in H. rewrite !andb_true_iff in H.
  destruct H as (((H1 & H2) & H3) & H4).
  repeat split; apply Bool.eqb_prop; assumption.
Qed.

(** A port write leaves the flags decoded from the byte it stored. *)
Lemma memory_write_port_decoded (m : Memory) (value : Z) :
  flags_decoded (memory_write m 0x0001 value).
Proof.
  destruct (memory_write_port_flags m value) as (Hb & Hk & Hc & Hi).
  destruct (port_decode_bits (u8 value) (u8_range value)) as (B1 & B2 & B3 & B4).
  unfold flags_decoded, port_kernal, port_basic, port_io, port_char, port_bit.
  rewrite memory_write_port_byte, Hb, Hk, Hc, Hi, B1, B2, B3, B4.
  repeat split; reflexivity.
Qed.

(** Any other write leaves the port byte and the flags alone. *)
Lemma memory_write_elsewhere (m : Memory) (address value : Z) :
  u16 address <> 0x0001 ->
  let m' := memory_write m address value in
  memory m' 0x0001 = memory m 0x0001 /\
  basic_rom_enabled m' = basic_rom_enabled m /\
  kernal_rom_enabled m' = kernal_rom_enabled m /\
  char_rom_enabled m' = char_rom_enabled m /\
  io_enabled m' = io_enabled m /\
  memory_read_map m' = memory_read_map m.
Proof.
  intros H m'. unfold m', memory_write.
  rewrite (proj2 (Z.eqb_neq _ _) H).
  repeat match goal with
         | |- context [if ?t then _ else _] => destruct t eqn:?
         end;
    cbn [memory set_memory basic_rom_enabled kernal_rom_enabled
         char_rom_enabled io_enabled memory_read_map]; unfold store;
    rewrite ?(proj2 (Z.eqb_neq 1 (u16 address))) by congruence;
    repeat split; (reflexivity || congruence).
Qed.

(** A load that does not cover the port leaves the port byte alone. *)
Lemma memory_load_elsewhere (m : Memory) (address : Z) (data : list Z) (length : Z) :
  covers_port (OpLoad address data length) = false ->
  memory (memory_load m address data length) 0x0001 = memory m 0x0001.
Proof.
  unfold covers_port, memory_load, MEMORY_SIZE. intros H.
  pose proof (u16_range address). pose proof (u16_range length).
  cbn [memory set_memory]. unfold memcpy.
  destruct (Z.gtb_spec (u16 address + u16 length) 65536).
  - destruct (Z.leb_spec (u16 address) 1); [|zbool].
    cbn [andb] in H. apply Z.ltb_ge in H. lia.
  - destruct (Z.leb_spec (u16 address) 1); [|zbool].
    cbn [andb] in H. apply Z.ltb_ge in H. zbool.
Qed.

Lemma memory_write_u16 (m : Memory) (address value : Z) :
  memory_write m (u16 address) value = memory_write m address value.
Proof.
  unfold memory_write. rewrite (u16_small (u16 address)) by apply u16_range.
  reflexivity.
Qed.

Lemma flags_tracked_same_port (seen : bool) (m m' : Memory) :
  memory m' 0x0001 = memory m 0x0001 ->
  basic_rom_enabled m' = basic_rom_enabled m ->
  kernal_rom_enabled m' = kernal_rom_enabled m ->
  char_rom_enabled m' = char_rom_enabled m ->
  io_enabled m' = io_enabled m ->
  flags_tracked seen m -> flags_tracked seen m'.
Proof.
  unfold flags_tracked, port_kernal, port_basic, port_io, port_char, port_bit.
  intros -> -> -> -> -> H. exact H.
Qed.

Lemma flags_tracked_init (m0 : Memory) : flags_tracked false (memory_init m0).
Proof. repeat split; vm_compute; reflexivity. Qed.

Lemma flags_tracked_step (seen : bool) (m : Memory) (op : MemOp) :
  covers_port op = false ->
  flags_tracked seen m ->
  flags_tracked (seen || writes_port op) (apply_op m op).
Proof.
  intros Hc H. destruct op as [address|address value|address data length];
    cbn [apply_op writes_port].
  - rewrite orb_false_r. exact H.
  - destruct (Z.eqb_spec (u16 address) 0x0001) as [E|E].
    + rewrite orb_true_r, <- memory_write_u16, E.
      destruct (memory_write_port_decoded m value) as (Hk & Hb & Hi & Hch).
      repeat split; assumption.
    + rewrite orb_false_r.
      destruct (memory_write_elsewhere m address value E) as (Hp & Hb & Hk & Hch & Hi & _).
      exact (flags_tracked_same_port seen m _ Hp Hb Hk Hch Hi H).
  - rewrite orb_false_r.
    apply (flags_tracked_same_port seen m); try reflexivity; [|exact H].
    apply memory_load_elsewhere. exact Hc.
Qed.

Lemma flags_tracked_run (ops : list MemOp) :
  forall seen m,
    existsb covers_port ops = false ->
    flags_tracked seen m ->
    flags_tracked (seen || existsb writes_port ops) (run_ops ops m).
Proof.
  induction ops as [|op ops IH]; intros seen m Hc H.
  - cbn. rewrite orb_false_r. exact H.
  - cbn [existsb] in Hc |- *. apply orb_false_iff in Hc. destruct Hc as [Hc1 Hc2].
    rewrite orb_assoc. unfold run_ops. cbn [fold_left].
    apply IH; [exact Hc2|]. apply flags_tracked_step; assumption.
Qed.

(** *** The table along a run *)

Lemma low_bits_agree (v w k : Z) :
  Z.land v 0x07 = Z.land w 0x07 -> 0 <= k < 3 -> Z.testbit v k = Z.testbit w k.
Proof.
  intros E Hk.
  assert (B : forall u, Z.testbit (Z.land u 0x07) k = Z.testbit u k).
  { intros u. rewrite Z.land_spec.
    assert (K : k = 0 \/ k = 1 \/ k = 2) by lia.
    destruct K as [->|[->| ->]]; apply andb_true_r. }
  rewrite <- (B v), <- (B w), E. reflexivity.
Qed.

Lemma maps_current_same_flags (m m' : Memory) :
  basic_rom_enabled m' = basic_rom_enabled m ->
  kernal_rom_enabled m' = kernal_rom_enabled m ->
  char_rom_enabled m' = char_rom_enabled m ->
  io_enabled m' = io_enabled m ->
  memory_read_map m' = memory_read_map m ->
  maps_current m -> maps_current m'.
Proof.
  intros Hb Hk Hc Hi Hmap H page Hp.
  rewrite Hmap, (H page Hp), !update_memory_maps_page by assumption.
  unfold page_source. rewrite Hb, Hk, Hc, Hi. reflexivity.
Qed.

(** A port write that skips the rebuild leaves a current table current: the
    flags it computes select the same banks as the flags before. *)
Lemma memory_write_port_keeps_current (seen : bool) (m : Memory) (value : Z) :
  Z.land (memory m 0x0001) 0x07 = Z.land (u8 value) 0x07 ->
  flags_tracked seen m -> maps_current m ->
  maps_current (memory_write m 0x0001 value).
Proof.
  intros E (Hk & Hb & Hi & Hc) Hcur.
  rewrite memory_write_port. cbv zeta.
  rewrite E, Z.eqb_refl. cbn [negb].
  intros page Hp. rewrite update_memory_maps_page by assumption.
  cbn [memory_read_map]. rewrite (Hcur page Hp), update_memory_maps_page by assumption.
  destruct (port_decode_bits (u8 value) (u8_range value)) as (B1 & B2 & B3 & B4).
  unfold page_source.
  cbn [basic_rom_enabled kernal_rom_enabled char_rom_enabled io_enabled].
  rewrite B1, B2, B3, B4, Hk, Hb, Hi.
  unfold port_kernal, port_basic, port_io, port_char, port_bit in *.
  rewrite !(low_bits_agree _ _ _ E) by lia.
  destruct seen.
  - rewrite Hc, !(low_bits_agree _ _ _ E) by lia. reflexivity.
  - destruct Hc as [Hc H37].
    assert (T : Z.testbit (u8 value) 2 = true).
    { rewrite <- (low_bits_agree _ _ 2 E) by lia. rewrite H37. reflexivity. }
    rewrite T. reflexivity.
Qed.

Lemma maps_current_step (seen : bool) (m : Memory) (op : MemOp) :
  covers_port op = false ->
  flags_tracked seen m -> maps_current m ->
  maps_current (apply_op m op).
Proof.
  intros Hc Hf Hcur. destruct op as [address|address value|address data length];
    cbn [apply_op].
  - exact Hcur.
  - destruct (Z.eqb_spec (u16 address) 0x0001) as [E|E].
    + rewrite <- memory_write_u16, E.
      destruct (Z.eq_dec (Z.land (memory m 0x0001) 0x07) (Z.land (u8 value) 0x07))
        as [S|S].
      * exact (memory_write_port_keeps_current seen m value S Hf Hcur).
      * exact (memory_write_port_rebuilds m value S).
    + destruct (memory_write_elsewhere m address value E) as (_ & Hb & Hk & Hch & Hi & Hmap).
      exact (maps_current_same_flags m _ Hb Hk Hch Hi Hmap Hcur).
  - apply (maps_current_same_flags m); try reflexivity. exact Hcur.
Qed.

(** After [memory_init] and any run in which no load covers the port, the
    table is current. *)
Lemma maps_current_run (ops : list MemOp) :
  forall seen m,
    existsb covers_port ops = false ->
    flags_tracked seen m -> maps_current m ->
    maps_current (run_ops ops m).
Proof.
  induction ops as [|op ops IH]; intros seen m Hc Hf Hcur.
  - exact Hcur.
  - cbn [existsb] in Hc. apply orb_false_iff in Hc. destruct Hc as [Hc1 Hc2].
    unfold run_ops. cbn [fold_left].
    apply (IH (seen || writes_port op)); [exact Hc2| |].
    + apply flags_tracked_step; assumption.
    + exact (maps_current_step seen m op Hc1 Hf Hcur).
Qed.

Lemma maps_current_after_init (m0 : Memory) (ops : list MemOp) :
  existsb covers_port ops = false ->
  maps_current (run_ops ops (memory_init m0)).
Proof.
  intros Hc.
  exact (maps_current_run ops false _ Hc (flags_tracked_init m0) (memory_init_current m0)).
Qed.

(** C2, as stated, fails at once after [memory_init] (the character-ROM flag
    is on, the decode of [0x37] turns it off) and after a [memory_load] over
    the port (the byte changes, the flags do not). *)
Lemma flags_not_decoded_after_init_or_load :
  ~ flags_decoded (run_ops [] (memory_init power_on)) /\
  ~ flags_decoded (run_ops [OpLoad 0x0000 [0x2F; 0x00] 2] (memory_init power_on)).
Proof.
  split; intros (Hk & Hb & Hi & Hc); vm_compute in Hk, Hc; discriminate.
Qed.

Lemma flags_at_same_port (st : PortStore) (m m' : Memory) :
  memory m' 0x0001 = memory m 0x0001 ->
  basic_rom_enabled m' = basic_rom_enabled m ->
  kernal_rom_enabled m' = kernal_rom_enabled m ->
  char_rom_enabled m' = char_rom_enabled m ->
  io_enabled m' = io_enabled m ->
  flags_at st m -> flags_at st m'.
Proof.
  unfold flags_at, flags_decoded, decoded_from, all_enabled,
    port_kernal, port_basic, port_io, port_char, port_bit.
  intros -> -> -> -> -> H. exact H.
Qed.

(** The flags a [memory_load] across [$0001] leaves: those of the last
    [memory_write] to [$0001], or of [memory_init]. *)
Lemma flags_at_latched (st : PortStore) (m : Memory) :
  flags_at st m -> flags_at (ByLoad (written_byte st)) m.
Proof.
  destruct st as [|value|written]; cbn [written_byte flags_at].
  - unfold port_kernal, port_basic, port_io, port_bit, all_enabled.
    intros (Hk & Hb & Hi & Hc & Hp). rewrite Hp in Hk, Hb, Hi.
    split; [exact Hk|]. split; [exact Hb|]. split; [exact Hi|exact Hc].
  - unfold flags_decoded, decoded_from, port_kernal, port_basic, port_io, port_char,
      port_bit.
    intros [H Hp]. rewrite Hp in H. exact H.
  - intros H. exact H.
Qed.

Lemma flags_at_latched_same_flags (written : option Z) (m m' : Memory) :
  basic_rom_enabled m' = basic_rom_enabled m ->
  kernal_rom_enabled m' = kernal_rom_enabled m ->
  char_rom_enabled m' = char_rom_enabled m ->
  io_enabled m' = io_enabled m ->
  flags_at (ByLoad written) m -> flags_at (ByLoad written) m'.
Proof.
  unfold flags_at, decoded_from, all_enabled.
  intros -> -> -> -> H. exact H.
Qed.

Lemma flags_at_init (m0 : Memory) : flags_at ByInit (memory_init m0).
Proof. exact (flags_tracked_init m0). Qed.

Lemma flags_at_step (st : PortStore) (m : Memory) (op : MemOp) :
  flags_at st m -> flags_at (port_store_step st op) (apply_op m op).
Proof.
  intros H. destruct op as [address|address value|address data length];
    cbn [apply_op port_store_step].
  - exact H.
  - cbn [writes_port]. destruct (Z.eqb_spec (u16 address) 0x0001) as [E|E].
    + rewrite <- memory_write_u16, E. cbn [flags_at].
      split; [apply memory_write_port_decoded|apply memory_write_port_byte].
    + destruct (memory_write_elsewhere m address value E) as (Hp & Hb & Hk & Hch & Hi & _).
      exact (flags_at_same_port st m _ Hp Hb Hk Hch Hi H).
  - destruct (covers_port (OpLoad address data length)) eqn:Hc.
    + apply (flags_at_latched_same_flags _ m); try reflexivity.
      apply flags_at_latched, H.
    + apply (flags_at_same_port st m); try reflexivity; [|exact H].
      apply memory_load_elsewhere. exact Hc.
Qed.

Lemma flags_at_run (ops : list MemOp) :
  forall st m,
    flags_at st m -> flags_at (fold_left port_store_step ops st) (run_ops ops m).
Proof.
  induction ops as [|op ops IH]; intros st m H; [exact H|].
  unfold run_ops. cbn [fold_left]. apply IH, flags_at_step, H.
Qed.

(** C2 (amended): after [memory_init] and any sequence of reads, writes and
    loads, what the flags are follows from the store that last put a byte
    at [$0001]. When it was a [memory_write], the four flags equal the decode
    of the low three bits of [ram[0x0001]], whatever went before. When it was
    [memory_init], the KERNAL, BASIC and I/O flags equal the decode and the
    character-ROM flag is on, over the port byte [0x37]. When it was a
    [memory_load] across [$0001], the flags are still the decode of the byte
    last written to [$0001] by [memory_write], or all on if there was none,
    whatever byte the load left. *)
Theorem flags_follow_port (m0 : Memory) (ops : list MemOp) :
  let m := run_ops ops (memory_init m0) in
  match last_port_store ops with
  | ByWrite value => flags_decoded m /\ memory m 0x0001 = value
  | ByInit =>
      kernal_rom_enabled m = port_kernal m /\
      basic_rom_enabled m = port_basic m /\
      io_enabled m = port_io m /\
      char_rom_enabled m = true /\ memory m 0x0001 = 0x37
  | ByLoad (Some value) => decoded_from value m
  | ByLoad None => all_enabled m
  end.
Proof.
  intros m.
  exact (flags_at_run ops ByInit (memory_init m0) (flags_at_init m0)).
Qed.

Lemma flags_follow_port_example :
  flags_decoded
    (run_ops [OpWrite 0x0400 0x20; OpLoad 0x0000 [0x2F; 0x00] 2;
              OpRead 0xA000; OpWrite 0x0001 0x35; OpLoad 0x0800 [0xA9; 0x01] 2]
             (memory_init power_on)) /\
  all_enabled (run_ops [OpLoad 0x0000 [0x2F; 0x00] 2] (memory_init power_on)).
Proof.
  split.
  - exact (proj1 (flags_follow_port power_on
                    [OpWrite 0x0400 0x20; OpLoad 0x0000 [0x2F; 0x00] 2;
                     OpRead 0xA000; OpWrite 0x0001 0x35; OpLoad 0x0800 [0xA9; 0x01] 2])).
  - exact (flags_follow_port power_on [OpLoad 0x0000 [0x2F; 0x00] 2]).
Defined.

(** ** The stack *)

Lemma u8_add_l (p q : Z) : u8 (u8 p + q) = u8 (p + q).
Proof. unfold u8. apply Zplus_mod_idemp_l. Qed.

Lemma u8_sub_l (p q : Z) : u8 (u8 p - q) = u8 (p - q).
Proof. unfold u8. apply Zminus_mod_idemp_l. Qed.

Lemma u8_pred_neq (p : Z) : 0 <= p < 256 -> u8 (p - 1) <> p.
Proof.
  intros H E. unfold u8 in E.
  destruct (Z.eq_dec p 0) as [->|N]; [discriminate E|].
  rewrite Z.mod_small in E by lia. lia.
Qed.

Lemma u16_add_l (p q : Z) : u16 (u16 p + q) = u16 (p + q).
Proof. unfold u16. apply Zplus_mod_idemp_l. Qed.

Lemma store_same (arr : array) (idx v : Z) : store arr idx v idx = v.
Proof. unfold store. rewrite Z.eqb_refl. reflexivity. Qed.

Lemma store_other (arr : array) (idx v j : Z) : j <> idx -> store arr idx v j = arr j.
Proof. intros H. unfold store. rewrite (proj2 (Z.eqb_neq _ _) H). reflexivity. Qed.

(** A 16-bit word from its two bytes. *)
Lemma lor_shiftl8 (high low : Z) :
  0 <= low < 256 -> Z.lor (Z.shiftl high 8) low = high * 256 + low.
Proof.
  intros H.
  assert (L : Z.land (Z.shiftl high 8) low = 0).
  { apply Z.bits_inj'. intros k Hk.
    rewrite Z.land_spec, Z.bits_0.
    destruct (Z.lt_ge_cases k 8) as [Hlt|Hge].
    - rewrite Z.shiftl_spec_low by assumption. reflexivity.
    - rewrite <- (Z.mod_small low (2 ^ 8)) by (change (2 ^ 8) with 256; lia).
      rewrite Z.mod_pow2_bits_high by lia. apply andb_false_r. }
  pose proof (Z.add_lor_land (Z.shiftl high 8) low) as A.
  rewrite L, shiftl8 in A. rewrite shiftl8. lia.
Qed.

Lemma word_of_bytes (w : Z) :
  0 <= w < 65536 ->
  u16 (Z.lor (Z.shiftl (u8 (Z.land (Z.shiftr w 8) 0xFF)) 8) (u8 (Z.land w 0xFF))) = w.
Proof.
  intros H. rewrite !land_FF, shiftr8.
  assert (Hh : 0 <= w / 256 < 256) by (apply (page_bounds w 0 256); lia).
  pose proof (Z.mod_pos_bound w 256 ltac:(lia)) as Hl.
  rewrite (Z.mod_small (w / 256)) by assumption.
  rewrite !u8_small by assumption.
  rewrite lor_shiftl8 by assumption.
  pose proof (Z.div_mod w 256 ltac:(lia)).
  rewrite u16_small; lia.
Qed.

Lemma memory_write_stack (m : Memory) (sp value : Z) :
  0 <= sp < 256 ->
  memory_write m (STACK_PAGE + sp) value =
  set_memory m (store (memory m) (STACK_PAGE + sp) (u8 value)).
Proof.
  intros H. apply memory_write_plain. unfold STACK_PAGE. lia.
Qed.

Lemma memory_read_stack (m : Memory) (sp : Z) :
  maps_built m -> 0 <= sp < 256 ->
  memory_read m (STACK_PAGE + sp) = memory m (STACK_PAGE + sp).
Proof.
  intros Hm H. apply memory_read_plain; [assumption|]. unfold STACK_PAGE. lia.
Qed.

Lemma cpu_push_byte_unfold (s : Machine) (value : Z) :
  0 <= cpu_sp (cpu s) < 256 ->
  cpu_push_byte s value =
  mkMachine (with_sp (cpu s) (u8 (cpu_sp (cpu s) - 1))) (cycles s)
            (set_memory (mem s)
               (store (memory (mem s)) (STACK_PAGE + cpu_sp (cpu s)) (u8 value))).
Proof.
  intros H. unfold cpu_push_byte. rewrite memory_write_stack by assumption.
  reflexivity.
Qed.

Lemma cpu_pull_byte_unfold (s : Machine) :
  maps_built (mem s) ->
  cpu_pull_byte s =
  (memory (mem s) (STACK_PAGE + u8 (cpu_sp (cpu s) + 1)),
   set_cpu s (with_sp (cpu s) (u8 (cpu_sp (cpu s) + 1)))).
Proof.
  intros Hm. unfold cpu_pull_byte. cbn [mem cpu set_cpu with_sp cpu_sp].
  rewrite memory_read_stack by (assumption || apply u8_range).
  reflexivity.
Qed.

Lemma cpu_push_word_unfold (s : Machine) (value : Z) :
  0 <= cpu_sp (cpu s) < 256 ->
  cpu_push_word s value =
  mkMachine (with_sp (cpu s) (u8 (cpu_sp (cpu s) - 2))) (cycles s)
    (set_memory (mem s)
       (store (store (memory (mem s))
                     (STACK_PAGE + cpu_sp (cpu s))
                     (u8 (Z.land (Z.shiftr (u16 value) 8) 0xFF)))
              (STACK_PAGE + u8 (cpu_sp (cpu s) - 1))
              (u8 (Z.land (u16 value) 0xFF)))).
Proof.
  intros H. unfold cpu_push_word. cbv zeta.
  rewrite (cpu_push_byte_unfold s) by assumption.
  rewrite cpu_push_byte_unfold by (cbn [cpu with_sp cpu_sp]; apply u8_range).
  cbn [cpu mem cycles with_sp cpu_sp].
  rewrite u8_sub_l.
  replace (cpu_sp (cpu s) - 1 - 1) with (cpu_sp (cpu s) - 2) by lia.
  reflexivity.
Qed.

Lemma cpu_pull_word_top (s : Machine) (w : Z) :
  maps_built (mem s) -> 0 <= w < 65536 -> stack_top s w ->
  cpu_pull_word s = (w, set_cpu s (with_sp (cpu s) (u8 (cpu_sp (cpu s) + 2)))).
Proof.
  intros Hm Hw [Hlo Hhi]. unfold cpu_pull_word.
  rewrite cpu_pull_byte_unfold by assumption.
  rewrite cpu_pull_byte_unfold by assumption.
  cbn [mem cpu set_cpu with_sp cpu_sp].
  rewrite u8_add_l. replace (cpu_sp (cpu s) + 1 + 1) with (cpu_sp (cpu s) + 2) by lia.
  rewrite Hlo, Hhi, word_of_bytes by assumption.
  reflexivity.
Qed.

Lemma cpu_push_word_top (s : Machine) (w : Z) :
  0 <= cpu_sp (cpu s) < 256 -> 0 <= w < 65536 ->
  stack_top (cpu_push_word s w) w /\
  u8 (cpu_sp (cpu (cpu_push_word s w)) + 2) = cpu_sp (cpu s).
Proof.
  intros Hs Hw. rewrite cpu_push_word_unfold by assumption.
  unfold stack_top. cbn [cpu mem with_sp cpu_sp set_memory memory].
  rewrite (u16_small w) by assumption.
  assert (E1 : u8 (u8 (cpu_sp (cpu s) - 2) + 1) = u8 (cpu_sp (cpu s) - 1)).
  { rewrite u8_add_l. f_equal. lia. }
  assert (E2 : u8 (u8 (cpu_sp (cpu s) - 2) + 2) = cpu_sp (cpu s)).
  { rewrite u8_add_l. replace (cpu_sp (cpu s) - 2 + 2) with (cpu_sp (cpu s)) by lia.
    apply u8_small. assumption. }
  rewrite E1, E2. repeat split.
  - apply store_same.
  - rewrite store_other, store_same; [reflexivity|].
    intros E. apply Z.add_reg_l in E. symmetry in E.
    exact (u8_pred_neq _ Hs E).
Qed.

Lemma cpu_push_word_u16 (s : Machine) (value : Z) :
  cpu_push_word s (u16 value) = cpu_push_word s value.
Proof.
  unfold cpu_push_word. rewrite (u16_small (u16 value)) by apply u16_range.
  reflexivity.
Qed.

(** Where [cpu_push_word] leaves the two bytes, and the stack pointer. *)
Lemma cpu_push_word_slots (s : Machine) (w : Z) :
  0 <= cpu_sp (cpu s) < 256 -> 0 <= w < 65536 ->
  let s1 := cpu_push_word s w in
  memory (mem s1) (STACK_PAGE + cpu_sp (cpu s)) = Z.shiftr w 8 /\
  memory (mem s1) (STACK_PAGE + u8 (cpu_sp (cpu s) - 1)) = Z.land w 0xFF /\
  cpu_sp (cpu s1) = u8 (cpu_sp (cpu s) - 2) /\
  cycles s1 = cycles s.
Proof.
  intros Hs Hw s1.
  assert (Hhigh : u8 (Z.land (Z.shiftr w 8) 0xFF) = Z.shiftr w 8).
  { rewrite land_FF, shiftr8.
    assert (0 <= w / 256 < 256) by (apply (page_bounds w 0 256); lia).
    rewrite Z.mod_small by assumption. apply u8_small. assumption. }
  assert (Hlow : u8 (Z.land w 0xFF) = Z.land w 0xFF).
  { rewrite land_FF. apply u8_small. apply Z.mod_pos_bound. lia. }
  unfold s1. rewrite cpu_push_word_unfold by assumption.
  cbn [cpu mem cycles with_sp cpu_sp set_memory memory].
  rewrite (u16_small w) by assumption.
  split.
  { rewrite store_other, store_same; [exact Hhigh|].
    intros E. apply Z.add_reg_l in E. symmetry in E. exact (u8_pred_neq _ Hs E). }
  split; [rewrite store_same; exact Hlow|].
  split; reflexivity.
Qed.

Lemma with_sp_restore (r : CPU) (p : Z) : with_sp (with_sp r p) (cpu_sp r) = r.
Proof. destruct r. reflexivity. Qed.

Lemma maps_built_push_word (s : Machine) (w : Z) :
  0 <= cpu_sp (cpu s) < 256 -> maps_built (mem s) -> maps_built (mem (cpu_push_word s w)).
Proof.
  intros Hs Hm. rewrite cpu_push_word_unfold by assumption. exact Hm.
Qed.

(** C7: for every 16-bit word [w] and every stack pointer, wrapping or not,
    [cpu_push_word] stores the high byte at [$0100 + sp] (the first push) and
    the low byte in the slot below it modulo 256 (the second push), and the
    [cpu_pull_word] that follows returns [w] with the stack pointer, and the
    whole register file, as before the push. *)
Theorem push_pull_word (s : Machine) (w : Z) :
  maps_built (mem s) ->
  0 <= cpu_sp (cpu s) < 256 ->
  0 <= w < 65536 ->
  let s1 := cpu_push_word s w in
  memory (mem s1) (STACK_PAGE + cpu_sp (cpu s)) = Z.shiftr w 8 /\
  memory (mem s1) (STACK_PAGE + u8 (cpu_sp (cpu s) - 1)) = Z.land w 0xFF /\
  cpu_sp (cpu s1) = u8 (cpu_sp (cpu s) - 2) /\
  fst (cpu_pull_word s1) = w /\
  cpu_sp (cpu (snd (cpu_pull_word s1))) = cpu_sp (cpu s) /\
  cpu (snd (cpu_pull_word s1)) = cpu s /\
  mem (snd (cpu_pull_word s1)) = mem s1.
Proof.
  intros Hm Hs Hw s1.
  destruct (cpu_push_word_top s w Hs Hw) as [Htop Hsp]. fold s1 in Htop, Hsp.
  destruct (cpu_push_word_slots s w Hs Hw) as (Hhigh & Hlow & Hsp1 & _).
  fold s1 in Hhigh, Hlow, Hsp1.
  assert (Hm1 : maps_built (mem s1)) by (apply maps_built_push_word; assumption).
  rewrite (cpu_pull_word_top s1 w Hm1 Hw Htop). cbn [fst snd set_cpu cpu mem].
  rewrite Hsp.
  split; [exact Hhigh|]. split; [exact Hlow|]. split; [exact Hsp1|].
  split; [reflexivity|]. split; [reflexivity|]. split; [|reflexivity].
  unfold s1. rewrite cpu_push_word_unfold by assumption. cbn [cpu].
  apply with_sp_restore.
Qed.

(** With the stack pointer at 0 both pushes wrap. *)
Lemma push_pull_word_wrapping :
  let s := set_cpu fresh_machine (with_sp (cpu fresh_machine) 0x00) in
  let s1 := cpu_push_word s 0xBEEF in
  memory (mem s1) 0x0100 = 0xBE /\
  memory (mem s1) 0x01FF = 0xEF /\
  cpu_sp (cpu s1) = 0xFE /\
  fst (cpu_pull_word s1) = 0xBEEF /\
  cpu_sp (cpu (snd (cpu_pull_word s1))) = 0x00.
Proof.
  intros s s1.
  destruct (push_pull_word s 0xBEEF
              (maps_current_built _ (memory_init_current power_on))
              ltac:(cbn; lia) ltac:(lia))
    as (H1 & H2 & H3 & H4 & H5 & _).
  repeat split; assumption.
Defined.

(** ** Subroutine calls *)

Lemma cpu_step_jsr (h : Host) (s : Machine) :
  memory_read (mem s) (cpu_pc (cpu s)) = 0x20 ->
  cpu_step h s =
  let address := cpu_get_operand_address s ADDR_ABSOLUTE in
  let s' :=
    if address >=? 0xFF00
    then cpu_emulate_kernal h (cpu_push_word s (cpu_pc (cpu s) + 2)) address
    else let s1 := cpu_push_word s (cpu_pc (cpu s) + 2 - 1) in
         set_cpu s1 (with_pc (cpu s1) address) in
  set_cycles s' (u32 (cycles s' + 6)).
Proof.
  intros H. unfold cpu_step. rewrite H.
  change (opcode_modes 0x20) with ADDR_ABSOLUTE.
  change (opcode_sizes 0x20) with 3.
  change (opcode_cycles 0x20) with 6.
  cbv zeta.
  destruct (cpu_get_operand_address s ADDR_ABSOLUTE >=? 0xFF00) eqn:E;
    unfold cpu_step_switch; cbn [is_case existsb Z.eqb Pos.eqb orb];
    rewrite E; reflexivity.
Qed.

Lemma cpu_step_rts (h : Host) (s : Machine) :
  memory_read (mem s) (cpu_pc (cpu s)) = 0x60 ->
  cpu_step h s =
  let s' := snd (cpu_pull_word s) in
  let s' := set_cpu s' (with_pc (cpu s') (u16 (fst (cpu_pull_word s) + 1))) in
  set_cycles s' (u32 (cycles s' + 6)).
Proof.
  intros H. unfold cpu_step. rewrite H.
  change (opcode_modes 0x60) with ADDR_IMPLIED.
  change (opcode_sizes 0x60) with 1.
  change (opcode_cycles 0x60) with 6.
  cbv zeta.
  unfold cpu_step_switch; cbn [is_case existsb Z.eqb Pos.eqb orb].
  destruct (cpu_pull_word s) as [w s']. reflexivity.
Qed.

(** The handler changes at most [cpu.a] before it returns through the word
    on the stack. *)
Lemma cpu_emulate_kernal_returns (h : Host) (s : Machine) (address w : Z) :
  maps_built (mem s) -> 0 <= w < 65536 -> stack_top s w ->
  let s' := cpu_emulate_kernal h s address in
  cpu_pc (cpu s') = u16 (w + 1) /\
  cpu_sp (cpu s') = u8 (cpu_sp (cpu s) + 2) /\
  mem s' = mem s /\
  cycles s' = cycles s.
Proof.
  intros Hm Hw Htop. unfold cpu_emulate_kernal. cbv zeta.
  repeat match goal with
         | |- context [if ?t then _ else _] => destruct t
         end;
    match goal with
    | |- context [cpu_pull_word ?t] =>
        rewrite (cpu_pull_word_top t w Hm Hw Htop)
    end; repeat split; reflexivity.
Qed.

(** C9: a [JSR] at [p] whose target is at or above [$FF00] pushes [p + 2],
    and the handler's pull ends the step at [p + 3] with the stack pointer
    as before the step; a [JSR] to a lower target pushes [p + 1] and jumps,
    and the [RTS] it reaches resumes at [p + 2], the stack pointer again as
    before. Addresses are 16-bit: the sums wrap at [$10000]. *)
Theorem jsr_return_address (h h' : Host) (s : Machine) :
  maps_built (mem s) ->
  0 <= cpu_sp (cpu s) < 256 ->
  memory_read (mem s) (cpu_pc (cpu s)) = 0x20 ->
  let p := cpu_pc (cpu s) in
  let sp := cpu_sp (cpu s) in
  let target := cpu_get_operand_address s ADDR_ABSOLUTE in
  let s1 := cpu_step h s in
  (0xFF00 <= target ->
   memory (mem s1) (STACK_PAGE + sp) = Z.shiftr (u16 (p + 2)) 8 /\
   memory (mem s1) (STACK_PAGE + u8 (sp - 1)) = Z.land (u16 (p + 2)) 0xFF /\
   cpu_pc (cpu s1) = u16 (p + 3) /\
   cpu_sp (cpu s1) = sp) /\
  (target < 0xFF00 ->
   memory (mem s1) (STACK_PAGE + sp) = Z.shiftr (u16 (p + 1)) 8 /\
   memory (mem s1) (STACK_PAGE + u8 (sp - 1)) = Z.land (u16 (p + 1)) 0xFF /\
   cpu_pc (cpu s1) = target /\
   cpu_sp (cpu s1) = u8 (sp - 2) /\
   (memory_read (mem s1) target = 0x60 ->
    let s2 := cpu_step h' s1 in
    cpu_pc (cpu s2) = u16 (p + 2) /\ cpu_sp (cpu s2) = sp)).
Proof.
  intros Hm Hs Hop p sp target s1.
  unfold s1. rewrite (cpu_step_jsr h s Hop). cbv zeta. fold p target.
  split; intros Ht.
  - rewrite (proj2 (Z.geb_le _ _)) by assumption.
    rewrite <- cpu_push_word_u16.
    set (w := u16 (p + 2)).
    assert (Hw : 0 <= w < 65536) by apply u16_range.
    set (t := cpu_push_word s w).
    destruct (cpu_push_word_top s w Hs Hw) as [Htop Hsp]. fold t in Htop, Hsp.
    destruct (cpu_push_word_slots s w Hs Hw) as (Hhigh & Hlow & _ & _).
    fold t in Hhigh, Hlow.
    assert (Hmt : maps_built (mem t)) by (apply maps_built_push_word; assumption).
    destruct (cpu_emulate_kernal_returns h t target w Hmt Hw Htop)
      as (Hpc & Hsp' & Hmem & _).
    cbn [set_cycles cpu mem]. rewrite Hmem, Hpc, Hsp', Hsp.
    repeat split; try assumption.
    unfold w. rewrite u16_add_l. f_equal. lia.
  - rewrite Z.geb_leb, (proj2 (Z.leb_gt _ _)) by lia.
    replace (p + 2 - 1) with (p + 1) by lia.
    rewrite <- cpu_push_word_u16.
    set (w := u16 (p + 1)).
    assert (Hw : 0 <= w < 65536) by apply u16_range.
    set (t := cpu_push_word s w).
    destruct (cpu_push_word_top s w Hs Hw) as [Htop Hsp]. fold t in Htop, Hsp.
    destruct (cpu_push_word_slots s w Hs Hw) as (Hhigh & Hlow & Hspt & _).
    fold t in Hhigh, Hlow, Hspt.
    assert (Hmt : maps_built (mem t)) by (apply maps_built_push_word; assumption).
    set (s1' := set_cycles _ _).
    assert (Htop' : stack_top s1' w) by exact Htop.
    assert (Hmt' : maps_built (mem s1')) by exact Hmt.
    split; [exact Hhigh|]. split; [exact Hlow|]. split; [reflexivity|].
    split; [exact Hspt|].
    intros Hrts.
    rewrite (cpu_step_rts h' s1') by exact Hrts.
    rewrite (cpu_pull_word_top s1' w Hmt' Hw Htop').
    cbn [fst snd set_cycles set_cpu cpu mem with_pc with_sp cpu_pc cpu_sp].
    split.
    + unfold w. rewrite u16_add_l. f_equal. lia.
    + exact Hsp.
Qed.

Lemma jsr_return_address_examples :
  (let s1 := cpu_step quiet chrout_call in
   memory (mem s1) 0x01FD = 0x08 /\
   memory (mem s1) 0x01FC = 0x02 /\
   cpu_pc (cpu s1) = 0x0803 /\
   cpu_sp (cpu s1) = 0xFD) /\
  (let s1 := cpu_step quiet jsr_rts_call in
   let s2 := cpu_step quiet s1 in
   memory (mem s1) 0x01FD = 0xC0 /\
   memory (mem s1) 0x01FC = 0x01 /\
   cpu_pc (cpu s1) = 0xC010 /\
   cpu_sp (cpu s1) = 0xFB /\
   cpu_pc (cpu s2) = 0xC002 /\
   cpu_sp (cpu s2) = 0xFD).
Proof.
  split.
  - assert (Hm : maps_built (mem chrout_call))
      by exact (maps_current_built _ (memory_init_current power_on)).
    assert (Hs : 0 <= cpu_sp (cpu chrout_call) < 256)
      by closed_bounds.
    assert (Hop : memory_read (mem chrout_call) (cpu_pc (cpu chrout_call)) = 0x20)
      by (vm_compute; reflexivity).
    destruct (jsr_return_address quiet quiet chrout_call Hm Hs Hop) as [Htrap _].
    exact (Htrap ltac:(closed_bounds)).
  - assert (Hm : maps_built (mem jsr_rts_call))
      by exact (maps_current_built _ (memory_init_current power_on)).
    assert (Hs : 0 <= cpu_sp (cpu jsr_rts_call) < 256)
      by closed_bounds.
    assert (Hop : memory_read (mem jsr_rts_call) (cpu_pc (cpu jsr_rts_call)) = 0x20)
      by (vm_compute; reflexivity).
    destruct (jsr_return_address quiet quiet jsr_rts_call Hm Hs Hop) as [_ Hcall].
    destruct (Hcall ltac:(closed_bounds)) as (H1 & H2 & H3 & H4 & Hrts).
    destruct (Hrts ltac:(vm_compute; reflexivity)) as (H5 & H6).
    repeat split; assumption.
Defined.

(** ** End-to-end scenarios *)

(** C1 (E2E-2 on the code): from [$C000] with [sp = 0xFD], the [JSR] step
    leaves [$C0] and [$01] as the top two stack bytes, the address [p + 1] of
    the operand's low byte, not [$C0], [$02]; the [RTS] step resumes at
    [$C002], the operand's high byte, with [sp = 0xFD]; the third step runs
    that byte [0xC0] as a one-byte opcode and ends at [$C003], where the next
    opcode is [0xEA]. *)
Theorem jsr_rts_end_to_end (m0 : Memory) (r : CPU) (k : Z) (hosts : nat -> Host) :
  let s := boot (jsr_rts_memory m0) r k 0xC000 in
  let s1 := cpu_steps 1 hosts s in
  let s2 := cpu_steps 2 hosts s in
  let s3 := cpu_steps 3 hosts s in
  cpu_sp (cpu s) = 0xFD /\
  memory (mem s1) 0x01FD = 0xC0 /\
  memory (mem s1) 0x01FC = 0x01 /\
  cpu_pc (cpu s1) = 0xC010 /\
  cpu_sp (cpu s1) = 0xFB /\
  cpu_pc (cpu s2) = 0xC002 /\
  cpu_sp (cpu s2) = 0xFD /\
  memory_read (mem s2) 0xC002 = 0xC0 /\
  cpu_pc (cpu s3) = 0xC003 /\
  cpu_sp (cpu s3) = 0xFD /\
  memory_read (mem s3) (cpu_pc (cpu s3)) = 0xEA.
Proof. vm_compute. repeat split. Qed.

(** C3, as stated, fails: after four steps the [EA] at [$0808] has been
    executed as well and [pc] is [$0809]. *)
Lemma cmp_beq_not_after_four_steps :
  ~ cmp_beq_outcome
      (cpu_steps 4 (fun _ => quiet) (cmp_beq_machine power_on (cpu fresh_machine) 0)).
Proof.
  intros (_ & _ & _ & _ & Hpc). vm_compute in Hpc. discriminate.
Qed.

(** C3 (amended): with the program at [$0800] and [pc = $0800], after three
    steps [a = 0x42], [Z = 1], [C = 1], [N = 0] and [pc = $0808], the branch
    taken over the two [00] bytes; the fourth step executes the [EA] there
    and leaves [pc = $0809], the accumulator and the flags unchanged. *)
Theorem cmp_beq_after_three_steps (m0 : Memory) (r : CPU) (k : Z) (hosts : nat -> Host) :
  let s3 := cpu_steps 3 hosts (cmp_beq_machine m0 r k) in
  let s4 := cpu_steps 4 hosts (cmp_beq_machine m0 r k) in
  cmp_beq_outcome s3 /\
  memory_read (mem s3) (cpu_pc (cpu s3)) = 0xEA /\
  cpu_a (cpu s4) = 0x42 /\
  cpu_z (cpu s4) = 1 /\
  cpu_c (cpu s4) = 1 /\
  cpu_n (cpu s4) = 0 /\
  cpu_pc (cpu s4) = 0x0809.
Proof. vm_compute. repeat split. Qed.

Lemma cpu_step_jmp_indirect (h : Host) (s : Machine) :
  memory_read (mem s) (cpu_pc (cpu s)) = 0x6C ->
  cpu_pc (cpu (cpu_step h s)) = cpu_get_operand_address s ADDR_INDIRECT.
Proof.
  intros H. unfold cpu_step. rewrite H.
  change (opcode_modes 0x6C) with ADDR_INDIRECT.
  reflexivity.
Qed.

(** C6: a [JMP] indirect whose pointer has low byte [$FF] takes the high
    byte of its target from [pointer & 0xFF00], the start of the same page,
    and the low byte from the pointer; with [$20FF = 0x34], [$2100 = 0x12],
    [$2000 = 0xCD], [JMP ($20FF)] at [$0800] ends with [pc = 0xCD34]. *)
Theorem jmp_indirect_page_wrap :
  (forall (h : Host) (s : Machine),
     let read := memory_read (mem s) in
     let pc := cpu_pc (cpu s) in
     let pointer := u16 (Z.lor (read (pc + 1)) (Z.shiftl (read (pc + 2)) 8)) in
     read pc = 0x6C ->
     Z.land pointer 0xFF = 0xFF ->
     cpu_pc (cpu (cpu_step h s)) =
     u16 (Z.lor (read pointer) (Z.shiftl (read (Z.land pointer 0xFF00)) 8))) /\
  (forall (m0 : Memory) (r : CPU) (k : Z) (h : Host),
     cpu_pc (cpu (cpu_step h (jmp_indirect_machine m0 r k))) = 0xCD34).
Proof.
  split.
  - intros h s read pc pointer Hop Hlow.
    rewrite (cpu_step_jmp_indirect h s Hop).
    unfold cpu_get_operand_address. fold pc read pointer.
    rewrite Hlow. reflexivity.
  - intros m0 r k h. vm_compute. reflexivity.
Qed.

Lemma jmp_indirect_page_wrap_20FF :
  let s := jmp_indirect_machine power_on (cpu fresh_machine) 0 in
  memory_read (mem s) 0x0800 = 0x6C /\
  memory_read (mem s) 0x2000 = 0xCD /\
  memory_read (mem s) 0x2100 = 0x12 /\
  cpu_pc (cpu (cpu_step quiet s)) = 0xCD34.
Proof.
  intros s.
  assert (Hop : memory_read (mem s) (cpu_pc (cpu s)) = 0x6C) by (vm_compute; reflexivity).
  split; [exact Hop|].
  split; [vm_compute; reflexivity|].
  split; [vm_compute; reflexivity|].
  exact (proj1 jmp_indirect_page_wrap quiet s Hop ltac:(vm_compute; reflexivity)).
Defined.

(** ** The cycle counter *)

Lemma assigned_cases {A : Type} (rows : list (Z * A)) :
  forall dflt opcode,
    assigned rows dflt opcode = dflt \/ In (assigned rows dflt opcode) (map snd rows).
Proof.
  induction rows as [|[op row] rest IH]; intros dflt opcode; cbn [assigned map snd In].
  - left. reflexivity.
  - destruct (IH (if opcode =? op then row else dflt) opcode) as [E|E].
    + rewrite E. destruct (opcode =? op); [right; left|left]; reflexivity.
    + right. right. exact E.
Qed.

(** Every entry of [opcode_cycles] lies between 2 and 6. *)
Lemma opcode_cycles_bounds (opcode : Z) : 2 <= opcode_cycles opcode <= 6.
Proof.
  unfold opcode_cycles.
  destruct (assigned_cases (map (fun r => (fst r, snd (fst (snd r)))) opcode_rows) 2 opcode)
    as [E|E].
  - rewrite E. lia.
  - revert E. generalize (assigned (map (fun r => (fst r, snd (fst (snd r)))) opcode_rows) 2 opcode).
    intros c Hc.
    assert (F : Forall (fun c => 2 <= c <= 6)
                  (map snd (map (fun r => (fst r, snd (fst (snd r)))) opcode_rows))).
    { cbn. repeat constructor; lia. }
    rewrite Forall_forall in F. exact (F c Hc).
Qed.

Lemma cycles_pull_word (s : Machine) : cycles (snd (cpu_pull_word s)) = cycles s.
Proof. reflexivity. Qed.

Section CycleCounter.

Variable h : Host.

Lemma cycles_emulate_kernal (s : Machine) (address : Z) :
  cycles (cpu_emulate_kernal h s address) = cycles s.
Proof.
  unfold cpu_emulate_kernal. cbv zeta.
  repeat match goal with
         | |- context [if ?t then _ else _] => destruct t
         end;
    match goal with
    | |- context [cpu_pull_word ?t] =>
        pose proof (cycles_pull_word t) as E; destruct (cpu_pull_word t); exact E
    end.
Qed.

Lemma cycles_branch (s : Machine) (taken : bool) (address size : Z) :
  cycles (fst (branch s taken address size)) = cycles s.
Proof. destruct taken; reflexivity. Qed.

(** No case of the switch touches the counter. *)
Lemma cycles_step_switch (s : Machine) (opcode address size : Z) :
  cycles (fst (cpu_step_switch h s opcode address size)) = cycles s.
Proof.
  unfold cpu_step_switch. cbv zeta.
  repeat match goal with
         | |- context [if is_case ?o ?l then _ else _] => destruct (is_case o l)
         end;
    try reflexivity; try apply cycles_branch.
  - destruct (address >=? 0xFF00); cbn [fst].
    + rewrite cycles_emulate_kernal. reflexivity.
    + reflexivity.
  - destruct (opcode =? 0x20); cbn [fst]; [apply cycles_emulate_kernal|reflexivity].
Qed.

(** A step adds the table's cost of the opcode at [pc], modulo [2^32]. *)
Lemma cycles_step (s : Machine) :
  cycles (cpu_step h s) =
  u32 (cycles s + opcode_cycles (memory_read (mem s) (cpu_pc (cpu s)))).
Proof.
  unfold cpu_step. cbv zeta.
  pose proof (cycles_step_switch s (memory_read (mem s) (cpu_pc (cpu s)))
                (cpu_get_operand_address s
                   (opcode_modes (memory_read (mem s) (cpu_pc (cpu s)))))
                (opcode_sizes (memory_read (mem s) (cpu_pc (cpu s))))) as E.
  destruct (cpu_step_switch _ _ _ _ _) as [s' size]. cbn [fst] in E.
  destruct (size >? 0); cbn [set_cycles cycles set_cpu]; rewrite E; reflexivity.
Qed.

End CycleCounter.

Lemma cpu_execute_loop_terminates (target : Z) :
  target + 6 <= 4294967296 ->
  forall (fuel : nat) (hosts : nat -> Host) (s : Machine),
    0 <= cycles s ->
    target - cycles s <= Z.of_nat fuel ->
    exists steps s',
      cpu_execute_loop fuel hosts target s = Some s' /\
      s' = cpu_steps steps hosts s /\
      target <= cycles s' /\
      (steps = O \/ last_step_crosses target s').
Proof.
  intros Ht. induction fuel as [|fuel IH]; intros hosts s Hs Hf.
  - exists O, s. cbn [cpu_execute_loop cpu_steps].
    rewrite (proj2 (Z.ltb_ge _ _)) by lia.
    repeat split; [lia|left; reflexivity].
  - cbn [cpu_execute_loop].
    destruct (Z.ltb_spec (cycles s) target) as [Hlt|Hge].
    + pose proof (cycles_step (hosts O) s) as Hc.
      pose proof (opcode_cycles_bounds (memory_read (mem s) (cpu_pc (cpu s)))) as Hb.
      rewrite u32_small in Hc by lia.
      destruct (IH (fun k => hosts (S k)) (cpu_step (hosts O) s)) as (steps & s' & He & Hs' & Hcy & Hlast);
        [lia|lia|].
      exists (S steps), s'. cbn [cpu_steps].
      split; [exact He|]. split; [exact Hs'|]. split; [exact Hcy|].
      right. destruct Hlast as [->|Hlast]; [|exact Hlast].
      cbn [cpu_steps] in Hs'. subst s'.
      exists (hosts O), s. repeat split; assumption.
    + exists O, s. cbn [cpu_steps]. repeat split; [lia|left; reflexivity].
Qed.

Lemma last_step_overshoot (target : Z) (s' : Machine) :
  last_step_crosses target s' -> cycles s' < target + 6.
Proof.
  intros (h & t & _ & Hlt & Hc).
  pose proof (opcode_cycles_bounds (memory_read (mem t) (cpu_pc (cpu t)))). lia.
Qed.

Lemma spin_step (h : Host) (k : Z) :
  cpu_step h (set_cycles spin_machine k) = set_cycles spin_machine (u32 (k + 2)).
Proof. reflexivity. Qed.

Lemma spin_loop (fuel : nat) :
  forall (hosts : nat -> Host) (k : Z),
    0 <= k < 4294967296 -> Z.even k = true ->
    cpu_execute_loop fuel hosts 0xFFFFFFFF (set_cycles spin_machine k) = None.
Proof.
  induction fuel as [|fuel IH]; intros hosts k Hk He;
    cbn [cpu_execute_loop set_cycles cycles];
    assert (Hlt : k < 0xFFFFFFFF)
      by (destruct (Z.eq_dec k 0xFFFFFFFF) as [->|]; [discriminate He|lia]);
    rewrite (proj2 (Z.ltb_lt _ _) Hlt).
  - reflexivity.
  - change (mkMachine (cpu spin_machine) k (mem spin_machine))
      with (set_cycles spin_machine k).
    rewrite spin_step. apply IH.
    + apply u32_range.
    + unfold u32. destruct (Z.eq_dec (k + 2) 4294967296) as [E|N].
      * rewrite E. reflexivity.
      * rewrite Z.mod_small by lia. rewrite Z.even_add, He. reflexivity.
Qed.

(** C8, as stated, fails: from a counter of 0, [cpu_execute(0xFFFFFFFF)] on
    the two-cycle loop never reaches the odd target; the counter wraps from
    [0xFFFFFFFE] to 0 and the loop goes on. And from a counter of 6 the
    target itself wraps, to 5, and the same call returns at once, the
    counter not advanced at all. *)
Lemma cpu_execute_spins :
  runs_forever (fun _ => quiet) spin_machine 0xFFFFFFFF /\
  cpu_execute 0 (fun _ => quiet) (set_cycles spin_machine 6) 0xFFFFFFFF =
  Some (set_cycles spin_machine 6).
Proof.
  split; [|reflexivity].
  intros fuel. unfold cpu_execute.
  change (u32 (cycles spin_machine + u32 0xFFFFFFFF)) with 0xFFFFFFFF.
  change spin_machine with (set_cycles spin_machine 0) at 1.
  apply spin_loop; [lia|reflexivity].
Qed.

(** C8 (amended): every entry of [opcode_cycles] is at least 2 (and at most
    6), so a step strictly increases the counter as long as it does not wrap;
    when [cycles + n] stays at least 6 below [2^32], [cpu_execute(n)]
    terminates: it returns after finitely many [cpu_step] calls with the
    counter advanced by at least [n], and either no step was needed or the
    last step started below the target and added the cost of its one
    instruction, so the overshoot is less than that cost. *)
Theorem cpu_execute_terminates (hosts : nat -> Host) (s : Machine) (n : Z) :
  0 <= cycles s ->
  0 <= n ->
  cycles s + n + 6 <= 4294967296 ->
  (forall opcode, 2 <= opcode_cycles opcode <= 6) /\
  exists fuel steps s',
    cpu_execute fuel hosts s n = Some s' /\
    s' = cpu_steps steps hosts s /\
    cycles s + n <= cycles s' < cycles s + n + 6 /\
    (steps = O \/ last_step_crosses (cycles s + n) s').
Proof.
  intros Hs Hn Hw. split; [exact opcode_cycles_bounds|].
  unfold cpu_execute. cbv zeta.
  rewrite (u32_small n), (u32_small (cycles s + n)) by lia.
  destruct (cpu_execute_loop_terminates (cycles s + n) Hw
              (Z.to_nat n) hosts s Hs ltac:(lia))
    as (steps & s' & He & Hs' & Hcy & Hlast).
  exists (Z.to_nat n), steps, s'.
  split; [exact He|]. split; [exact Hs'|]. split; [|exact Hlast].
  split; [exact Hcy|].
  destruct Hlast as [->|Hlast].
  - cbn [cpu_steps] in Hs'. subst s'. lia.
  - apply last_step_overshoot. exact Hlast.
Qed.

Lemma cpu_execute_terminates_on_spin :
  exists fuel steps s',
    cpu_execute fuel (fun _ => quiet) spin_machine 7 = Some s' /\
    s' = cpu_steps steps (fun _ => quiet) spin_machine /\
    7 <= cycles s' < 13.
Proof.
  destruct (cpu_execute_terminates (fun _ => quiet) spin_machine 7
              ltac:(closed_bounds) ltac:(closed_bounds) ltac:(closed_bounds))
    as (_ & fuel & steps & s' & He & Hs' & Hcy & _).
  exists fuel, steps, s'. repeat split; assumption || apply Hcy.
Defined.

(** ** The vector stores of memory_init *)


(** * Further properties of the memory subsystem *)

(** ** The read contract *)

Lemma memory_read_current (m : Memory) (address : Z) :
  maps_current m -> 0 <= address < 65536 ->
  memory_read m address = visible m address.
Proof.
  intros Hm H.
  pose proof (page_bounds address 0 256 ltac:(lia)) as Hp.
  rewrite memory_read_unfold by assumption.
  rewrite Hm, update_memory_maps_page by assumption.
  unfold visible, page_source, in_io, in_kernal, in_basic,
    IO_REGION_START, IO_REGION_END, KERNAL_ROM_START, KERNAL_ROM_END,
    BASIC_ROM_START, BASIC_ROM_END.
  pose proof (Z.div_mod address 256 ltac:(lia)) as Hd.
  pose proof (Z.mod_pos_bound address 256 ltac:(lia)) as Hr.
  destruct (io_enabled m), (char_rom_enabled m), (kernal_rom_enabled m),
    (basic_rom_enabled m); cbn [negb andb];
    zbool; cbn [andb]; unfold deref; cbn [bank base];
    rewrite ?split_address, ?split_address_from; reflexivity.
Qed.

(** X2: with a current page dispatch table, [memory_read] returns what the
    banking flags expose: in [$D000..$DFFF] the RAM byte when I/O is on, the
    character ROM when I/O is off and the character ROM on, RAM otherwise;
    in [$E000..$FFFF] and [$A000..$BFFF] the KERNAL and BASIC images while
    enabled; RAM everywhere else. *)
Theorem memory_read_contract (m : Memory) (address : Z) :
  maps_current m ->
  0 <= address < 65536 ->
  memory_read m address =
  if (0xD000 <=? address) && (address <=? 0xDFFF) then
    if io_enabled m then memory m address
    else if char_rom_enabled m then char_rom m (address - 0xD000)
    else memory m address
  else if (0xE000 <=? address) && kernal_rom_enabled m
  then kernal_rom m (address - 0xE000)
  else if (0xA000 <=? address) && (address <=? 0xBFFF) && basic_rom_enabled m
  then basic_rom m (address - 0xA000)
  else memory m address.
Proof.
  intros Hm H. rewrite memory_read_current by assumption.
  unfold visible, in_io, in_kernal, in_basic,
    IO_REGION_START, IO_REGION_END, KERNAL_ROM_START, KERNAL_ROM_END,
    BASIC_ROM_START, BASIC_ROM_END.
  zbool.
Qed.

Lemma memory_read_contract_char_rom :
  let m := memory_write (memory_init power_on) 0x0001 0x33 in
  io_enabled m = false /\
  char_rom_enabled m = true /\
  memory_read m 0xD123 = char_rom m 0x0123.
Proof.
  intros m.
  assert (Hm : maps_current m).
  { apply memory_write_port_rebuilds. vm_compute. discriminate. }
  split; [reflexivity|]. split; [reflexivity|].
  exact (memory_read_contract m 0xD123 Hm ltac:(lia)).
Defined.

(** ** The write contract *)

Lemma memory_write_cases (m : Memory) (address value : Z) :
  0 <= address < 65536 -> address <> 0x0001 ->
  memory_write m address value =
  if write_dropped m address then m
  else set_memory m (store (memory m) address (u8 value)).
Proof.
  intros H N. unfold memory_write. rewrite (u16_small address) by assumption.
  rewrite (proj2 (Z.eqb_neq _ _) N).
  unfold write_dropped, in_io, in_kernal, in_basic. rewrite !Z.geb_leb.
  destruct (basic_rom_enabled m), (kernal_rom_enabled m), (io_enabled m),
    (char_rom_enabled m),
    (BASIC_ROM_START <=? address), (address <=? BASIC_ROM_END),
    (KERNAL_ROM_START <=? address), (address <=? KERNAL_ROM_END),
    (IO_REGION_START <=? address), (address <=? IO_REGION_END);
    reflexivity.
Qed.

Lemma maps_built_memory_write (m : Memory) (address value : Z) :
  maps_built m -> maps_built (memory_write m address value).
Proof.
  intros Hm. destruct (Z.eq_dec (u16 address) 0x0001) as [E|N].
  - rewrite <- memory_write_u16, E, memory_write_port. cbv zeta.
    destruct (negb _); [|exact Hm].
    apply maps_current_built, update_memory_maps_current.
  - destruct (memory_write_elsewhere m address value N) as (_ & _ & _ & _ & _ & Hmap).
    destruct Hm as [m0 Hm0]. exists m0. intros page Hp. rewrite Hmap. apply Hm0, Hp.
Qed.

(** A store into RAM is not seen at any other address, whatever the banking. *)
Lemma memory_read_store_other (m : Memory) (address value other : Z) :
  maps_built m -> 0 <= other < 65536 -> other <> address ->
  memory_read (set_memory m (store (memory m) address value)) other =
  memory_read m other.
Proof.
  intros [m0 Hm] H N.
  pose proof (page_bounds other 0 256 ltac:(lia)) as Hp.
  rewrite !memory_read_unfold by assumption.
  cbn [io_enabled set_memory memory_read_map memory].
  destruct ((0xD0 <=? other / 256) && (other / 256 <=? 0xDF) && io_enabled m).
  - apply store_other. assumption.
  - rewrite Hm, update_memory_maps_page by assumption.
    unfold page_source.
    repeat match goal with
           | |- context [if ?t then _ else _] => destruct t
           end;
      unfold deref; cbn [bank base set_memory memory basic_rom kernal_rom char_rom];
      try reflexivity.
    rewrite split_address. apply store_other. assumption.
Qed.

Lemma maps_current_set_memory (m : Memory) (ram : array) :
  maps_current m -> maps_current (set_memory m ram).
Proof. intros H. exact (maps_current_same_flags m _ eq_refl eq_refl eq_refl eq_refl eq_refl H). Qed.

(** X3: with a current table, a write to any address but the port either is
    dropped, exactly where an enabled ROM (or the character ROM with I/O
    off) covers the address, and the read is as before, or reads back as the
    byte written; a write to the port [$0001] always reads back. *)
Theorem memory_write_read_back (m : Memory) (address value : Z) :
  maps_current m ->
  0 <= address < 65536 ->
  (address <> 0x0001 ->
   memory_read (memory_write m address value) address =
   if write_dropped m address then memory_read m address else u8 value) /\
  memory_read (memory_write m 0x0001 value) 0x0001 = u8 value.
Proof.
  intros Hm H. split.
  - intros N. rewrite memory_write_cases by assumption.
    destruct (write_dropped m address) eqn:D; [reflexivity|].
    rewrite memory_read_current by (assumption || apply maps_current_set_memory, Hm).
    revert D. unfold write_dropped, visible.
    cbn [io_enabled char_rom_enabled kernal_rom_enabled basic_rom_enabled
         set_memory memory].
    destruct (in_io address), (in_kernal address), (in_basic address),
      (io_enabled m), (char_rom_enabled m), (kernal_rom_enabled m),
      (basic_rom_enabled m); cbn [andb orb negb]; intros D;
      try discriminate D; apply store_same.
  - rewrite memory_read_plain.
    + apply memory_write_port_byte.
    + apply maps_built_memory_write, maps_current_built, Hm.
    + lia.
Qed.

Lemma memory_write_read_back_examples :
  let m := memory_init power_on in
  memory_read (memory_write m 0xD020 0x10E) 0xD020 = 0x0E /\
  memory_read (memory_write m 0xE000 0x55) 0xE000 = memory_read m 0xE000 /\
  memory_read (memory_write m 0x0001 0x35) 0x0001 = 0x35.
Proof.
  intros m.
  destruct (memory_write_read_back m 0xD020 0x10E (memory_init_current power_on) ltac:(lia))
    as [H1 H3'].
  destruct (memory_write_read_back m 0xE000 0x55 (memory_init_current power_on) ltac:(lia))
    as [H2 _].
  destruct (memory_write_read_back m 0x0001 0x35 (memory_init_current power_on) ltac:(lia))
    as [_ H3].
  split; [exact (H1 ltac:(lia))|]. split; [exact (H2 ltac:(lia))|exact H3].
Defined.

(** X4: a write to any address but the port leaves the byte read at every
    other address as it was, in every banking configuration, the table
    current or stale. *)
Theorem memory_write_frame (m : Memory) (address value other : Z) :
  maps_built m ->
  0 <= address < 65536 -> address <> 0x0001 ->
  0 <= other < 65536 -> other <> address ->
  memory_read (memory_write m address value) other = memory_read m other.
Proof.
  intros Hm H N Ho No. rewrite memory_write_cases by assumption.
  destruct (write_dropped m address); [reflexivity|].
  apply memory_read_store_other; assumption.
Qed.

Lemma maps_built_memory_load (m : Memory) (address : Z) (data : list Z) (length : Z) :
  maps_built m -> maps_built (memory_load m address data length).
Proof. intros H. exact H. Qed.

Lemma maps_built_stale : maps_built stale_memory.
Proof.
  unfold stale_memory.
  apply maps_built_memory_write, maps_built_memory_load, maps_built_memory_write.
  exact (maps_current_built _ (memory_init_current power_on)).
Qed.

Lemma memory_write_frame_stale :
  memory_read (memory_write stale_memory 0xC000 0x42) 0xA000 =
  memory_read stale_memory 0xA000.
Proof.
  exact (memory_write_frame stale_memory 0xC000 0x42 0xA000 maps_built_stale
           ltac:(lia) ltac:(lia) ltac:(lia) ltac:(lia)).
Defined.

(** ** What no run changes *)

Lemma memory_write_keeps_roms (m : Memory) (address value : Z) :
  let m' := memory_write m address value in
  basic_rom m' = basic_rom m /\ kernal_rom m' = kernal_rom m /\ char_rom m' = char_rom m.
Proof.
  cbv zeta. unfold memory_write.
  repeat match goal with
         | |- context [if ?t then _ else _] => destruct t
         end; repeat split; reflexivity.
Qed.

(** X5: [memory_read], [memory_write] and [memory_load], in any order and
    with any arguments, never change a byte of the BASIC, KERNAL or
    character ROM image, and leave an initialised dispatch table
    initialised. *)
Theorem run_keeps_roms (ops : list MemOp) (m : Memory) :
  maps_built m ->
  basic_rom (run_ops ops m) = basic_rom m /\
  kernal_rom (run_ops ops m) = kernal_rom m /\
  char_rom (run_ops ops m) = char_rom m /\
  maps_built (run_ops ops m).
Proof.
  revert m. induction ops as [|op ops IH]; intros m Hm.
  - repeat split; (reflexivity || exact Hm).
  - unfold run_ops. cbn [fold_left]. fold (run_ops ops (apply_op m op)).
    assert (Hop : basic_rom (apply_op m op) = basic_rom m /\
                  kernal_rom (apply_op m op) = kernal_rom m /\
                  char_rom (apply_op m op) = char_rom m /\
                  maps_built (apply_op m op)).
    { destruct op as [address|address value|address data length]; cbn [apply_op].
      - repeat split; (reflexivity || exact Hm).
      - destruct (memory_write_keeps_roms m address value) as (Hb & Hk & Hc).
        repeat split; try assumption. apply maps_built_memory_write, Hm.
      - repeat split; (reflexivity || exact Hm). }
    destruct Hop as (Hb & Hk & Hc & Hm').
    destruct (IH _ Hm') as (Hb' & Hk' & Hc' & Hm'').
    rewrite Hb', Hk', Hc', Hb, Hk, Hc. repeat split; (reflexivity || exact Hm'').
Qed.

Lemma run_keeps_roms_example :
  let ops := [OpWrite 0xA000 0x00; OpLoad 0x0000 [0x2F; 0x00] 2;
              OpWrite 0x0001 0x00; OpWrite 0xE000 0x12] in
  basic_rom (run_ops ops (memory_init power_on)) = basic_rom (memory_init power_on) /\
  kernal_rom (run_ops ops (memory_init power_on)) = kernal_rom (memory_init power_on).
Proof.
  intros ops.
  destruct (run_keeps_roms ops (memory_init power_on)
              (maps_current_built _ (memory_init_current power_on)))
    as (Hb & Hk & _).
  split; assumption.
Defined.

(** ** Bytes *)

Lemma bytes_upto_store (arr : array) (size idx v : Z) :
  bytes_upto arr size -> byte v -> bytes_upto (store arr idx v) size.
Proof.
  intros H Hv j Hj. unfold store. destruct (j =? idx); [exact Hv|exact (H j Hj)].
Qed.

Lemma bytes_upto_memset (arr : array) (size v n : Z) :
  byte v -> size <= n -> bytes_upto (memset arr v n) size.
Proof.
  intros Hv Hn j Hj. unfold memset. zbool. exact Hv.
Qed.

Lemma byte_nth (data : list Z) (k : nat) : Forall byte data -> byte (nth k data 0).
Proof.
  intros H. destruct (Nat.lt_ge_cases k (List.length data)) as [L|G].
  - rewrite Forall_forall in H. apply H, nth_In, L.
  - rewrite nth_overflow by assumption. unfold byte. lia.
Qed.

Lemma bytes_upto_memcpy (arr : array) (size start : Z) (data : list Z) (n : Z) :
  bytes_upto arr size -> Forall byte data -> bytes_upto (memcpy arr start data n) size.
Proof.
  intros H Hd j Hj. unfold memcpy.
  destruct ((start <=? j) && (j <? start + n)); [apply byte_nth, Hd|exact (H j Hj)].
Qed.

Lemma memory_bytes_init (m0 : Memory) : memory_bytes (memory_init m0).
Proof.
  unfold memory_bytes, memory_init. cbv zeta.
  cbn [memory basic_rom kernal_rom char_rom update_memory_maps set_memory_read_map].
  split; [|split; [|split]];
    repeat (apply bytes_upto_store; [|unfold byte; lia]);
    apply bytes_upto_memset; unfold byte, MEMORY_SIZE; lia.
Qed.

Lemma memory_bytes_set_memory (m : Memory) (ram : array) :
  memory_bytes m -> bytes_upto ram MEMORY_SIZE -> memory_bytes (set_memory m ram).
Proof.
  intros (_ & Hb & Hk & Hc) Hr.
  split; [exact Hr|]. split; [exact Hb|]. split; [exact Hk|exact Hc].
Qed.

Lemma memory_bytes_write (m : Memory) (address value : Z) :
  memory_bytes m -> memory_bytes (memory_write m address value).
Proof.
  intros Hm. pose proof Hm as (Hr & Hb & Hk & Hc).
  assert (Hs : forall a, bytes_upto (store (memory m) a (u8 value)) MEMORY_SIZE).
  { intros a. apply bytes_upto_store; [exact Hr|apply u8_range]. }
  unfold memory_write.
  repeat match goal with
         | |- context [if ?t then _ else _] => destruct t
         end;
    try exact Hm; try (apply memory_bytes_set_memory; [exact Hm|apply Hs]);
    (split; [apply Hs|]; split; [exact Hb|]; split; [exact Hk|exact Hc]).
Qed.

Lemma memory_bytes_apply_op (m : Memory) (op : MemOp) :
  op_bytes op -> memory_bytes m -> memory_bytes (apply_op m op).
Proof.
  intros Ho Hm. destruct op as [address|address value|address data length];
    cbn [apply_op].
  - exact Hm.
  - apply memory_bytes_write, Hm.
  - unfold memory_load. apply memory_bytes_set_memory; [exact Hm|].
    apply bytes_upto_memcpy; [apply Hm|exact Ho].
Qed.

Lemma memory_read_u16 (m : Memory) (address : Z) :
  memory_read m (u16 address) = memory_read m address.
Proof.
  unfold memory_read. rewrite (u16_small (u16 address)) by apply u16_range.
  reflexivity.
Qed.

(** The index a built table reads at lies inside the array it points into. *)
Lemma memory_read_byte (m : Memory) (address : Z) :
  maps_built m -> memory_bytes m -> byte (memory_read m address).
Proof.
  intros [m0 Hm] (Hr & Hb & Hk & Hc).
  rewrite <- memory_read_u16.
  pose proof (u16_range address) as H. set (a := u16 address) in *.
  pose proof (page_bounds a 0 256 ltac:(lia)) as Hp.
  pose proof (Z.mod_pos_bound a 256 ltac:(lia)) as Ho.
  pose proof (Z.div_mod a 256 ltac:(lia)) as Hd.
  rewrite memory_read_unfold by assumption.
  destruct ((0xD0 <=? a / 256) && (a / 256 <=? 0xDF) && io_enabled m).
  - apply Hr. unfold MEMORY_SIZE. lia.
  - rewrite Hm, update_memory_maps_page by assumption.
    unfold page_source.
    repeat match goal with
           | |- context [if ?t then _ else _] => destruct t eqn:?
           end;
      unfold deref; cbn [bank base];
      repeat match goal with
             | E : _ && _ = true |- _ => apply andb_prop in E; destruct E
             | E : (_ <=? _) = true |- _ => apply Z.leb_le in E
             end;
      rewrite ?split_address, ?split_address_from.
    + apply Hc. lia.
    + apply Hk. lia.
    + apply Hb. lia.
    + apply Hr. unfold MEMORY_SIZE. lia.
Qed.

Lemma maps_built_run_ops (ops : list MemOp) :
  forall m, maps_built m -> maps_built (run_ops ops m).
Proof.
  induction ops as [|op ops IH]; intros m Hm; [exact Hm|].
  unfold run_ops. cbn [fold_left]. apply IH.
  destruct op as [address|address value|address data length]; cbn [apply_op].
  - exact Hm.
  - apply maps_built_memory_write, Hm.
  - apply maps_built_memory_load, Hm.
Qed.

(** X6: after [memory_init] and any sequence of reads, writes and loads of
    byte data, every [memory_read], at any address and in any banking
    configuration, returns a value in 0..255. *)
Theorem memory_read_is_byte (m0 : Memory) (ops : list MemOp) (address : Z) :
  Forall op_bytes ops ->
  0 <= memory_read (run_ops ops (memory_init m0)) address < 256.
Proof.
  intros Ho.
  assert (Hm : maps_built (run_ops ops (memory_init m0))).
  { apply maps_built_run_ops, maps_current_built, memory_init_current. }
  apply memory_read_byte; [exact Hm|].
  assert (G : forall m, memory_bytes m -> memory_bytes (run_ops ops m)).
  { clear Hm. induction Ho as [|op ops Hop _ IH]; intros m Hb.
    - exact Hb.
    - unfold run_ops. cbn [fold_left]. apply IH, memory_bytes_apply_op; assumption. }
  apply G, memory_bytes_init.
Qed.

Lemma memory_read_is_byte_example :
  0 <= memory_read
         (run_ops [OpLoad 0x0800 [0xA9; 0x42] 2; OpWrite 0x0001 0x1234; OpWrite 0xD020 (-1)]
                  (memory_init power_on)) 0xD020 < 256.
Proof.
  apply memory_read_is_byte.
  repeat constructor; unfold byte; lia.
Defined.

(** ** ROM files *)

Lemma update_memory_maps_fields (m : Memory) :
  memory (update_memory_maps m) = memory m /\
  basic_rom (update_memory_maps m) = basic_rom m /\
  kernal_rom (update_memory_maps m) = kernal_rom m /\
  char_rom (update_memory_maps m) = char_rom m /\
  basic_rom_enabled (update_memory_maps m) = basic_rom_enabled m /\
  kernal_rom_enabled (update_memory_maps m) = kernal_rom_enabled m /\
  char_rom_enabled (update_memory_maps m) = char_rom_enabled m /\
  io_enabled (update_memory_maps m) = io_enabled m.
Proof. repeat split; reflexivity. Qed.

Lemma bank_array_update_memory_maps (m : Memory) (b : Bank) :
  bank_array (update_memory_maps m) b = bank_array m b.
Proof. destruct b; reflexivity. Qed.

(** X7: [memory_load_rom] on a file that cannot be opened returns 0 and
    leaves the memory state as it is, table included. On a file that opens
    it returns 1 whatever the file's length: the first [rom_size] bytes of
    the file, or all of them when it is shorter, replace the start of the
    image, the rest of the image and every other array and flag stay as
    they were, and the page dispatch table is rebuilt, hence current. *)
Theorem memory_load_rom_effect (m : Memory) (rom_buffer : Bank) (rom_size : Z) :
  memory_load_rom m None rom_buffer rom_size = (0, m) /\
  (forall bytes,
     let r := memory_load_rom m (Some bytes) rom_buffer rom_size in
     fst r = 1 /\
     (forall i, 0 <= i < rom_size -> i < Z.of_nat (List.length bytes) ->
                bank_array (snd r) rom_buffer i = nth (Z.to_nat i) bytes 0) /\
     (forall i, ~ (0 <= i < rom_size /\ i < Z.of_nat (List.length bytes)) ->
                bank_array (snd r) rom_buffer i = bank_array m rom_buffer i) /\
     (forall other, other <> rom_buffer ->
                bank_array (snd r) other = bank_array m other) /\
     basic_rom_enabled (snd r) = basic_rom_enabled m /\
     kernal_rom_enabled (snd r) = kernal_rom_enabled m /\
     char_rom_enabled (snd r) = char_rom_enabled m /\
     io_enabled (snd r) = io_enabled m /\
     maps_current (snd r)).
Proof.
  split; [reflexivity|]. intros bytes r.
  set (n := Z.min rom_size (Z.of_nat (List.length bytes))).
  set (m1 := set_bank_array m rom_buffer (memcpy (bank_array m rom_buffer) 0 bytes n)).
  assert (Hr : snd r = update_memory_maps m1) by reflexivity.
  destruct (update_memory_maps_fields m1) as (_ & _ & _ & _ & Fb & Fk & Fc & Fi).
  assert (Hcopy : forall i,
             bank_array (snd r) rom_buffer i =
             if (0 <=? i) && (i <? rom_size) && (i <? Z.of_nat (List.length bytes))
             then nth (Z.to_nat i) bytes 0 else bank_array m rom_buffer i).
  { intros i. rewrite Hr, bank_array_update_memory_maps. unfold m1, n.
    destruct rom_buffer; cbn [bank_array set_bank_array set_memory
                              memory basic_rom kernal_rom char_rom];
      unfold memcpy; rewrite Z.sub_0_r; zbool. }
  split; [reflexivity|].
  split; [intros i H1 H2; rewrite Hcopy; zbool|].
  split; [intros i H1; rewrite Hcopy; zbool|].
  split.
  { intros other N. rewrite Hr, bank_array_update_memory_maps. unfold m1.
    destruct rom_buffer, other; try (exfalso; exact (N eq_refl)); reflexivity. }
  rewrite Hr, Fb, Fk, Fc, Fi. unfold m1.
  do 4 (split; [destruct rom_buffer; reflexivity|]).
  apply update_memory_maps_current.
Qed.

Lemma memory_load_rom_short_kernal :
  fst (memory_load_rom stale_memory (Some [0x4C; 0x00; 0xE0]) KERNAL 8192) = 1 /\
  bank_array (snd (memory_load_rom stale_memory (Some [0x4C; 0x00; 0xE0]) KERNAL 8192))
             KERNAL 0x0002 = 0xE0 /\
  bank_array (snd (memory_load_rom stale_memory (Some [0x4C; 0x00; 0xE0]) KERNAL 8192))
             KERNAL 0x0003 = bank_array stale_memory KERNAL 0x0003 /\
  bank_array (snd (memory_load_rom stale_memory (Some [0x4C; 0x00; 0xE0]) KERNAL 8192))
             BASIC = bank_array stale_memory BASIC /\
  maps_current (snd (memory_load_rom stale_memory (Some [0x4C; 0x00; 0xE0]) KERNAL 8192)).
Proof.
  destruct (memory_load_rom_effect stale_memory KERNAL 8192) as [_ H].
  destruct (H [0x4C; 0x00; 0xE0]) as (H1 & H2 & H3 & H4 & _ & _ & _ & _ & H5).
  split; [exact H1|].
  split; [exact (H2 0x0002 ltac:(lia) ltac:(cbn; lia))|].
  split; [apply H3; cbn; lia|].
  split; [apply H4; discriminate|exact H5].
Defined.

(** ** The dump *)


Lemma dumped_bytes_app (l1 l2 : list Dumped) :
  dumped_bytes (l1 ++ l2) = dumped_bytes l1 ++ dumped_bytes l2.
Proof. apply flat_map_app. Qed.

Lemma dumped_lines_app (l1 l2 : list Dumped) :
  dumped_lines (l1 ++ l2) = dumped_lines l1 ++ dumped_lines l2.
Proof. apply flat_map_app. Qed.




Lemma memory_dump_loop_wraps (m : Memory) (start_address : Z) (fuel : nat) :
  forall (addr : Z) (out : list Dumped),
    0 <= addr < 65536 ->
    memory_dump_loop fuel m start_address 0xFFFF addr out = None.
Proof.
  induction fuel as [|fuel IH]; intros addr out Ha;
    cbn [memory_dump_loop]; rewrite (proj2 (Z.leb_le _ _)) by lia.
  - reflexivity.
  - cbv zeta. apply IH, u16_range.
Qed.

(** X9: when [start + length - 1] is [0xFFFF] modulo [2^16], as for a dump
    of the last page or for [start = 0] with [length = 0], [memory_dump]
    never returns: the 16-bit loop counter cannot exceed the end address,
    and the test against [MEMORY_SIZE] never fires. *)
Theorem memory_dump_never_returns (m : Memory) (start_address length : Z) :
  0 <= start_address < 65536 ->
  0 <= length < 65536 ->
  u16 (start_address + length - 1) = 0xFFFF ->
  dump_runs_forever m start_address length.
Proof.
  intros Hs Hl He fuel. unfold memory_dump. cbv zeta.
  rewrite (u16_small start_address), (u16_small length) by assumption.
  rewrite He. change (0xFFFF >=? MEMORY_SIZE) with false. cbv iota.
  apply memory_dump_loop_wraps. assumption.
Qed.

Lemma memory_dump_never_returns_last_page :
  dump_runs_forever (memory_init power_on) 0xFF00 0x100 /\
  dump_runs_forever (memory_init power_on) 0x0000 0.
Proof.
  split.
  - exact (memory_dump_never_returns _ 0xFF00 0x100 ltac:(lia) ltac:(lia) eq_refl).
  - exact (memory_dump_never_returns _ 0x0000 0 ltac:(lia) ltac:(lia) eq_refl).
Defined.

(** * Further properties of the interpreter *)

(** ** Well-formed machines stay well-formed *)

Lemma flag_b2z (t : bool) : flag (b2z t).
Proof. destruct t; [right|left]; reflexivity. Qed.

Lemma byte_u8 (v : Z) : byte (u8 v).
Proof. apply u8_range. Qed.


Lemma cpu_wf_with_pc (r : CPU) (w : Z) : cpu_wf r -> 0 <= w < 65536 -> cpu_wf (with_pc r w).
Proof.
  intros H Hw. destruct r; unfold cpu_wf, byte in *; cbn in *.
  repeat match goal with H' : _ /\ _ |- _ => destruct H' end.
  repeat split; assumption || lia.
Qed.

Lemma cpu_wf_with_sp (r : CPU) (w : Z) : cpu_wf r -> byte w -> cpu_wf (with_sp r w).
Proof.
  intros H Hw. destruct r; unfold cpu_wf, byte in *; cbn in *.
  repeat match goal with H' : _ /\ _ |- _ => destruct H' end.
  repeat split; assumption || lia.
Qed.

Lemma cpu_wf_with_a (r : CPU) (w : Z) : cpu_wf r -> byte w -> cpu_wf (with_a r w).
Proof.
  intros H Hw. destruct r; unfold cpu_wf, byte in *; cbn in *.
  repeat match goal with H' : _ /\ _ |- _ => destruct H' end.
  repeat split; assumption || lia.
Qed.

Lemma cpu_wf_with_x (r : CPU) (w : Z) : cpu_wf r -> byte w -> cpu_wf (with_x r w).
Proof.
  intros H Hw. destruct r; unfold cpu_wf, byte in *; cbn in *.
  repeat match goal with H' : _ /\ _ |- _ => destruct H' end.
  repeat split; assumption || lia.
Qed.

Lemma cpu_wf_with_y (r : CPU) (w : Z) : cpu_wf r -> byte w -> cpu_wf (with_y r w).
Proof.
  intros H Hw. destruct r; unfold cpu_wf, byte in *; cbn in *.
  repeat match goal with H' : _ /\ _ |- _ => destruct H' end.
  repeat split; assumption || lia.
Qed.

Lemma cpu_wf_with_i (r : CPU) (w : Z) : cpu_wf r -> flag w -> cpu_wf (with_i r w).
Proof.
  intros H Hw. destruct r; unfold cpu_wf, byte in *; cbn in *.
  repeat match goal with H' : _ /\ _ |- _ => destruct H' end.
  repeat split; assumption || lia.
Qed.

Lemma cpu_wf_with_c (r : CPU) (w : Z) : cpu_wf r -> flag w -> cpu_wf (with_c r w).
Proof.
  intros H Hw. destruct r; unfold cpu_wf, byte in *; cbn in *.
  repeat match goal with H' : _ /\ _ |- _ => destruct H' end.
  repeat split; assumption || lia.
Qed.

Lemma cpu_wf_with_zn (r : CPU) (w : Z) : cpu_wf r -> cpu_wf (with_zn r w).
Proof.
  intros H. destruct r; unfold cpu_wf, byte in *; cbn in *.
  repeat match goal with H' : _ /\ _ |- _ => destruct H' end.
  repeat split; try assumption; try lia; apply flag_b2z.
Qed.

Lemma machine_wf_set_cpu (s : Machine) (r : CPU) :
  machine_wf s -> cpu_wf r -> machine_wf (set_cpu s r).
Proof. intros (_ & Hc & Hm & Hb) Hr. split; [exact Hr|]. split; [exact Hc|]. split; assumption. Qed.

Lemma machine_wf_set_mem (s : Machine) (m : Memory) :
  machine_wf s -> maps_built m -> memory_bytes m -> machine_wf (set_mem s m).
Proof. intros (Hr & Hc & _ & _) Hm Hb. split; [exact Hr|]. split; [exact Hc|]. split; assumption. Qed.

Lemma machine_wf_write (s : Machine) (address value : Z) :
  machine_wf s -> machine_wf (set_mem s (memory_write (mem s) address value)).
Proof.
  intros H. pose proof H as (_ & _ & Hm & Hb).
  apply machine_wf_set_mem;
    [exact H|apply maps_built_memory_write, Hm|apply memory_bytes_write, Hb].
Qed.

Lemma machine_wf_push_byte (s : Machine) (value : Z) :
  machine_wf s -> machine_wf (cpu_push_byte s value).
Proof.
  intros H. pose proof H as (Hr & Hc & Hm & Hb). unfold cpu_push_byte.
  split; [apply cpu_wf_with_sp; [exact Hr|apply byte_u8]|].
  split; [exact Hc|].
  split; [apply maps_built_memory_write, Hm|apply memory_bytes_write, Hb].
Qed.

Lemma machine_wf_pull_byte (s : Machine) :
  machine_wf s -> byte (fst (cpu_pull_byte s)) /\ machine_wf (snd (cpu_pull_byte s)).
Proof.
  intros H. pose proof H as (Hr & Hc & Hm & Hb). unfold cpu_pull_byte. cbn [fst snd].
  split.
  - apply memory_read_byte; assumption.
  - apply machine_wf_set_cpu; [exact H|]. apply cpu_wf_with_sp; [exact Hr|apply byte_u8].
Qed.

Lemma machine_wf_push_word (s : Machine) (value : Z) :
  machine_wf s -> machine_wf (cpu_push_word s value).
Proof.
  intros H. unfold cpu_push_word. cbv zeta. do 2 apply machine_wf_push_byte. exact H.
Qed.

Lemma machine_wf_pull_word (s : Machine) :
  machine_wf s ->
  0 <= fst (cpu_pull_word s) < 65536 /\ machine_wf (snd (cpu_pull_word s)).
Proof.
  intros H. unfold cpu_pull_word.
  destruct (machine_wf_pull_byte s H) as [_ H1].
  destruct (cpu_pull_byte s) as [low s1]. cbn [snd] in H1.
  destruct (machine_wf_pull_byte s1 H1) as [_ H2].
  destruct (cpu_pull_byte s1) as [high s2]. cbn [fst snd] in *.
  split; [apply u16_range|exact H2].
Qed.

Lemma machine_wf_emulate_kernal (h : Host) (s : Machine) (address : Z) :
  machine_wf s -> machine_wf (cpu_emulate_kernal h s address).
Proof.
  intros H. pose proof H as (Hr & _).
  assert (Ha : forall w, machine_wf (set_cpu s (with_a (cpu s) (u8 w)))).
  { intros w. apply machine_wf_set_cpu; [exact H|].
    apply cpu_wf_with_a; [exact Hr|apply byte_u8]. }
  unfold cpu_emulate_kernal. cbv zeta.
  repeat match goal with
         | |- context [if ?t then _ else _] => destruct t
         end;
    match goal with
    | |- context [cpu_pull_word ?t] =>
        assert (Ht : machine_wf t) by (exact H || apply Ha);
        destruct (machine_wf_pull_word t Ht) as [_ Hp];
        destruct (cpu_pull_word t) as [w t']; cbn [snd] in Hp;
        apply machine_wf_set_cpu; [exact Hp|];
        apply cpu_wf_with_pc; [apply Hp|apply u16_range]
    end.
Qed.

Lemma operand_address_range (s : Machine) (mode : AddressingMode) :
  0 <= cpu_get_operand_address s mode < 65536.
Proof.
  unfold cpu_get_operand_address. cbv zeta.
  destruct mode; try apply u16_range; try lia.
  destruct (_ =? _); apply u16_range.
Qed.

Lemma machine_wf_branch (s : Machine) (taken : bool) (address size : Z) :
  machine_wf s -> 0 <= address < 65536 ->
  machine_wf (fst (branch s taken address size)).
Proof.
  intros H Ha. destruct taken; cbn [branch fst]; [|exact H].
  apply machine_wf_set_cpu; [exact H|]. apply cpu_wf_with_pc; [apply H|exact Ha].
Qed.

Lemma machine_wf_step_switch (h : Host) (s : Machine) (opcode address size : Z) :
  machine_wf s -> 0 <= address < 65536 ->
  machine_wf (fst (cpu_step_switch h s opcode address size)).
Proof.
  intros H Ha. pose proof H as (Hr & Hc & Hm & Hb).
  assert (Hread : forall a, byte (memory_read (mem s) a))
    by (intros a; apply memory_read_byte; assumption).
  pose proof Hr as (_ & Ba & Bx & By & Bsp & _).
  unfold cpu_step_switch. cbv zeta.
  repeat match goal with
         | |- context [if is_case ?o ?l then _ else _] => destruct (is_case o l)
         end;
    try (apply machine_wf_branch; assumption);
    cbn [fst];
    try (apply machine_wf_write; exact H);
    try (apply machine_wf_set_cpu; [exact H|];
         first [ apply cpu_wf_with_zn;
                 first [ apply cpu_wf_with_a | apply cpu_wf_with_x
                       | apply cpu_wf_with_y | apply cpu_wf_with_c ];
                 first [ exact Hr | apply Hread | apply byte_u8 | apply flag_b2z
                       | assumption ]
               | apply cpu_wf_with_pc; assumption
               | apply cpu_wf_with_sp; assumption ]).
  - (* JSR *)
    destruct (address >=? 0xFF00); cbn [fst].
    + apply machine_wf_emulate_kernal, machine_wf_push_word, H.
    + pose proof (machine_wf_push_word s (cpu_pc (cpu s) + 2 - 1) H) as Hp.
      apply machine_wf_set_cpu; [exact Hp|].
      apply cpu_wf_with_pc; [apply Hp|exact Ha].
  - (* RTS *)
    destruct (machine_wf_pull_word s H) as [_ Hp].
    destruct (cpu_pull_word s) as [w s']. cbn [fst snd] in *.
    apply machine_wf_set_cpu; [exact Hp|].
    apply cpu_wf_with_pc; [apply Hp|apply u16_range].
  - (* default *)
    destruct (opcode =? 0x20); cbn [fst];
      [apply machine_wf_emulate_kernal|]; exact H.
Qed.

Lemma machine_wf_entry_points (h : Host) (s : Machine) (is_nmi address status : Z) :
  machine_wf s ->
  machine_wf (cpu_step h s) /\
  machine_wf (cpu_interrupt s is_nmi) /\
  machine_wf (cpu_reset s) /\
  machine_wf (cpu_set_pc s address) /\
  machine_wf (cpu_set_status s status).
Proof.
  intros H. pose proof H as (Hr & Hc & Hm & Hb).
  split; [|split; [|split; [|split]]].
  - unfold cpu_step. cbv zeta.
    pose proof (machine_wf_step_switch h s (memory_read (mem s) (cpu_pc (cpu s)))
                  (cpu_get_operand_address s
                     (opcode_modes (memory_read (mem s) (cpu_pc (cpu s)))))
                  (opcode_sizes (memory_read (mem s) (cpu_pc (cpu s))))
                  H (operand_address_range _ _)) as Hs.
    destruct (cpu_step_switch _ _ _ _ _) as [s' size]. cbn [fst] in Hs.
    assert (Hs' : machine_wf
                    (if size >? 0
                     then set_cpu s' (with_pc (cpu s') (u16 (cpu_pc (cpu s') + size)))
                     else s')).
    { destruct (size >? 0); [|exact Hs].
      apply machine_wf_set_cpu; [exact Hs|].
      apply cpu_wf_with_pc; [apply Hs|apply u16_range]. }
    destruct Hs' as (Hr' & _ & Hm' & Hb').
    split; [exact Hr'|]. split; [apply u32_range|]. split; assumption.
  - unfold cpu_interrupt. destruct (_ || _); [|exact H]. cbv zeta.
    set (s1 := cpu_push_byte (cpu_push_word s (cpu_pc (cpu s))) _).
    assert (H1 : machine_wf s1)
      by (apply machine_wf_push_byte, machine_wf_push_word, H).
    destruct H1 as (Hr1 & _ & Hm1 & Hb1).
    split; [|split; [apply u32_range|split; assumption]].
    cbn [cpu set_cycles set_cpu].
    apply cpu_wf_with_pc; [|apply u16_range].
    apply cpu_wf_with_i; [exact Hr1|right; reflexivity].
  - unfold cpu_reset.
    split; [|split; [cbn [cycles]; lia|split; assumption]].
    cbn [cpu]. apply cpu_wf_with_i; [|right; reflexivity].
    apply cpu_wf_with_sp; [|unfold byte; lia].
    apply cpu_wf_with_pc; [exact Hr|apply u16_range].
  - apply machine_wf_set_cpu; [exact H|].
    apply cpu_wf_with_pc; [exact Hr|apply u16_range].
  - apply machine_wf_set_cpu; [exact H|].
    destruct Hr as (Hpc & Ba & Bx & By & Bsp & _).
    assert (F : forall k, flag (Z.land (Z.shiftr (u8 status) k) 1)).
    { intros k. change 1 with (Z.ones 1). rewrite Z.land_ones by lia.
      change (2 ^ 1) with 2. unfold flag.
      pose proof (Z.mod_pos_bound (Z.shiftr (u8 status) k) 2 ltac:(lia)). lia. }
    unfold cpu_wf.
    cbn [cpu_pc cpu_a cpu_x cpu_y cpu_sp cpu_c cpu_z cpu_i cpu_d cpu_b cpu_v cpu_n].
    repeat (split; [first [assumption | apply F]|]). apply F.
Qed.

Lemma machine_wf_steps (n : nat) :
  forall (hosts : nat -> Host) (s : Machine),
    machine_wf s -> machine_wf (cpu_steps n hosts s).
Proof.
  induction n as [|n IH]; intros hosts s H; cbn [cpu_steps]; [exact H|].
  apply IH. exact (proj1 (machine_wf_entry_points (hosts O) s 0 0 0 H)).
Qed.

Lemma machine_wf_fresh : machine_wf fresh_machine.
Proof.
  split; [|split; [|split]].
  - assert (E : cpu fresh_machine = mkCPU 0xEAEA 0 0 0 0xFD 0 0 1 0 0 0 0)
      by (vm_compute; reflexivity).
    rewrite E. unfold cpu_wf, byte, flag.
    cbn [cpu_pc cpu_a cpu_x cpu_y cpu_sp cpu_c cpu_z cpu_i cpu_d cpu_b cpu_v cpu_n].
    repeat split; lia || (left; reflexivity) || (right; reflexivity).
  - change (cycles fresh_machine) with 0. lia.
  - exact (maps_current_built _ (memory_init_current power_on)).
  - exact (memory_bytes_init power_on).
Qed.

(** X10: a machine whose registers hold values of their types ([pc] 16
    bits, [a], [x], [y], [sp] 8 bits, every flag 0 or 1, the counter 32
    bits) over an initialised memory of bytes is again such a machine
    after any number of [cpu_step] calls, whatever the opcodes and whatever
    the host answers, and after [cpu_interrupt], [cpu_reset], [cpu_set_pc]
    and [cpu_set_status] with any argument. *)
Theorem machine_wf_preserved (hosts : nat -> Host) (n : nat) (s : Machine)
                             (is_nmi address status : Z) :
  machine_wf s ->
  machine_wf (cpu_steps n hosts s) /\
  machine_wf (cpu_interrupt s is_nmi) /\
  machine_wf (cpu_reset s) /\
  machine_wf (cpu_set_pc s address) /\
  machine_wf (cpu_set_status s status).
Proof.
  intros H.
  destruct (machine_wf_entry_points (hosts O) s is_nmi address status H)
    as (_ & H2 & H3 & H4 & H5).
  split; [apply machine_wf_steps, H|]. split; [exact H2|]. split; [exact H3|]. split; [exact H4|exact H5].
Qed.

Lemma machine_wf_preserved_fresh :
  machine_wf (cpu_steps 1000 (fun _ => quiet) fresh_machine) /\
  machine_wf (cpu_interrupt fresh_machine 1).
Proof.
  destruct (machine_wf_preserved (fun _ => quiet) 1000 fresh_machine 1 0 0 machine_wf_fresh)
    as (H1 & H2 & _).
  split; assumption.
Defined.

(** ** The status byte *)

Lemma cpu_get_status_byte (s : Machine) : byte (cpu_get_status s).
Proof. unfold cpu_get_status. cbv zeta. apply u8_range. Qed.

Lemma status_clear_b (w : Z) :
  0 <= w < 256 -> u8 (Z.land w (Z.lnot (Z.shiftl 1 4))) = Z.land w 0xEF.
Proof.
  intros H. apply Z.eqb_eq. revert w H.
  apply byte_cases. vm_compute. reflexivity.
Qed.

(** X11: [cpu_set_status] followed by [cpu_get_status] returns the byte
    with bit 5 set, and [cpu_get_status] followed by [cpu_set_status]
    restores every flag: the two functions are inverse to each other up to
    bit 5, which the packed byte always has and the unpacking ignores. *)
Theorem status_round_trip (s : Machine) (status : Z) :
  cpu_wf (cpu s) ->
  cpu_get_status (cpu_set_status s status) = Z.lor (u8 status) 0x20 /\
  cpu_set_status s (cpu_get_status s) = s.
Proof.
  intros H. split.
  - unfold cpu_get_status, cpu_set_status. cbv zeta.
    cbn [cpu set_cpu cpu_c cpu_z cpu_i cpu_d cpu_b cpu_v cpu_n].
    pose proof (u8_range status) as Hw. set (w := u8 status) in *. clearbody w.
    apply Z.eqb_eq. revert w Hw.
    apply byte_cases. vm_compute. reflexivity.
  - destruct s as [r k m]. destruct r as [pc a x y sp c z i d b v n].
    unfold cpu_wf, flag in H.
    cbn [cpu cpu_pc cpu_a cpu_x cpu_y cpu_sp cpu_c cpu_z cpu_i cpu_d cpu_b cpu_v cpu_n] in H.
    destruct H as (_ & _ & _ & _ & _ & Hc & Hz & Hi & Hd & Hb & Hv & Hn).
    destruct Hc, Hz, Hi, Hd, Hb, Hv, Hn; subst; reflexivity.
Qed.

Lemma status_round_trip_fresh :
  cpu_get_status (cpu_set_status fresh_machine 0xFF) = 0xFF /\
  cpu_set_status fresh_machine (cpu_get_status fresh_machine) = fresh_machine.
Proof.
  exact (status_round_trip fresh_machine 0xFF (proj1 machine_wf_fresh)).
Defined.

(** ** Interrupt entry *)

Lemma word_value (low high : Z) :
  byte low -> byte high -> u16 (Z.lor low (Z.shiftl high 8)) = low + 256 * high.
Proof.
  unfold byte. intros Hl Hh. rewrite Z.lor_comm, lor_shiftl8 by assumption.
  rewrite u16_small by lia. lia.
Qed.

Lemma stack_slots_distinct (sp : Z) :
  0 <= sp < 256 ->
  u8 (sp - 1) <> sp /\ u8 (sp - 2) <> sp /\ u8 (sp - 2) <> u8 (sp - 1).
Proof.
  intros H.
  assert (C : sp = 0 \/ sp = 1 \/ 2 <= sp) by lia.
  destruct C as [-> | [-> | C]].
  - cbv. repeat split; discriminate.
  - cbv. repeat split; discriminate.
  - rewrite !u8_small by lia. lia.
Qed.

Lemma maps_built_set_memory (m : Memory) (ram : array) :
  maps_built m -> maps_built (set_memory m ram).
Proof. intros [m0 H]. exists m0. exact H. Qed.

(** A read depends on the RAM array at the address read only. *)
Lemma memory_read_set_memory (m : Memory) (ram : array) (address : Z) :
  maps_built m -> 0 <= address < 65536 -> ram address = memory m address ->
  memory_read (set_memory m ram) address = memory_read m address.
Proof.
  intros [m0 Hm] H E.
  pose proof (page_bounds address 0 256 ltac:(lia)) as Hp.
  rewrite !memory_read_unfold by assumption.
  cbn [io_enabled set_memory memory_read_map memory].
  destruct ((0xD0 <=? address / 256) && (address / 256 <=? 0xDF) && io_enabled m).
  - exact E.
  - rewrite Hm, update_memory_maps_page by assumption.
    unfold page_source.
    repeat match goal with
           | |- context [if ?t then _ else _] => destruct t
           end;
      unfold deref; cbn [bank base set_memory memory basic_rom kernal_rom char_rom];
      try reflexivity.
    rewrite split_address. exact E.
Qed.

Lemma cpu_get_status_push_word (s : Machine) (w : Z) :
  0 <= cpu_sp (cpu s) < 256 ->
  cpu_get_status (cpu_push_word s w) = cpu_get_status s.
Proof. intros H. rewrite (cpu_push_word_unfold s w H). reflexivity. Qed.

(** The three pushes of [cpu_interrupt]. *)
Lemma interrupt_pushes (s : Machine) (status : Z) :
  0 <= cpu_sp (cpu s) < 256 ->
  cpu_push_byte (cpu_push_word s (cpu_pc (cpu s))) status =
  mkMachine (with_sp (cpu s) (u8 (cpu_sp (cpu s) - 3))) (cycles s)
    (set_memory (mem s)
       (store (store (store (memory (mem s))
                 (STACK_PAGE + cpu_sp (cpu s))
                 (u8 (Z.land (Z.shiftr (u16 (cpu_pc (cpu s))) 8) 0xFF)))
                 (STACK_PAGE + u8 (cpu_sp (cpu s) - 1))
                 (u8 (Z.land (u16 (cpu_pc (cpu s))) 0xFF)))
              (STACK_PAGE + u8 (cpu_sp (cpu s) - 2)) (u8 status))).
Proof.
  intros Hsp. rewrite (cpu_push_word_unfold s _ Hsp).
  rewrite cpu_push_byte_unfold by (cbn [cpu cpu_sp with_sp]; apply u8_range).
  cbn [cpu cycles mem cpu_sp with_sp memory set_memory].
  rewrite u8_sub_l. replace (cpu_sp (cpu s) - 2 - 1) with (cpu_sp (cpu s) - 3) by lia.
  destruct s as [r k m]. destruct r as [pc a x y sp c z i d b v n]. reflexivity.
Qed.

(** X12: [cpu_interrupt] does nothing for an IRQ while the I flag is set.
    Otherwise it pushes the high byte of [pc], the low byte of [pc] and the
    status byte with bit 4 cleared, in this order, leaves [sp] three lower,
    sets the I flag, loads [pc] from the NMI or the IRQ vector, adds 7
    cycles, and changes no other register and no other byte that can be
    read. *)
Theorem cpu_interrupt_entry (s : Machine) (is_nmi : Z) :
  machine_wf s ->
  let r := cpu s in
  let s' := cpu_interrupt s is_nmi in
  (is_nmi = 0 -> cpu_i r <> 0 -> s' = s) /\
  (is_nmi <> 0 \/ cpu_i r = 0 ->
   let vector := if is_nmi =? 0 then IRQ_VECTOR else NMI_VECTOR in
   cpu s' =
     mkCPU (memory_read (mem s) vector + 256 * memory_read (mem s) (vector + 1))
           (cpu_a r) (cpu_x r) (cpu_y r) (u8 (cpu_sp r - 3))
           (cpu_c r) (cpu_z r) 1 (cpu_d r) (cpu_b r) (cpu_v r) (cpu_n r) /\
   cycles s' = u32 (cycles s + 7) /\
   memory_read (mem s') (STACK_PAGE + cpu_sp r) = cpu_pc r / 256 /\
   memory_read (mem s') (STACK_PAGE + u8 (cpu_sp r - 1)) = cpu_pc r mod 256 /\
   memory_read (mem s') (STACK_PAGE + u8 (cpu_sp r - 2)) =
     Z.land (cpu_get_status s) 0xEF /\
   forall address, 0 <= address < 65536 ->
     address <> STACK_PAGE + cpu_sp r ->
     address <> STACK_PAGE + u8 (cpu_sp r - 1) ->
     address <> STACK_PAGE + u8 (cpu_sp r - 2) ->
     memory_read (mem s') address = memory_read (mem s) address).
Proof.
  intros H r s'. pose proof H as (Hr & Hc & Hm & Hb).
  destruct Hr as (Hpc & _ & _ & _ & Hsp & _). unfold byte in Hsp. fold r in Hpc, Hsp.
  split.
  - intros -> Hi. unfold s', cpu_interrupt. fold r.
    rewrite (proj2 (Z.eqb_neq _ _) Hi). reflexivity.
  - intros Hon vector.
    assert (Hcond : negb (is_nmi =? 0) || (cpu_i r =? 0) = true).
    { destruct Hon as [Hn | Hi].
      - rewrite (proj2 (Z.eqb_neq _ _) Hn). reflexivity.
      - rewrite Hi. apply orb_true_r. }
    assert (Hvec : (if negb (is_nmi =? 0) then NMI_VECTOR else IRQ_VECTOR) = vector)
      by (unfold vector; destruct (is_nmi =? 0); reflexivity).
    assert (Hv : vector = 0xFFFE \/ vector = 0xFFFA)
      by (unfold vector; destruct (is_nmi =? 0); [left|right]; reflexivity).
    destruct (stack_slots_distinct (cpu_sp r) Hsp) as (N1 & N2 & N3).
    pose proof (u8_range (cpu_sp r - 1)) as R1.
    pose proof (u8_range (cpu_sp r - 2)) as R2.
    unfold s', cpu_interrupt. fold r. rewrite Hcond. cbv zeta. rewrite Hvec.
    rewrite (cpu_get_status_push_word s _ Hsp).
    rewrite (interrupt_pushes s _ Hsp). fold r.
    set (ram := store _ _ _).
    cbn [set_cycles set_cpu cpu cycles mem].
    assert (Hread : forall address, 0 <= address < 65536 ->
              address <> STACK_PAGE + cpu_sp r ->
              address <> STACK_PAGE + u8 (cpu_sp r - 1) ->
              address <> STACK_PAGE + u8 (cpu_sp r - 2) ->
              memory_read (set_memory (mem s) ram) address = memory_read (mem s) address).
    { intros address Ha A1 A2 A3. apply memory_read_set_memory; [assumption..|].
      unfold ram. rewrite !store_other by assumption. reflexivity. }
    assert (Hm' : maps_built (set_memory (mem s) ram))
      by (apply maps_built_set_memory, Hm).
    assert (Hslot : forall p, 0 <= p < 256 ->
              memory_read (set_memory (mem s) ram) (STACK_PAGE + p) = ram (STACK_PAGE + p))
      by (intros p Hp; rewrite memory_read_stack by assumption; reflexivity).
    split; [|split; [reflexivity|split; [|split; [|split; [|exact Hread]]]]].
    + rewrite !Hread by (unfold STACK_PAGE; lia).
      rewrite word_value by (apply memory_read_byte; assumption).
      destruct r as [pc a x y sp c z i d b v n]. reflexivity.
    + rewrite Hslot by assumption. unfold ram.
      rewrite !store_other by (unfold STACK_PAGE; lia). rewrite store_same.
      rewrite (u16_small _ Hpc), shiftr8, land_FF.
      pose proof (page_bounds (cpu_pc r) 0 256 ltac:(lia)) as Hhi.
      rewrite Z.mod_small by lia. apply u8_small. lia.
    + rewrite Hslot by assumption. unfold ram.
      rewrite store_other by (unfold STACK_PAGE; lia). rewrite store_same.
      rewrite (u16_small _ Hpc), land_FF.
      apply u8_small. apply Z.mod_pos_bound. lia.
    + rewrite Hslot by assumption. unfold ram. rewrite store_same.
      rewrite u8_small by apply u8_range.
      apply status_clear_b, cpu_get_status_byte.
Qed.

Lemma cpu_interrupt_entry_fresh :
  cpu_interrupt fresh_machine 0 = fresh_machine /\
  cycles (cpu_interrupt fresh_machine 1) = u32 (cycles fresh_machine + 7) /\
  memory_read (mem (cpu_interrupt fresh_machine 1))
              (STACK_PAGE + u8 (cpu_sp (cpu fresh_machine) - 2)) =
    Z.land (cpu_get_status fresh_machine) 0xEF.
Proof.
  pose proof (cpu_interrupt_entry fresh_machine 0 machine_wf_fresh) as [H0 _].
  pose proof (cpu_interrupt_entry fresh_machine 1 machine_wf_fresh) as [_ H1].
  assert (N : 1 <> 0 \/ cpu_i (cpu fresh_machine) = 0) by (left; discriminate).
  split; [|split].
  - apply H0; [reflexivity|]. change (cpu_i (cpu fresh_machine)) with 1. discriminate.
  - apply (H1 N).
  - apply (H1 N).
Defined.

(** ** One instruction *)

Lemma cpu_step_unfold (h : Host) (s : Machine) :
  cpu_step h s =
  let opcode := memory_read (mem s) (cpu_pc (cpu s)) in
  let sw := cpu_step_switch h s opcode
              (cpu_get_operand_address s (opcode_modes opcode)) (opcode_sizes opcode) in
  let s' := if snd sw >? 0
            then set_cpu (fst sw)
                   (with_pc (cpu (fst sw)) (u16 (cpu_pc (cpu (fst sw)) + snd sw)))
            else fst sw in
  set_cycles s' (u32 (cycles s' + opcode_cycles opcode)).
Proof.
  unfold cpu_step. cbv zeta. destruct (cpu_step_switch _ _ _ _ _). reflexivity.
Qed.

(** An opcode outside the case labels reaches [default:], and [cpu_init]
    left its table entries at one byte, two cycles, implied. *)
Lemma cpu_step_switch_default (h : Host) (s : Machine) (opcode address size : Z) :
  ~ In opcode implemented_opcodes ->
  cpu_step_switch h s opcode address size = (s, size) /\
  opcode_sizes opcode = 1 /\ opcode_cycles opcode = 2 /\
  opcode_modes opcode = ADDR_IMPLIED.
Proof.
  intros H.
  assert (Hf : forallb (fun k => negb (opcode =? k)) implemented_opcodes = true).
  { apply forallb_forall. intros k Hk. apply negb_true_iff, Z.eqb_neq.
    intros ->. exact (H Hk). }
  unfold implemented_opcodes in Hf. cbn [forallb] in Hf.
  repeat (apply andb_prop in Hf; destruct Hf as [E Hf]; apply negb_true_iff in E;
          revert E).
  clear Hf. intros.
  unfold cpu_step_switch, is_case, opcode_sizes, opcode_cycles, opcode_modes, opcode_rows.
  cbn [existsb map assigned fst snd].
  repeat match goal with
         | E : (opcode =? _) = false |- _ => rewrite !E; clear E
         end.
  cbn [orb]. split; [reflexivity|]. split; [reflexivity|]. split; reflexivity.
Qed.

(** X13: an opcode that is none of the 61 case labels of [cpu_step] (BRK,
    NOP, ADC, AND, PHA, RTI and every other of the 195 values) is executed as
    a one-byte, two-cycle instruction without effect: [pc] moves by one, the
    counter by two, and no register, flag or memory cell changes. *)
Theorem unimplemented_opcode_skipped (h : Host) (s : Machine) :
  ~ In (memory_read (mem s) (cpu_pc (cpu s))) implemented_opcodes ->
  cpu_step h s =
  mkMachine (with_pc (cpu s) (u16 (cpu_pc (cpu s) + 1))) (u32 (cycles s + 2)) (mem s).
Proof.
  intros H. rewrite cpu_step_unfold. cbv zeta.
  set (opcode := memory_read (mem s) (cpu_pc (cpu s))) in *.
  destruct (cpu_step_switch_default h s opcode
              (cpu_get_operand_address s (opcode_modes opcode)) (opcode_sizes opcode) H)
    as (Hsw & Hsize & Hcyc & _).
  rewrite Hsw, Hcyc. cbn [fst snd]. rewrite Hsize.
  destruct s as [r k m]. reflexivity.
Qed.

Lemma not_in_cases (x : Z) (l : list Z) :
  forallb (fun k => negb (x =? k)) l = true -> ~ In x l.
Proof.
  intros H Hin. rewrite forallb_forall in H. specialize (H x Hin).
  rewrite Z.eqb_refl in H. discriminate.
Qed.

Lemma unimplemented_opcode_skipped_nop :
  cpu_step quiet fresh_machine =
  mkMachine (with_pc (cpu fresh_machine) (u16 (cpu_pc (cpu fresh_machine) + 1)))
            (u32 (cycles fresh_machine + 2)) (mem fresh_machine).
Proof.
  apply unimplemented_opcode_skipped.
  apply not_in_cases. vm_compute. reflexivity.
Defined.

(** ** What no instruction touches *)

Lemma frozen_refl (s : Machine) : frozen s s.
Proof. unfold frozen. tauto. Qed.

Lemma frozen_trans (s1 s2 s3 : Machine) : frozen s1 s2 -> frozen s2 s3 -> frozen s1 s3.
Proof.
  unfold frozen. intros (A1 & A2 & A3 & A4 & A5 & A6 & A7) (B1 & B2 & B3 & B4 & B5 & B6 & B7).
  rewrite B1, B2, B3, B4, B5, B6, B7. tauto.
Qed.

Lemma frozen_set_cpu (s : Machine) (r : CPU) :
  cpu_i r = cpu_i (cpu s) -> cpu_d r = cpu_d (cpu s) ->
  cpu_b r = cpu_b (cpu s) -> cpu_v r = cpu_v (cpu s) ->
  frozen s (set_cpu s r).
Proof. intros. unfold frozen. cbn [cpu mem set_cpu]. tauto. Qed.

Lemma frozen_write (s : Machine) (address value : Z) :
  frozen s (set_mem s (memory_write (mem s) address value)).
Proof.
  destruct (memory_write_keeps_roms (mem s) address value) as (H1 & H2 & H3).
  unfold frozen. cbn [cpu mem set_mem]. tauto.
Qed.

Lemma frozen_push_byte (s : Machine) (value : Z) : frozen s (cpu_push_byte s value).
Proof.
  destruct (memory_write_keeps_roms (mem s) (STACK_PAGE + cpu_sp (cpu s)) value)
    as (H1 & H2 & H3).
  unfold frozen, cpu_push_byte. cbn [cpu mem cpu_i cpu_d cpu_b cpu_v with_sp]. tauto.
Qed.

Lemma frozen_push_word (s : Machine) (value : Z) : frozen s (cpu_push_word s value).
Proof.
  unfold cpu_push_word. cbv zeta.
  eapply frozen_trans; apply frozen_push_byte.
Qed.

Lemma frozen_pull_byte (s : Machine) : frozen s (snd (cpu_pull_byte s)).
Proof. unfold cpu_pull_byte. cbn [snd]. apply frozen_set_cpu; reflexivity. Qed.

Lemma frozen_pull_word (s : Machine) : frozen s (snd (cpu_pull_word s)).
Proof.
  unfold cpu_pull_word.
  pose proof (frozen_pull_byte s) as H1. destruct (cpu_pull_byte s) as [low s1].
  pose proof (frozen_pull_byte s1) as H2. destruct (cpu_pull_byte s1) as [high s2].
  cbn [snd] in *. eapply frozen_trans; eassumption.
Qed.

Lemma frozen_emulate_kernal (h : Host) (s : Machine) (address : Z) :
  frozen s (cpu_emulate_kernal h s address).
Proof.
  unfold cpu_emulate_kernal. cbv zeta.
  set (s1 := if _ =? 0xFFD2 then _ else _).
  assert (H1 : frozen s s1).
  { unfold s1. repeat (destruct (_ =? _); [try apply frozen_refl|]);
      try apply frozen_refl; apply frozen_set_cpu; reflexivity. }
  pose proof (frozen_pull_word s1) as H2. destruct (cpu_pull_word s1) as [w s2].
  cbn [snd] in H2.
  eapply frozen_trans; [exact H1|]. eapply frozen_trans; [exact H2|].
  apply frozen_set_cpu; reflexivity.
Qed.

Lemma frozen_branch (s : Machine) (taken : bool) (address size : Z) :
  frozen s (fst (branch s taken address size)).
Proof.
  destruct taken; cbn [branch fst]; [apply frozen_set_cpu; reflexivity|apply frozen_refl].
Qed.

Lemma frozen_step_switch (h : Host) (s : Machine) (opcode address size : Z) :
  frozen s (fst (cpu_step_switch h s opcode address size)).
Proof.
  unfold cpu_step_switch. cbv zeta.
  repeat match goal with
         | |- context [if is_case ?o ?l then _ else _] => destruct (is_case o l)
         end;
    try apply frozen_branch;
    cbn [fst];
    try apply frozen_write;
    try (apply frozen_set_cpu; reflexivity).
  - destruct (address >=? 0xFF00); cbn [fst].
    + eapply frozen_trans; [apply frozen_push_word|apply frozen_emulate_kernal].
    + eapply frozen_trans; [apply frozen_push_word|apply frozen_set_cpu; reflexivity].
  - pose proof (frozen_pull_word s) as H. destruct (cpu_pull_word s) as [w s1].
    cbn [fst snd] in *. eapply frozen_trans; [exact H|apply frozen_set_cpu; reflexivity].
  - destruct (opcode =? 0x20); cbn [fst];
      [apply frozen_emulate_kernal|apply frozen_refl].
Qed.

Lemma frozen_step (h : Host) (s : Machine) : frozen s (cpu_step h s).
Proof.
  rewrite cpu_step_unfold. cbv zeta.
  set (sw := cpu_step_switch _ _ _ _ _).
  pose proof (frozen_step_switch h s (memory_read (mem s) (cpu_pc (cpu s)))
                (cpu_get_operand_address s
                   (opcode_modes (memory_read (mem s) (cpu_pc (cpu s)))))
                (opcode_sizes (memory_read (mem s) (cpu_pc (cpu s))))) as H.
  fold sw in H. eapply frozen_trans; [exact H|].
  destruct (snd sw >? 0).
  - unfold frozen. cbn [cpu mem set_cycles set_cpu cpu_i cpu_d cpu_b cpu_v with_pc]. tauto.
  - unfold frozen. cbn [cpu mem set_cycles]. tauto.
Qed.

(** X14: no sequence of instructions changes the flags I, D, B or V, or a
    byte of the BASIC, KERNAL or character ROM images, whatever the opcodes
    and the host's answers. *)
Theorem cpu_steps_frozen (n : nat) (hosts : nat -> Host) (s : Machine) :
  frozen s (cpu_steps n hosts s).
Proof.
  revert hosts s. induction n as [|n IH]; intros hosts s; cbn [cpu_steps].
  - apply frozen_refl.
  - eapply frozen_trans; [apply frozen_step|apply IH].
Qed.

(** ** Instructions *)

(** Selects the case of [cpu_step] for the opcode [E] gives. *)
Ltac decode E :=
  unfold cpu_step; rewrite E;
  cbn [cpu_step_switch is_case existsb Z.eqb Pos.eqb orb opcode_sizes opcode_cycles
       opcode_modes opcode_rows assigned map fst snd].

(** X15: each of the eight branch opcodes tests one flag: BEQ/BNE the Z
    flag, BCS/BCC the C flag, BMI/BPL the N flag, BVS/BVC the V flag. When the
    test holds, [pc] becomes the address after the instruction plus the
    signed operand, otherwise the address after the instruction; either way
    the step costs two cycles and changes nothing else. *)
Theorem branch_step (h : Host) (s : Machine) (flag_of : CPU -> Z) (sense : bool) :
  branch_test (memory_read (mem s) (cpu_pc (cpu s))) = Some (flag_of, sense) ->
  let pc := cpu_pc (cpu s) in
  let taken := Bool.eqb (negb (flag_of (cpu s) =? 0)) sense in
  cpu_step h s =
  mkMachine (with_pc (cpu s)
               (if taken then u16 (pc + 2 + i8 (memory_read (mem s) (pc + 1)))
                else u16 (pc + 2)))
            (u32 (cycles s + 2)) (mem s).
Proof.
  intros H pc taken. unfold taken, pc. clear taken pc.
  unfold branch_test in H.
  repeat match type of H with
         | context [if ?o =? ?k then _ else _] =>
             destruct (Z.eqb_spec o k) as [E|_];
             [ injection H as <- <-; decode E; cbn [cpu_get_operand_address];
               destruct (_ =? 0); destruct s as [r k' m]; reflexivity
             | ]
         end.
  discriminate.
Qed.

Lemma machine_wf_set_pc (s : Machine) (address : Z) :
  machine_wf s -> machine_wf (cpu_set_pc s address).
Proof.
  intros H. apply machine_wf_set_cpu; [exact H|].
  apply cpu_wf_with_pc; [apply H|apply u16_range].
Qed.

Lemma machine_wf_program_at (address : Z) (code : list Z) :
  Forall byte code -> machine_wf (program_at address code).
Proof.
  intros H. pose proof machine_wf_fresh as Hf. pose proof Hf as (_ & _ & Hm & Hb).
  unfold program_at.
  apply machine_wf_set_pc.
  apply machine_wf_set_mem; [exact Hf|apply maps_built_memory_load, Hm|].
  exact (memory_bytes_apply_op _ (OpLoad address code _) H Hb).
Qed.

Lemma branch_step_spin : cpu_pc (cpu (cpu_step quiet spin_machine)) = 0x0800.
Proof.
  rewrite (branch_step quiet spin_machine cpu_z false).
  - vm_compute. reflexivity.
  - vm_compute. reflexivity.
Defined.

Lemma sign_bit (w : Z) : byte w -> negb (Z.land w 0x80 =? 0) = (128 <=? w).
Proof.
  intros H. apply eqb_prop. revert w H.
  apply (byte_cases (fun w => eqb (negb (Z.land w 0x80 =? 0)) (128 <=? w))).
  vm_compute. reflexivity.
Qed.

Lemma u8_sub_zero (a v : Z) : byte a -> byte v -> (u8 (a - v) =? 0) = (a =? v).
Proof.
  unfold byte, u8. intros Ha Hv. destruct (Z.eqb_spec a v) as [->|N].
  - rewrite Z.sub_diag. reflexivity.
  - apply Z.eqb_neq. intros E.
    pose proof (Z.div_mod (a - v) 256 ltac:(lia)). lia.
Qed.

(** X16: [CMP], in each of its eight addressing modes, compares the
    accumulator with the operand byte as unsigned numbers: C is set exactly
    when [a >= value], Z exactly when they are equal, N is bit 7 of the
    difference modulo 256; [pc] moves past the instruction, and the
    accumulator, the other registers and flags and the memory stay as they
    were. *)
Theorem cmp_step (h : Host) (s : Machine) :
  machine_wf s ->
  let opcode := memory_read (mem s) (cpu_pc (cpu s)) in
  In opcode cmp_opcodes ->
  let r := cpu s in
  let value := memory_read (mem s) (cpu_get_operand_address s (opcode_modes opcode)) in
  let s' := cpu_step h s in
  cpu s' =
    mkCPU (u16 (cpu_pc r + opcode_sizes opcode)) (cpu_a r) (cpu_x r) (cpu_y r) (cpu_sp r)
          (b2z (value <=? cpu_a r)) (b2z (cpu_a r =? value))
          (cpu_i r) (cpu_d r) (cpu_b r) (cpu_v r)
          (b2z (128 <=? (cpu_a r - value) mod 256)) /\
  mem s' = mem s.
Proof.
  intros H opcode Hin r value s'. pose proof H as (Hr & _ & Hm & Hb).
  assert (Hread : forall a, byte (memory_read (mem s) a))
    by (intros a; apply memory_read_byte; assumption).
  destruct Hr as (_ & Ba & _).
  unfold s', value, r. clear s' value r.
  unfold cmp_opcodes in Hin. cbn [In] in Hin.
  repeat match type of Hin with
         | _ \/ _ => destruct Hin as [E|Hin];
             [ symmetry in E; unfold opcode in E; unfold opcode; clear opcode;
               decode E;
               cbn [Z.gtb Z.compare set_cpu set_cycles cpu mem cycles];
               unfold with_pc, with_zn, with_c;
               cbn [cpu_pc cpu_a cpu_x cpu_y cpu_sp cpu_c cpu_z cpu_i cpu_d cpu_b
                    cpu_v cpu_n];
               rewrite sign_bit, u8_sub_zero, Z.geb_leb
                 by first [apply byte_u8 | apply Hread | exact Ba];
               split; reflexivity
             | ]
         end.
  contradiction.
Qed.

Lemma cmp_step_example :
  cpu_c (cpu (cpu_step quiet (program_at 0x0800 [0xC9; 0x01]))) = 0 /\
  cpu_n (cpu (cpu_step quiet (program_at 0x0800 [0xC9; 0x01]))) = 1.
Proof.
  assert (B : Forall byte [0xC9; 0x01])
    by (repeat constructor; unfold byte; lia).
  destruct (cmp_step quiet (program_at 0x0800 [0xC9; 0x01])
              (machine_wf_program_at _ _ B)) as [Hr _].
  - vm_compute. tauto.
  - rewrite Hr. split; vm_compute; reflexivity.
Defined.

(** X17: every load (LDA, LDX, LDY), transfer into a register (TAX, TAY,
    TXA, TYA, TSX), increment and decrement (INX, INY, DEX, DEY), in every
    addressing mode, leaves Z set exactly when the register it wrote is
    zero and N exactly when bit 7 of that register is set; it changes neither
    C, the stack pointer nor the memory. *)
Theorem nz_rule (h : Host) (s : Machine) (reg : CPU -> Z) :
  machine_wf s ->
  nz_target (memory_read (mem s) (cpu_pc (cpu s))) = Some reg ->
  let s' := cpu_step h s in
  cpu_z (cpu s') = b2z (reg (cpu s') =? 0) /\
  cpu_n (cpu s') = b2z (128 <=? reg (cpu s')) /\
  cpu_c (cpu s') = cpu_c (cpu s) /\
  cpu_sp (cpu s') = cpu_sp (cpu s) /\
  mem s' = mem s.
Proof.
  intros H Hnz s'. pose proof H as (Hr & _ & Hm & Hb).
  assert (Hread : forall a, byte (memory_read (mem s) a))
    by (intros a; apply memory_read_byte; assumption).
  destruct Hr as (_ & Ba & Bx & By & Bsp & _).
  unfold s'. clear s'.
  unfold nz_target, is_case in Hnz. cbn [existsb] in Hnz.
  repeat match type of Hnz with
         | context [?o =? ?k] =>
             destruct (Z.eqb_spec o k) as [E|_];
             [ cbn [orb] in Hnz; injection Hnz as <-;
               decode E;
               cbn [Z.gtb Z.compare set_cpu set_cycles cpu mem cycles];
               unfold with_pc, with_zn, with_a, with_x, with_y;
               cbn [cpu_pc cpu_a cpu_x cpu_y cpu_sp cpu_c cpu_z cpu_i cpu_d cpu_b
                    cpu_v cpu_n];
               rewrite sign_bit by first [apply byte_u8 | apply Hread | assumption];
               split; [reflexivity|]; split; [reflexivity|];
               split; [reflexivity|]; split; reflexivity
             | cbn [orb] in Hnz ]
         end.
  discriminate.
Qed.

Lemma nz_rule_examples :
  cpu_n (cpu (cpu_step quiet (program_at 0x0800 [0xA9; 0x80]))) = 1 /\
  cpu_z (cpu (cpu_step quiet (program_at 0x0800 [0xE8]))) = 0.
Proof.
  assert (B1 : Forall byte [0xA9; 0x80]) by (repeat constructor; unfold byte; lia).
  assert (B2 : Forall byte [0xE8]) by (repeat constructor; unfold byte; lia).
  split.
  - destruct (nz_rule quiet (program_at 0x0800 [0xA9; 0x80]) cpu_a
                (machine_wf_program_at _ _ B1)) as (_ & Hn & _).
    + vm_compute. reflexivity.
    + rewrite Hn. vm_compute. reflexivity.
  - destruct (nz_rule quiet (program_at 0x0800 [0xE8]) cpu_x
                (machine_wf_program_at _ _ B2)) as (Hz & _).
    + vm_compute. reflexivity.
    + rewrite Hz. vm_compute. reflexivity.
Defined.

(** ** KERNAL calls *)

Lemma memory_slots_push_word (s : Machine) (w address : Z) :
  0 <= cpu_sp (cpu s) < 256 ->
  address <> STACK_PAGE + cpu_sp (cpu s) ->
  address <> STACK_PAGE + u8 (cpu_sp (cpu s) - 1) ->
  memory (mem (cpu_push_word s w)) address = memory (mem s) address.
Proof.
  intros Hsp A1 A2. rewrite (cpu_push_word_unfold s w Hsp).
  cbn [mem memory set_memory]. rewrite !store_other by assumption. reflexivity.
Qed.

(** X18: a [JSR] to any address from [$FF00] up never enters the routine:
    the handler runs in its place. [$FFCF] (CHRIN) leaves the low byte of
    what [getchar] returned in [a] ([$FF] at end of input), [$FFE4] (GETIN)
    leaves the key in [a], or 0 when [kbhit] reports none or [getchar] fails,
    and every other address leaves [a] as it was; [x], [y] and the flags are
    kept, the step costs 6 cycles, and the memory differs at most in the two
    stack bytes the return address went through. *)
Theorem kernal_call (h : Host) (s : Machine) :
  maps_built (mem s) ->
  0 <= cpu_sp (cpu s) < 256 ->
  memory_read (mem s) (cpu_pc (cpu s)) = 0x20 ->
  let target := cpu_get_operand_address s ADDR_ABSOLUTE in
  0xFF00 <= target ->
  let r := cpu s in
  let s' := cpu_step h s in
  cpu s' =
    mkCPU (u16 (cpu_pc r + 3)) (kernal_a h target (cpu_a r)) (cpu_x r) (cpu_y r)
          (cpu_sp r) (cpu_c r) (cpu_z r) (cpu_i r) (cpu_d r) (cpu_b r) (cpu_v r)
          (cpu_n r) /\
  cycles s' = u32 (cycles s + 6) /\
  forall address,
    address <> STACK_PAGE + cpu_sp r ->
    address <> STACK_PAGE + u8 (cpu_sp r - 1) ->
    memory (mem s') address = memory (mem s) address.
Proof.
  intros Hm Hsp Hop target Ht r s'.
  assert (Htr : 0 <= target < 65536) by apply operand_address_range.
  unfold s'. rewrite (cpu_step_jsr h s Hop). cbv zeta. fold target r.
  rewrite (proj2 (Z.geb_le _ _)) by assumption.
  rewrite <- cpu_push_word_u16.
  set (w := u16 (cpu_pc r + 2)).
  assert (Hw : 0 <= w < 65536) by apply u16_range.
  pose proof (memory_slots_push_word s w) as Hslots.
  destruct (cpu_push_word_top s w Hsp Hw) as [Htop Hsp'].
  pose proof (maps_built_push_word s w Hsp Hm) as Hmt.
  pose proof (cpu_push_word_unfold s w Hsp) as Hpush.
  set (t := cpu_push_word s w) in *.
  assert (Hcpu : cpu t = with_sp r (u8 (cpu_sp r - 2))) by (rewrite Hpush; reflexivity).
  assert (Hcyc : cycles t = cycles s) by (rewrite Hpush; reflexivity).
  unfold cpu_emulate_kernal. cbv zeta. rewrite (u16_small _ Htr).
  set (t1 := if target =? 0xFFD2 then t else _).
  assert (H1 : t1 = set_cpu t (with_a (cpu t) (kernal_a h target (cpu_a r)))).
  { unfold t1, kernal_a.
    assert (Ha : cpu_a (cpu t) = cpu_a r) by (rewrite Hcpu; reflexivity).
    assert (Hid : set_cpu t (with_a (cpu t) (cpu_a r)) = t)
      by (rewrite <- Ha; destruct t as [[] ? ?]; reflexivity).
    destruct (target =? 0xFFD2) eqn:E1.
    - apply Z.eqb_eq in E1. rewrite E1. cbn [Z.eqb Pos.eqb]. symmetry. exact Hid.
    - destruct (target =? 0xFFCF); [reflexivity|].
      destruct (target =? 0xFFE4); [|symmetry; exact Hid].
      destruct (kbhit h).
      + destruct (getchar h =? -1); [reflexivity|reflexivity].
      + reflexivity. }
  assert (Htop1 : stack_top t1 w) by (rewrite H1; exact Htop).
  assert (Hm1 : maps_built (mem t1)) by (rewrite H1; exact Hmt).
  rewrite (cpu_pull_word_top t1 w Hm1 Hw Htop1).
  rewrite H1. cbn [set_cycles set_cpu cpu cycles mem cpu_sp with_a with_sp with_pc].
  rewrite Hcyc. split; [|split; [reflexivity|]].
  - rewrite Hcpu. cbn [cpu_sp with_sp cpu_pc cpu_a cpu_x cpu_y cpu_c cpu_z cpu_i cpu_d
                       cpu_b cpu_v cpu_n].
    rewrite u8_add_l. replace (cpu_sp r - 2 + 2) with (cpu_sp r) by lia.
    rewrite (u8_small (cpu_sp r) Hsp). unfold w. rewrite u16_add_l.
    replace (cpu_pc r + 2 + 1) with (cpu_pc r + 3) by lia. reflexivity.
  - intros address A1 A2. apply Hslots; assumption.
Qed.

Lemma kernal_call_examples :
  cpu_a (cpu (cpu_step (mkHost 0x41 true) (program_at 0x0800 [0x20; 0xE4; 0xFF]))) = 0x41 /\
  cpu_a (cpu (cpu_step quiet (program_at 0x0800 [0x20; 0xCF; 0xFF]))) = 0xFF.
Proof.
  assert (B1 : Forall byte [0x20; 0xE4; 0xFF]) by (repeat constructor; unfold byte; lia).
  assert (B2 : Forall byte [0x20; 0xCF; 0xFF]) by (repeat constructor; unfold byte; lia).
  split.
  - destruct (kernal_call (mkHost 0x41 true) (program_at 0x0800 [0x20; 0xE4; 0xFF]))
      as (Hr & _).
    + apply (machine_wf_program_at _ _ B1).
    + closed_bounds.
    + vm_compute. reflexivity.
    + closed_bounds.
    + rewrite Hr. vm_compute. reflexivity.
  - destruct (kernal_call quiet (program_at 0x0800 [0x20; 0xCF; 0xFF])) as (Hr & _).
    + apply (machine_wf_program_at _ _ B2).
    + closed_bounds.
    + vm_compute. reflexivity.
    + closed_bounds.
    + rewrite Hr. vm_compute. reflexivity.
Defined.

(** ** The I/O registers *)

Ltac io_ranges :=
  unfold VIC_BASE_ADDRESS, VIC_REGISTERS_SIZE, SID_BASE_ADDRESS, SID_REGISTERS_SIZE,
         CIA1_BASE_ADDRESS, CIA2_BASE_ADDRESS, CIA_REGISTERS_SIZE in *.

Lemma keyboard_scan_frame (io io' : IO) :
  cia1_registers io' 0 = cia1_registers io 0 ->
  keyboard_matrix io' = keyboard_matrix io ->
  keyboard_scan io' = keyboard_scan io.
Proof. intros H1 H2. unfold keyboard_scan. rewrite H1, H2. reflexivity. Qed.

(** X19: the four chips' registers are a register file: a write to a
    decoded address is read back as the byte written, except at [$DC00],
    where the read is the keyboard scan under the row selection just
    written; a write to any other address changes nothing and a read there
    gives [$FF]; and a write does not change what any other address reads. *)
Theorem io_write_read (io : IO) (address value other : Z) :
  let a := u16 address in
  let io' := fst (io_write io address value) in
  io_read io' address =
    (if io_register a
     then if a =? CIA1_BASE_ADDRESS then keyboard_scan io' else u8 value
     else 0xFF) /\
  (io_register a = false -> io' = io) /\
  (u16 other <> a -> io_read io' other = io_read io other).
Proof.
  intros a io'. unfold io', io_read, io_write, io_register. cbv zeta. fold a.
  pose proof (u16_range address) as Ha. fold a in Ha.
  pose proof (u16_range other) as Hb. set (b := u16 other) in *.
  clearbody a b. io_ranges.
  split; [|split].
  - zbool; cbn [fst vic_registers sid_registers cia1_registers cia2_registers
                set_vic_registers set_sid_registers set_cia1_registers set_cia2_registers];
      try (destruct (_ && _); cbn [fst sid_registers set_sid_registers]);
      rewrite ?store_same; zbool.
  - zbool; intros; try discriminate; reflexivity.
  - intros N. zbool;
      cbn [fst vic_registers sid_registers cia1_registers cia2_registers
           set_vic_registers set_sid_registers set_cia1_registers set_cia2_registers];
      try (destruct (_ && _); cbn [fst sid_registers set_sid_registers cia1_registers
                                   vic_registers cia2_registers]);
      rewrite ?store_other by lia; try reflexivity;
      apply keyboard_scan_frame; cbn [cia1_registers keyboard_matrix set_cia1_registers
                                      set_vic_registers set_sid_registers
                                      set_cia2_registers];
      rewrite ?store_other by lia; reflexivity.
Qed.

(** ** The keyboard matrix *)

Lemma land_bit (v row : Z) :
  0 <= row -> (Z.land v (Z.shiftl 1 row) =? 0) = negb (Z.testbit v row).
Proof.
  intros H. rewrite Z.shiftl_1_l.
  destruct (Z.testbit v row) eqn:E; cbn [negb].
  - apply Z.eqb_neq. intros C.
    assert (T : Z.testbit (Z.land v (2 ^ row)) row = true)
      by (rewrite Z.land_spec, E, Z.pow2_bits_true by assumption; reflexivity).
    rewrite C, Z.bits_0 in T. discriminate.
  - apply Z.eqb_eq. apply Z.bits_inj'. intros n Hn.
    rewrite Z.land_spec, Z.bits_0, Z.pow2_bits_eqb by assumption.
    destruct (Z.eqb_spec row n) as [->|_]; [rewrite E|]; apply andb_false_r || reflexivity.
Qed.

Lemma testbit_u8 (v col : Z) : 0 <= col < 8 -> Z.testbit (u8 v) col = Z.testbit v col.
Proof.
  intros H. unfold u8. change 256 with (2 ^ 8).
  apply Z.mod_pow2_bits_low. lia.
Qed.

Lemma scan_step (select result row col : Z) (matrix : array) :
  0 <= row -> 0 <= col < 8 ->
  Z.testbit (if Z.land select (Z.shiftl 1 row) =? 0
             then u8 (Z.land result (matrix row))
             else result) col =
  Z.testbit result col && (Z.testbit select row || Z.testbit (matrix row) col).
Proof.
  intros Hr Hc. rewrite land_bit by assumption.
  destruct (Z.testbit select row); cbn [negb orb].
  - rewrite andb_true_r. reflexivity.
  - rewrite testbit_u8, Z.land_spec by assumption. reflexivity.
Qed.

Lemma keyboard_scan_bit (io : IO) (col : Z) :
  0 <= col < 8 ->
  Z.testbit (keyboard_scan io) col =
  forallb (fun row => negb (row_selected io row && key_down io row col))
          [0; 1; 2; 3; 4; 5; 6; 7].
Proof.
  intros H. unfold keyboard_scan. cbv zeta.
  set (select := u8 (Z.land (cia1_registers io 0) 0xFF)).
  assert (Hs : forall row, 0 <= row < 8 ->
            Z.testbit select row = Z.testbit (cia1_registers io 0) row).
  { intros row Hr. unfold select.
    rewrite testbit_u8, land_FF by assumption. apply (testbit_u8 _ _ Hr). }
  cbn [for_loop forallb]. change (0 + 1) with 1.
  change (1 + 1) with 2. change (2 + 1) with 3. change (3 + 1) with 4.
  change (4 + 1) with 5. change (5 + 1) with 6. change (6 + 1) with 7.
  rewrite !scan_step by lia.
  rewrite !Hs by lia.
  assert (T : Z.testbit 0xFF col = true).
  { change 0xFF with (Z.ones 8). apply Z.ones_spec_low. lia. }
  rewrite T. unfold row_selected, key_down.
  rewrite !negb_andb, !negb_involutive, andb_true_r. cbn [andb].
  rewrite <- !andb_assoc. reflexivity.
Qed.

(** X20: a read of [$DC00] has bit [col] clear exactly when some selected
    row (a row whose bit in CIA1 register 0 is 0) has the key of that column
    down; with no row selected, or no key down, it reads [$FF] in its low
    eight bits. *)
Theorem keyboard_read (io : IO) (col : Z) :
  0 <= col < 8 ->
  Z.testbit (io_read io CIA1_BASE_ADDRESS) col =
  negb (existsb (fun row => row_selected io row && key_down io row col)
                [0; 1; 2; 3; 4; 5; 6; 7]).
Proof.
  intros H.
  change (io_read io CIA1_BASE_ADDRESS) with (keyboard_scan io).
  rewrite keyboard_scan_bit by assumption.
  cbn [forallb existsb]. rewrite !negb_orb. cbn [negb]. rewrite !andb_true_r.
  reflexivity.
Qed.

Lemma keyboard_read_example :
  Z.testbit (io_read (io_set_key_pressed io_ready 0x12 1) CIA1_BASE_ADDRESS) 2 = false /\
  Z.testbit (io_read io_ready CIA1_BASE_ADDRESS) 2 = true.
Proof.
  split.
  - rewrite keyboard_read by lia. vm_compute. reflexivity.
  - rewrite keyboard_read by lia. vm_compute. reflexivity.
Defined.

Lemma key_row_col (key : Z) :
  u8 (Z.land (Z.shiftr (u8 key) 4) 0x07) = key_row key /\
  u8 (Z.land (u8 key) 0x07) = key_col key /\
  0 <= key_row key < 8 /\ 0 <= key_col key < 8.
Proof.
  unfold key_row, key_col.
  change 0x07 with (Z.ones 3). rewrite !Z.land_ones by lia.
  rewrite Z.shiftr_div_pow2 by lia. change (2 ^ 4) with 16. change (2 ^ 3) with 8.
  pose proof (Z.mod_pos_bound (u8 key / 16) 8 ltac:(lia)).
  pose proof (Z.mod_pos_bound (u8 key) 8 ltac:(lia)).
  rewrite (u8_small ((u8 key / 16) mod 8)), (u8_small (u8 key mod 8)) by lia.
  repeat split; lia.
Qed.

(** X21: [io_set_key_pressed] moves exactly one key of the matrix: the one
    in the row given by bits 4-6 and the column given by bits 0-2 of the key
    code is down after a press and up after a release, and every other key
    is as before. The row selection is not touched, so a press shows as a
    clear bit in the next read of [$DC00] whenever the key's row is
    selected. *)
Theorem key_press_release (io : IO) (key is_pressed : Z) :
  let io' := io_set_key_pressed io key is_pressed in
  (forall row col, 0 <= col < 8 ->
     key_down io' row col =
     if (row =? key_row key) && (col =? key_col key)
     then negb (is_pressed =? 0)
     else key_down io row col) /\
  (forall row, row_selected io' row = row_selected io row) /\
  (row_selected io (key_row key) = true -> is_pressed <> 0 ->
   Z.testbit (io_read io' CIA1_BASE_ADDRESS) (key_col key) = false).
Proof.
  intros io'.
  destruct (key_row_col key) as (Hrow & Hcol & Rr & Rc).
  assert (Hdown : forall row col, 0 <= col < 8 ->
            key_down io' row col =
            if (row =? key_row key) && (col =? key_col key)
            then negb (is_pressed =? 0)
            else key_down io row col).
  { intros row col Hc. unfold io', io_set_key_pressed, key_down. cbv zeta.
    rewrite Hrow, Hcol.
    destruct (is_pressed =? 0); cbn [negb keyboard_matrix set_keyboard_matrix];
      unfold store; destruct (row =? key_row key) eqn:E; cbn [andb]; try reflexivity;
      apply Z.eqb_eq in E; subst row;
      rewrite testbit_u8, Z.shiftl_1_l by assumption.
    - rewrite Z.lor_spec, Z.pow2_bits_eqb by lia.
      rewrite (Z.eqb_sym (key_col key) col).
      destruct (col =? key_col key); [apply negb_false_iff, orb_true_r|].
      rewrite orb_false_r. reflexivity.
    - rewrite Z.land_spec, Z.lnot_spec, Z.pow2_bits_eqb by lia.
      rewrite (Z.eqb_sym (key_col key) col).
      destruct (col =? key_col key); cbn [negb].
      + rewrite andb_false_r. reflexivity.
      + rewrite andb_true_r. reflexivity. }
  split; [exact Hdown|]. split.
  - intros row. unfold io', io_set_key_pressed, row_selected. cbv zeta.
    destruct (negb _); reflexivity.
  - intros Hsel Hp.
    change (io_read io' CIA1_BASE_ADDRESS) with (keyboard_scan io').
    rewrite keyboard_scan_bit by assumption.
    apply not_true_is_false. intros C. rewrite forallb_forall in C.
    assert (Hin : In (key_row key) [0; 1; 2; 3; 4; 5; 6; 7]).
    { cbn [In]. lia. }
    specialize (C _ Hin). rewrite Hdown in C by assumption.
    rewrite !Z.eqb_refl in C. cbn [andb] in C.
    rewrite (proj2 (Z.eqb_neq _ _) Hp) in C.
    assert (Hsel' : row_selected io' (key_row key) = true).
    { unfold io', io_set_key_pressed, row_selected in *. cbv zeta.
      destruct (negb _); exact Hsel. }
    rewrite Hsel' in C. discriminate.
Qed.

(** ** The screen *)

Lemma for_loop_invariant {A : Type} (P : Z -> A -> Prop) (body : Z -> A -> A)
                         (count : nat) :
  forall first acc,
    P first acc ->
    (forall i a, first <= i < first + Z.of_nat count -> P i a -> P (i + 1) (body i a)) ->
    P (first + Z.of_nat count) (for_loop count first body acc).
Proof.
  induction count as [|count IH]; intros first acc H0 Hstep.
  - cbn [for_loop]. replace (first + Z.of_nat 0) with first by lia. exact H0.
  - cbn [for_loop].
    replace (first + Z.of_nat (S count)) with (first + 1 + Z.of_nat count) by lia.
    apply IH.
    + apply Hstep; [lia|exact H0].
    + intros i a Hi. apply Hstep. lia.
Qed.

(** The loop of [io_clear_screen] after [i] rounds. *)
Lemma clear_loop (m : Memory) (count : nat) :
  (Z.of_nat count <= 1000)%Z ->
  let m' := for_loop count 0
              (fun i m =>
                 let m := memory_write m (SCREEN_MEMORY_START + i) 32 in
                 memory_write m (COLOR_RAM_START + i) 14)
              m in
  m' = set_memory m (memory m') /\
  forall a, memory m' a =
    if (SCREEN_MEMORY_START <=? a) && (a <? SCREEN_MEMORY_START + Z.of_nat count) then 32
    else if (COLOR_RAM_START <=? a) && (a <? COLOR_RAM_START + Z.of_nat count)
            && colour_writable m
    then 14 else memory m a.
Proof.
  intros Hc.
  pose (P := fun (i : Z) (m' : Memory) =>
    m' = set_memory m (memory m') /\
    forall a, memory m' a =
      if (SCREEN_MEMORY_START <=? a) && (a <? SCREEN_MEMORY_START + i) then 32
      else if (COLOR_RAM_START <=? a) && (a <? COLOR_RAM_START + i) && colour_writable m
      then 14 else memory m a).
  change (P (0 + Z.of_nat count) (for_loop count 0
              (fun i m =>
                 let m := memory_write m (SCREEN_MEMORY_START + i) 32 in
                 memory_write m (COLOR_RAM_START + i) 14) m)).
  apply for_loop_invariant.
  - split; [destruct m; reflexivity|].
    intros a. unfold SCREEN_MEMORY_START, COLOR_RAM_START. zbool.
  - intros i m1 Hi [Hrec Hmem]. cbv zeta.
    unfold SCREEN_MEMORY_START, COLOR_RAM_START in *.
    rewrite (memory_write_plain m1 (0x0400 + i) 32) by lia.
    rewrite memory_write_cases by lia.
    set (ram1 := store (memory m1) (0x0400 + i) (u8 32)).
    assert (Hd : write_dropped (set_memory m1 ram1) (0xD800 + i) =
                 negb (colour_writable m)).
    { rewrite Hrec. unfold write_dropped, colour_writable, in_basic, in_kernal, in_io,
        BASIC_ROM_START, BASIC_ROM_END, KERNAL_ROM_START, KERNAL_ROM_END,
        IO_REGION_START, IO_REGION_END.
      cbn [basic_rom_enabled kernal_rom_enabled io_enabled char_rom_enabled set_memory].
      zbool. destruct (io_enabled m), (char_rom_enabled m); reflexivity. }
    rewrite Hd.
    destruct (colour_writable m); cbn [negb].
    + split; [rewrite Hrec; reflexivity|].
      intros a. cbn [memory set_memory]. unfold ram1, store. rewrite Hmem.
      change (u8 32) with 32. change (u8 14) with 14. zbool.
    + split; [rewrite Hrec; reflexivity|].
      intros a. cbn [memory set_memory]. unfold ram1, store. rewrite Hmem.
      change (u8 32) with 32. zbool.
Qed.

(** X22: with a current table, after [io_clear_screen] the 1000 cells of
    screen memory read as 32 and the buffer [screen_data] holds 32
    throughout; the 1000 cells of colour RAM read as 14 unless the character
    ROM is banked in over them, in which case those writes are dropped; no
    other address reads differently, and the banking and the colour buffer are
    as before. *)
Theorem io_clear_screen_effect (io : IO) (m : Memory) :
  maps_current m ->
  let r := io_clear_screen io m in
  (forall a, 0 <= a < 65536 ->
     memory_read (snd r) a =
     if on_screen a then 32
     else if in_colour a && colour_writable m then 14
     else memory_read m a) /\
  (forall i, screen_data (fst r) i =
             if (0 <=? i) && (i <? 1000) then 32 else screen_data io i) /\
  color_data (fst r) = color_data io /\
  snd r = set_memory m (memory (snd r)) /\
  maps_current (snd r).
Proof.
  intros Hm r.
  destruct (clear_loop m 1000 ltac:(lia)) as [Hrec Hmem].
  assert (Hfst : fst r = set_screen_data io (memset (screen_data io) 32 (40 * 25)))
    by reflexivity.
  assert (Hsnd : snd r = for_loop 1000 0
                   (fun i m =>
                      let m := memory_write m (SCREEN_MEMORY_START + i) 32 in
                      memory_write m (COLOR_RAM_START + i) 14) m)
    by reflexivity.
  rewrite Hfst, Hsnd. clear Hfst Hsnd r.
  set (m' := for_loop 1000 0 _ m) in *. clearbody m'.
  assert (Hcur : maps_current m')
    by (rewrite Hrec; apply maps_current_set_memory, Hm).
  split; [|split; [|split; [|split]]].
  - intros a Ha.
    rewrite !memory_read_current by assumption.
    unfold visible. rewrite !Hmem. rewrite Hrec.
    cbn [io_enabled char_rom_enabled kernal_rom_enabled basic_rom_enabled set_memory
         basic_rom kernal_rom char_rom].
    change (Z.of_nat 1000) with 1000.
    unfold on_screen, in_colour, colour_writable, in_io, in_kernal, in_basic,
      SCREEN_MEMORY_START, COLOR_RAM_START, BASIC_ROM_START, BASIC_ROM_END,
      KERNAL_ROM_START, KERNAL_ROM_END, IO_REGION_START, IO_REGION_END.
    destruct (io_enabled m), (char_rom_enabled m), (kernal_rom_enabled m),
      (basic_rom_enabled m); zbool.
  - intros i. reflexivity.
  - reflexivity.
  - exact Hrec.
  - exact Hcur.
Qed.

Lemma io_clear_screen_effect_init :
  memory_read (snd (io_clear_screen io_power_on (memory_init power_on))) 0x0400 = 32 /\
  memory_read (snd (io_clear_screen io_power_on (memory_init power_on))) 0xD800 = 14.
Proof.
  destruct (io_clear_screen_effect io_power_on (memory_init power_on)
              (memory_init_current power_on)) as (H & _).
  split.
  - rewrite H by lia. reflexivity.
  - rewrite H by lia. reflexivity.
Defined.

Lemma petscii_of_byte (c : Z) : u8 (petscii_of c) = petscii_of c.
Proof. unfold petscii_of. apply u8_small, u8_range. Qed.

(** The loop of [io_print_text] after [count] rounds. *)
Lemma print_loop (io : IO) (m : Memory) (pos : Z) (text : list Z) (count : nat) :
  0 <= pos -> pos + Z.of_nat count <= 1000 ->
  let r := for_loop count 0
             (fun i (st : IO * Memory) =>
                let (io, m) := st in
                let c := nth (Z.to_nat i) text 0 in
                let petscii := petscii_of c in
                let m := memory_write m (SCREEN_MEMORY_START + pos + i) petscii in
                let io := set_screen_data io (store (screen_data io) (pos + i) petscii) in
                (io, m))
             (io, m) in
  fst r = set_screen_data io (screen_data (fst r)) /\
  snd r = set_memory m (memory (snd r)) /\
  (forall j, screen_data (fst r) j =
     if (pos <=? j) && (j <? pos + Z.of_nat count)
     then petscii_of (nth (Z.to_nat (j - pos)) text 0)
     else screen_data io j) /\
  (forall a, memory (snd r) a =
     if (SCREEN_MEMORY_START + pos <=? a) && (a <? SCREEN_MEMORY_START + pos + Z.of_nat count)
     then petscii_of (nth (Z.to_nat (a - SCREEN_MEMORY_START - pos)) text 0)
     else memory m a).
Proof.
  intros Hp Hc.
  pose (P := fun (i : Z) (r : IO * Memory) =>
    fst r = set_screen_data io (screen_data (fst r)) /\
    snd r = set_memory m (memory (snd r)) /\
    (forall j, screen_data (fst r) j =
       if (pos <=? j) && (j <? pos + i)
       then petscii_of (nth (Z.to_nat (j - pos)) text 0)
       else screen_data io j) /\
    (forall a, memory (snd r) a =
       if (SCREEN_MEMORY_START + pos <=? a) && (a <? SCREEN_MEMORY_START + pos + i)
       then petscii_of (nth (Z.to_nat (a - SCREEN_MEMORY_START - pos)) text 0)
       else memory m a)).
  cbv zeta.
  match goal with
  | |- context [for_loop count 0 ?body (io, m)] =>
      change (P (0 + Z.of_nat count) (for_loop count 0 body (io, m)))
  end.
  apply for_loop_invariant.
  - unfold P. cbn [fst snd]. split; [destruct io; reflexivity|].
    split; [destruct m; reflexivity|]. split; intros; zbool.
  - intros i [io1 m1] Hi (Hio & Hrec & Hscr & Hmem). unfold P in *.
    cbn [fst snd] in *. unfold SCREEN_MEMORY_START in *.
    rewrite (memory_write_plain m1 (0x0400 + pos + i)) by lia.
    rewrite petscii_of_byte.
    cbn [fst snd screen_data set_screen_data memory set_memory].
    split; [rewrite Hio; reflexivity|]. split; [rewrite Hrec; reflexivity|].
    split.
    + intros j. unfold store. rewrite Hscr. zbool.
      replace (j - pos) with i by lia. reflexivity.
    + intros a. unfold store. rewrite Hmem. zbool.
      replace (a - 0x0400 - pos) with i by lia. reflexivity.
Qed.

Lemma io_print_text_unfold (io : IO) (m : Memory) (x y : Z) (text : list Z) :
  0 <= x < 40 -> 0 <= y < 25 ->
  Z.of_nat (length text) < 65536 ->
  let pos := y * 40 + x in
  io_print_text io m x y text =
  for_loop (Z.to_nat (Z.min (Z.of_nat (length text)) (1000 - pos))) 0
    (fun i (st : IO * Memory) =>
       let (io, m) := st in
       let c := nth (Z.to_nat i) text 0 in
       let petscii := petscii_of c in
       let m := memory_write m (SCREEN_MEMORY_START + pos + i) petscii in
       let io := set_screen_data io (store (screen_data io) (pos + i) petscii) in
       (io, m))
    (io, m).
Proof.
  intros Hx Hy Hlen pos.
  unfold io_print_text. cbv zeta.
  rewrite (u8_small x), (u8_small y), !Z.geb_leb by lia.
  rewrite (proj2 (Z.leb_gt 40 x)), (proj2 (Z.leb_gt 25 y)) by lia. cbn [orb].
  fold pos.
  assert (Hpos : 0 <= pos < 1000) by (unfold pos; lia).
  rewrite (u16_small pos) by lia.
  rewrite (u16_small (Z.of_nat (length text))) by lia.
  assert (Hn : (if pos + Z.of_nat (length text) >? 1000
                then u16 (1000 - pos) else Z.of_nat (length text)) =
               Z.min (Z.of_nat (length text)) (1000 - pos)).
  { rewrite Z.gtb_ltb. destruct (Z.ltb_spec 1000 (pos + Z.of_nat (length text))).
    - rewrite u16_small by lia. lia.
    - lia. }
  rewrite Hn. reflexivity.
Qed.

Lemma io_print_text_screen_data (io : IO) (m : Memory) (x y : Z) (text : list Z) :
  0 <= x < 40 -> 0 <= y < 25 ->
  Z.of_nat (length text) < 65536 ->
  let pos := y * 40 + x in
  let n := Z.min (Z.of_nat (length text)) (1000 - pos) in
  forall j, screen_data (fst (io_print_text io m x y text)) j =
    if (pos <=? j) && (j <? pos + n)
    then petscii_of (nth (Z.to_nat (j - pos)) text 0)
    else screen_data io j.
Proof.
  intros Hx Hy Hlen pos n.
  rewrite (io_print_text_unfold io m x y text Hx Hy Hlen). cbv zeta. fold pos n.
  assert (Hn0 : 0 <= n <= 1000 - pos) by (unfold n, pos; lia).
  destruct (print_loop io m pos text (Z.to_nat n) ltac:(unfold pos; lia) ltac:(lia))
    as (_ & _ & Hscr & _).
  rewrite Z2Nat.id in Hscr by lia. exact Hscr.
Qed.

(** X23: [io_print_text] at a column from 40 or a row from 25 changes
    nothing. Otherwise, for a text of fewer than 65536 characters, it
    writes the converted characters from cell
    [y * 40 + x] on, cut off at the last cell of the screen: the same bytes
    go to [screen_data] and to screen memory at [$0400], where they are read
    back, and no other cell and no other address changes. *)
Theorem io_print_text_effect (io : IO) (m : Memory) (x y : Z) (text : list Z) :
  maps_built m ->
  0 <= x < 256 -> 0 <= y < 256 ->
  Z.of_nat (length text) < 65536 ->
  let r := io_print_text io m x y text in
  let pos := y * 40 + x in
  let n := Z.min (Z.of_nat (length text)) (1000 - pos) in
  if (40 <=? x) || (25 <=? y) then r = (io, m)
  else
    (forall j, screen_data (fst r) j =
       if (pos <=? j) && (j <? pos + n)
       then petscii_of (nth (Z.to_nat (j - pos)) text 0)
       else screen_data io j) /\
    (forall a, 0 <= a < 65536 ->
       memory_read (snd r) a =
       if (SCREEN_MEMORY_START + pos <=? a) && (a <? SCREEN_MEMORY_START + pos + n)
       then petscii_of (nth (Z.to_nat (a - SCREEN_MEMORY_START - pos)) text 0)
       else memory_read m a) /\
    fst r = set_screen_data io (screen_data (fst r)) /\
    snd r = set_memory m (memory (snd r)).
Proof.
  intros Hm Hx Hy Hlen r pos n.
  unfold r, io_print_text. cbv zeta.
  rewrite (u8_small x Hx), (u8_small y Hy), !Z.geb_leb.
  destruct ((40 <=? x) || (25 <=? y)) eqn:B; [reflexivity|].
  apply orb_false_elim in B. destruct B as [Bx By].
  apply Z.leb_gt in Bx, By. fold pos.
  assert (Hpos : 0 <= pos < 1000) by (unfold pos; lia).
  rewrite (u16_small pos) by lia.
  rewrite (u16_small (Z.of_nat (length text))) by lia.
  assert (Hn : (if pos + Z.of_nat (length text) >? 1000
                then u16 (1000 - pos) else Z.of_nat (length text)) = n).
  { unfold n. rewrite Z.gtb_ltb. destruct (Z.ltb_spec 1000 (pos + Z.of_nat (length text))).
    - rewrite u16_small by lia. lia.
    - lia. }
  rewrite Hn.
  assert (Hn0 : 0 <= n <= 1000 - pos) by (unfold n; lia).
  destruct (print_loop io m pos text (Z.to_nat n) ltac:(lia) ltac:(lia))
    as (Hio & Hrec & Hscr & Hmem).
  rewrite Z2Nat.id in Hscr, Hmem by lia.
  set (r' := for_loop (Z.to_nat n) 0 _ (io, m)) in *. clearbody r'.
  split; [exact Hscr|]. split; [|split; assumption].
  intros a Ha. rewrite Hrec.
  unfold SCREEN_MEMORY_START in *.
  destruct ((0x0400 + pos <=? a) && (a <? 0x0400 + pos + n)) eqn:E.
  - apply andb_prop in E. destruct E as [E1 E2].
    apply Z.leb_le in E1. apply Z.ltb_lt in E2.
    rewrite memory_read_plain by (try apply maps_built_set_memory; try assumption; lia).
    cbn [memory set_memory]. rewrite Hmem, (proj2 (Z.leb_le _ _) E1), (proj2 (Z.ltb_lt _ _) E2).
    reflexivity.
  - apply memory_read_set_memory; [assumption..|].
    rewrite Hmem, E. reflexivity.
Qed.

Lemma io_print_text_effect_example :
  memory_read (snd (io_print_text io_power_on (memory_init power_on) 38 24 [104; 105; 33]))
              0x07E7 = 9 /\
  screen_data (fst (io_print_text io_power_on (memory_init power_on) 38 24 [104; 105; 33]))
              1000 = 0 /\
  io_print_text io_power_on (memory_init power_on) 40 0 [104] =
    (io_power_on, memory_init power_on).
Proof.
  assert (Hm : maps_built (memory_init power_on))
    by exact (maps_current_built _ (memory_init_current power_on)).
  pose proof (io_print_text_effect io_power_on (memory_init power_on) 38 24 [104; 105; 33]
                Hm ltac:(lia) ltac:(lia) ltac:(cbn; lia)) as H1.
  pose proof (io_print_text_effect io_power_on (memory_init power_on) 40 0 [104]
                Hm ltac:(lia) ltac:(lia) ltac:(cbn; lia)) as H2.
  cbv zeta in H1, H2.
  change ((40 <=? 38) || (25 <=? 24)) with false in H1.
  change ((40 <=? 40) || (25 <=? 0)) with true in H2.
  cbv iota in H1, H2.
  destruct H1 as (Hscr & Hmem & _).
  split; [|split].
  - rewrite Hmem by lia. reflexivity.
  - rewrite Hscr. reflexivity.
  - exact H2.
Defined.

(** ** The display *)

Lemma for_loop_concat {A : Type} (g : Z -> list A) (count : nat) :
  forall first out,
    for_loop count first (fun y out => out ++ g y) out =
    out ++ concat (map g (map (fun k => first + Z.of_nat k) (seq 0 count))).
Proof.
  induction count as [|count IH]; intros first out.
  - cbn. rewrite app_nil_r. reflexivity.
  - cbn [for_loop]. rewrite IH. cbn [seq map concat].
    rewrite <- app_assoc, Z.add_0_r, <- seq_shift, !map_map.
    rewrite (map_ext (fun x => g (first + 1 + Z.of_nat x))
                     (fun x => g (first + Z.of_nat (S x))))
      by (intros k; f_equal; lia).
    reflexivity.
Qed.

Lemma nth_concat {A : Type} (d : A) (w : nat) (ls : list (list A)) :
  Forall (fun l => length l = w) ls ->
  forall i j, (j < w)%nat -> (i < length ls)%nat ->
    nth (i * w + j) (concat ls) d = nth j (nth i ls []) d.
Proof.
  intros H. induction H as [|l ls Hl _ IH]; intros i j Hj Hi.
  - cbn in Hi. lia.
  - cbn [concat]. destruct i as [|i].
    + cbn [Nat.mul Nat.add nth]. apply app_nth1. lia.
    + cbn [length] in Hi. cbn [nth].
      rewrite app_nth2 by (cbn [Nat.mul]; lia).
      replace (S i * w + j - length l)%nat with (i * w + j)%nat by (cbn [Nat.mul]; lia).
      apply IH; lia.
Qed.

Lemma nth_range (first : Z) (count i : nat) (d : Z) :
  (i < count)%nat ->
  nth i (map (fun k => first + Z.of_nat k) (seq 0 count)) d = first + Z.of_nat i.
Proof.
  intros H.
  rewrite (nth_indep _ d (first + Z.of_nat 0)) by (rewrite length_map, length_seq; lia).
  rewrite (map_nth (fun k => first + Z.of_nat k)), seq_nth by assumption.
  reflexivity.
Qed.

Lemma for_loop_ext {A : Type} (body body' : Z -> A -> A) (count : nat) :
  (forall i a, body i a = body' i a) ->
  forall first acc, for_loop count first body acc = for_loop count first body' acc.
Proof.
  intros H. induction count as [|count IH]; intros first acc; [reflexivity|].
  cbn [for_loop]. rewrite H. apply IH.
Qed.

Lemma io_update_display_lines (io : IO) :
  io_update_display io =
  [27; 91; 50; 74; 27; 91; 72] ++
  concat (map (fun y =>
                 map (fun x => ascii_of (screen_data io (y * 40 + x)))
                     (map (fun k => 0 + Z.of_nat k) (seq 0 40)) ++ [10])
              (map (fun k => 0 + Z.of_nat k) (seq 0 25))).
Proof.
  unfold io_update_display. cbv zeta.
  rewrite <- for_loop_concat.
  apply for_loop_ext. intros y out.
  pose proof (for_loop_concat (fun x => [ascii_of (screen_data io (y * 40 + x))])
                40 0 out) as Hs.
  cbv beta in Hs. rewrite Hs. clear Hs.
  rewrite <- app_assoc. reflexivity.
Qed.

Lemma ascii_of_cases (ch : Z) :
  (ascii_of ch = ch + 96 /\ 1 <= ch <= 26) \/
  (ascii_of ch = ch /\ 65 <= ch <= 90) \/
  (ascii_of ch = ch - 96 /\ 193 <= ch <= 218) \/
  ascii_of ch = 32 \/ ascii_of ch = 46.
Proof. unfold ascii_of. zbool; lia. Qed.

Lemma display_row (io : IO) (k : Z) (j : nat) :
  0 <= k < 1000 -> (j < 41)%nat ->
  nth (Z.to_nat (7 + 41 * (k / 40)) + j) (io_update_display io) 0 =
  nth j (map (fun x => ascii_of (screen_data io (k / 40 * 40 + x)))
             (map (fun k => 0 + Z.of_nat k) (seq 0 40)) ++ [10]) 0.
Proof.
  intros Hk Hj.
  assert (Hq : 0 <= k / 40 < 25) by (split; [apply Z.div_pos|apply Z.div_lt_upper_bound]; lia).
  set (g := fun y => map (fun x => ascii_of (screen_data io (y * 40 + x)))
                         (map (fun k => 0 + Z.of_nat k) (seq 0 40)) ++ [10]).
  set (rows := map (fun k => 0 + Z.of_nat k) (seq 0 25)).
  assert (Hw : Forall (fun l => length l = 41%nat) (map g rows)).
  { apply Forall_forall. intros l Hl. apply in_map_iff in Hl. destruct Hl as (y & <- & _).
    unfold g. rewrite length_app, !length_map, length_seq. reflexivity. }
  assert (Hlen : length (map g rows) = 25%nat)
    by (unfold rows; rewrite !length_map, length_seq; reflexivity).
  assert (Hrow : nth (Z.to_nat (k / 40)) (map g rows) [] = g (k / 40)).
  { rewrite (nth_indep _ [] (g 0)) by lia.
    rewrite (map_nth g). unfold rows. rewrite nth_range by lia. f_equal. lia. }
  rewrite io_update_display_lines. fold g rows.
  rewrite app_nth2 by (cbn [length]; lia). cbn [length].
  replace (Z.to_nat (7 + 41 * (k / 40)) + j - 7)%nat
    with (Z.to_nat (k / 40) * 41 + j)%nat by lia.
  rewrite (nth_concat 0 41 _ Hw) by lia. rewrite Hrow. reflexivity.
Qed.

Lemma display_cell (io : IO) (k : Z) :
  0 <= k < 1000 ->
  nth (display_offset k) (io_update_display io) 0 = ascii_of (screen_data io k).
Proof.
  intros Hk.
  assert (Hq : 0 <= k / 40 < 25) by (split; [apply Z.div_pos|apply Z.div_lt_upper_bound]; lia).
  pose proof (Z.mod_pos_bound k 40 ltac:(lia)) as Hr.
  pose proof (Z.div_mod k 40 ltac:(lia)) as Hdm.
  unfold display_offset.
  replace (Z.to_nat (7 + 41 * (k / 40) + k mod 40))
    with (Z.to_nat (7 + 41 * (k / 40)) + Z.to_nat (k mod 40))%nat by lia.
  rewrite display_row by lia.
  rewrite app_nth1 by (rewrite !length_map, length_seq; lia).
  rewrite (nth_indep _ 0 (ascii_of (screen_data io (k / 40 * 40 + 0))))
    by (rewrite !length_map, length_seq; lia).
  rewrite (map_nth (fun x => ascii_of (screen_data io (k / 40 * 40 + x)))).
  rewrite nth_range by lia. do 2 f_equal. lia.
Qed.

Lemma display_length (io : IO) : length (io_update_display io) = 1032%nat.
Proof.
  rewrite io_update_display_lines.
  set (g := fun y => map (fun x => ascii_of (screen_data io (y * 40 + x)))
                         (map (fun k => 0 + Z.of_nat k) (seq 0 40)) ++ [10]).
  set (rows := map (fun k => 0 + Z.of_nat k) (seq 0 25)).
  assert (Hw : Forall (fun l => length l = 41%nat) (map g rows)).
  { apply Forall_forall. intros l Hl. apply in_map_iff in Hl. destruct Hl as (y & <- & _).
    unfold g. rewrite length_app, !length_map, length_seq. reflexivity. }
  assert (Hlen : length (map g rows) = 25%nat)
    by (unfold rows; rewrite !length_map, length_seq; reflexivity).
  assert (Hsum : forall ls : list (list Z),
            Forall (fun l => length l = 41%nat) ls ->
            length (concat ls) = (41 * length ls)%nat).
  { intros ls H. induction H as [|l ls Hl _ IH]; [reflexivity|].
    cbn [concat length]. rewrite length_app, IH, Hl. lia. }
  rewrite length_app, (Hsum _ Hw), Hlen. reflexivity.
Qed.

(** X24: [io_update_display] prints 1032 characters: the 7 of the escape
    sequence, then for each of the 25 rows the 40 cells of [screen_data]
    converted, and a newline. The character for cell [k] is at position
    [7 + 41 * (k / 40) + k mod 40]; every character printed for a cell is a
    letter, a space or a dot; the first 7 characters are the codes 27, 91,
    50, 74, 27, 91, 72 of the escape sequence. *)
Theorem io_update_display_cells (io : IO) (k : Z) :
  0 <= k < 1000 ->
  let out := io_update_display io in
  length out = 1032%nat /\
  nth (display_offset k) out 0 = ascii_of (screen_data io k) /\
  (let c := nth (display_offset k) out 0 in is_letter c || (c =? 32) || (c =? 46) = true) /\
  (k mod 40 = 39 -> nth (S (display_offset k)) out 0 = 10) /\
  firstn 7 out = [27; 91; 50; 74; 27; 91; 72].
Proof.
  intros Hk out. unfold out. clear out.
  assert (Hq : 0 <= k / 40 < 25) by (split; [apply Z.div_pos|apply Z.div_lt_upper_bound]; lia).
  split; [apply display_length|]. split; [apply display_cell, Hk|].
  split; [|split; [|rewrite io_update_display_lines; reflexivity]].
  - cbv zeta. rewrite display_cell by assumption.
    destruct (ascii_of_cases (screen_data io k)) as [[E H]|[[E H]|[[E H]|[E|E]]]];
      rewrite E; unfold is_letter; zbool.
  - intros H39. unfold display_offset.
    replace (S (Z.to_nat (7 + 41 * (k / 40) + k mod 40)))
      with (Z.to_nat (7 + 41 * (k / 40)) + 40)%nat by lia.
    rewrite display_row by lia.
    rewrite app_nth2 by (rewrite !length_map, length_seq; lia).
    rewrite !length_map, length_seq. reflexivity.
Qed.

Lemma io_update_display_cells_example :
  length (io_update_display io_power_on) = 1032%nat /\
  nth (display_offset 999) (io_update_display io_power_on) 0 =
    ascii_of (screen_data io_power_on 999).
Proof.
  pose proof (io_update_display_cells io_power_on 999 ltac:(lia)) as (H1 & H2 & _).
  split; assumption.
Defined.

Lemma shown_character (c : Z) :
  32 <= c < 127 ->
  ascii_of (petscii_of c) = if is_letter c || (c =? 32) then c else 46.
Proof.
  intros H.
  assert (E : petscii_of c = if (97 <=? c) && (c <=? 122) then c - 96 else c).
  { unfold petscii_of. rewrite !Z.geb_leb.
    destruct ((97 <=? c) && (c <=? 122)) eqn:E1.
    - apply andb_prop in E1. destruct E1 as [A B].
      apply Z.leb_le in A, B. apply u8_small. lia.
    - replace (if (65 <=? c) && (c <=? 90) then c - (65 - 65)
               else if (48 <=? c) && (c <=? 57) then c else if c =? 32 then 32 else c)
        with c by zbool.
      apply u8_small. lia. }
  rewrite E. clear E. unfold ascii_of, is_letter. rewrite !Z.geb_leb.
  destruct (Z.leb_spec 97 c), (Z.leb_spec c 122); cbn [andb orb]; zbool.
Qed.

(** X25: a printable ASCII character that [io_print_text] puts on the screen
    comes out of [io_update_display], at the position of its cell, as
    itself when it is a letter or a space, and as a dot otherwise: digits
    and punctuation are stored but not rendered. *)
Theorem printed_text_displayed (io : IO) (m : Memory) (x y : Z) (text : list Z) (i : Z) :
  0 <= x < 40 -> 0 <= y < 25 ->
  Z.of_nat (length text) < 65536 ->
  0 <= i < Z.of_nat (length text) ->
  y * 40 + x + i < 1000 ->
  let c := nth (Z.to_nat i) text 0 in
  32 <= c < 127 ->
  nth (display_offset (y * 40 + x + i))
      (io_update_display (fst (io_print_text io m x y text))) 0 =
  if is_letter c || (c =? 32) then c else 46.
Proof.
  intros Hx Hy Hlen Hi Hcell c Hc.
  rewrite display_cell by lia.
  rewrite (io_print_text_screen_data io m x y text Hx Hy Hlen). cbv zeta.
  rewrite (proj2 (Z.leb_le _ _)) by lia.
  rewrite (proj2 (Z.ltb_lt _ _)) by lia. cbn [andb].
  replace (y * 40 + x + i - (y * 40 + x)) with i by lia.
  apply shown_character. exact Hc.
Qed.

Lemma printed_text_displayed_example :
  nth (display_offset 1)
      (io_update_display (fst (io_print_text io_power_on power_on 0 0 [67; 54; 52]))) 0 = 46 /\
  nth (display_offset 0)
      (io_update_display (fst (io_print_text io_power_on power_on 0 0 [67; 54; 52]))) 0 = 67.
Proof.
  split.
  - exact (printed_text_displayed io_power_on power_on 0 0 [67; 54; 52] 1
             ltac:(lia) ltac:(lia) ltac:(closed_bounds) ltac:(closed_bounds) ltac:(lia)
             ltac:(closed_bounds)).
  - exact (printed_text_displayed io_power_on power_on 0 0 [67; 54; 52] 0
             ltac:(lia) ltac:(lia) ltac:(closed_bounds) ltac:(closed_bounds) ltac:(lia)
             ltac:(closed_bounds)).
Defined.

(** ** Start-up *)

Lemma memory_ready_init (m : Memory) : memory_ready (memory_init m).
Proof.
  unfold memory_ready.
  split; [reflexivity|]. split; [reflexivity|]. split; [reflexivity|].
  split; [reflexivity|]. split; [apply memory_init_current|apply memory_bytes_init].
Qed.

Lemma memory_ready_set_memory (m : Memory) (ram : array) :
  memory_ready m -> bytes_upto ram MEMORY_SIZE -> memory_ready (set_memory m ram).
Proof.
  intros (H1 & H2 & H3 & H4 & H5 & H6) Hr. unfold memory_ready.
  cbn [basic_rom_enabled kernal_rom_enabled char_rom_enabled io_enabled set_memory].
  split; [exact H1|]. split; [exact H2|]. split; [exact H3|]. split; [exact H4|].
  split; [apply maps_current_set_memory, H5|apply memory_bytes_set_memory; assumption].
Qed.

(** One ROM file: the RAM and the flags stay, the image named takes the
    file's bytes. *)
Lemma rom_file_loaded (m : Memory) (file : option (list Z)) (rom_buffer : Bank)
                      (rom_size : Z) :
  rom_buffer <> RAM ->
  memory_ready m -> file_bytes file ->
  let m' := snd (memory_load_rom m file rom_buffer rom_size) in
  memory_ready m' /\
  memory m' = memory m /\
  (forall b, b <> rom_buffer -> bank_array m' b = bank_array m b) /\
  bank_array m' rom_buffer =
    match file with
    | None => bank_array m rom_buffer
    | Some bytes =>
        memcpy (bank_array m rom_buffer) 0 bytes
               (Z.min rom_size (Z.of_nat (length bytes)))
    end.
Proof.
  intros N (H1 & H2 & H3 & H4 & H5 & H6) Hf m'.
  destruct file as [bytes|]; cbn [memory_load_rom snd] in m'.
  - cbv zeta in m'.
    set (n := Z.min rom_size (Z.of_nat (length bytes))) in *.
    set (m1 := set_bank_array m rom_buffer (memcpy (bank_array m rom_buffer) 0 bytes n)) in *.
    destruct (update_memory_maps_fields m1) as (Fm & _ & _ & _ & Fb & Fk & Fc & Fi).
    assert (Hb : memory_bytes m1).
    { destruct H6 as (B1 & B2 & B3 & B4). cbn [file_bytes] in Hf.
      unfold m1, memory_bytes.
      destruct rom_buffer; try (exfalso; exact (N eq_refl));
        cbn [set_bank_array bank_array memory basic_rom kernal_rom char_rom];
        (split; [|split; [|split]]); try assumption;
        apply bytes_upto_memcpy; assumption. }
    split; [|split; [|split]].
    + unfold memory_ready, m'. rewrite Fb, Fk, Fc, Fi.
      split; [unfold m1; destruct rom_buffer; exact H1|].
      split; [unfold m1; destruct rom_buffer; exact H2|].
      split; [unfold m1; destruct rom_buffer; exact H3|].
      split; [unfold m1; destruct rom_buffer; exact H4|].
      split; [apply update_memory_maps_current|].
      destruct (update_memory_maps_fields m1) as (G1 & G2 & G3 & G4 & _).
      unfold memory_bytes. rewrite G1, G2, G3, G4. exact Hb.
    + unfold m'. rewrite Fm. unfold m1.
      destruct rom_buffer; try (exfalso; exact (N eq_refl)); reflexivity.
    + intros b Nb. unfold m'. rewrite bank_array_update_memory_maps. unfold m1.
      destruct rom_buffer, b; try (exfalso; exact (Nb eq_refl)); reflexivity.
    + unfold m'. rewrite bank_array_update_memory_maps. unfold m1.
      destruct rom_buffer; reflexivity.
  - unfold m'.
    split; [unfold memory_ready; tauto|]. split; [reflexivity|].
    split; [intros; reflexivity|reflexivity].
Qed.

Lemma load_roms_state (m : Memory) (basic_file kernal_file char_file : option (list Z)) :
  memory_ready m ->
  file_bytes basic_file -> file_bytes kernal_file -> file_bytes char_file ->
  let m' := load_roms m basic_file kernal_file char_file in
  memory_ready m' /\
  memory m' = memory m /\
  kernal_rom m' =
    match kernal_file with
    | None => kernal_rom m
    | Some bytes =>
        memcpy (kernal_rom m) 0 bytes (Z.min 8192 (Z.of_nat (length bytes)))
    end.
Proof.
  intros Hm Hb Hk Hc m'.
  destruct (rom_file_loaded m basic_file BASIC 8192 ltac:(discriminate) Hm Hb)
    as (R1 & M1 & O1 & _).
  set (m1 := snd (memory_load_rom m basic_file BASIC 8192)) in *.
  destruct (rom_file_loaded m1 kernal_file KERNAL 8192 ltac:(discriminate) R1 Hk)
    as (R2 & M2 & _ & K2).
  set (m2 := snd (memory_load_rom m1 kernal_file KERNAL 8192)) in *.
  destruct (rom_file_loaded m2 char_file CHAR 4096 ltac:(discriminate) R2 Hc)
    as (R3 & M3 & O3 & _).
  set (m3 := snd (memory_load_rom m2 char_file CHAR 4096)) in *.
  assert (E : m' = m3).
  { unfold m', load_roms, memory_load_basic_rom, memory_load_kernal_rom,
      memory_load_char_rom.
    fold m1. destruct (memory_load_rom m basic_file BASIC 8192) as [r1 x1].
    cbn [snd] in m1. subst m1. fold m2.
    destruct (memory_load_rom x1 kernal_file KERNAL 8192) as [r2 x2].
    cbn [snd] in m2. subst m2. fold m3.
    destruct (memory_load_rom x2 char_file CHAR 4096) as [r3 x3]. reflexivity. }
  rewrite E. split; [exact R3|]. split; [rewrite M3, M2, M1; reflexivity|].
  change (kernal_rom m3) with (bank_array m3 KERNAL).
  rewrite (O3 KERNAL ltac:(discriminate)), K2.
  change (bank_array m1 KERNAL) with (kernal_rom m1).
  change (kernal_rom m1) with (bank_array m1 KERNAL).
  rewrite (O1 KERNAL ltac:(discriminate)). reflexivity.
Qed.

Lemma memory_load_inside (m : Memory) (address : Z) (data : list Z) (length : Z) :
  0 <= address < 65536 -> 0 <= length < 65536 -> address + length <= 65536 ->
  memory_load m address data length = set_memory m (memcpy (memory m) address data length).
Proof.
  intros Ha Hl Hs. unfold memory_load, MEMORY_SIZE. cbv zeta.
  rewrite (u16_small address), (u16_small length) by lia.
  rewrite Z.gtb_ltb, (proj2 (Z.ltb_ge _ _)) by lia. reflexivity.
Qed.

(** [init_emulator] as the composition of its steps. *)
Lemma init_emulator_steps (e : Emulator)
                          (basic_file kernal_file char_file : option (list Z)) :
  let s := emu_machine e in
  let m1 := load_roms (memory_init (mem s)) basic_file kernal_file char_file in
  let m2 := for_loop 1000 0
              (fun i m =>
                 let m := memory_write m (SCREEN_MEMORY_START + i) 32 in
                 memory_write m (COLOR_RAM_START + i) 14)
              m1 in
  let m3 := memory_load m2 0x0800 Main.basic_rom 7 in
  let m4 := memory_write (memory_write m3 0xFFFC 0x00) 0xFFFD 0x08 in
  emu_machine (init_emulator e basic_file kernal_file char_file) =
    cpu_reset (set_mem (cpu_init (set_mem s m1)) m4) /\
  running (emu_shell (init_emulator e basic_file kernal_file char_file)) = 1.
Proof. split; reflexivity. Qed.

(** X26: after [init_emulator], whatever state it started from and
    whatever the ROM files hold, the two writes that should point the reset
    vector at the start-up program have been dropped, because the KERNAL ROM
    is banked in: the KERNAL image is as [load_roms] left it (the bytes of
    the KERNAL file as far as the file reaches), the reads of [$FFFC] and
    [$FFFD] return the image's bytes at [$1FFC] and [$1FFD], and [cpu_reset]
    has loaded [pc] from them, with [a], [x], [y] 0, [sp = $FD], I set, the
    other flags clear and the counter 0. The start-up program is at [$0800],
    the screen cells read 32, the colour cells 14, and the machine is well
    formed. *)
Theorem init_emulator_state (e : Emulator)
                            (basic_file kernal_file char_file : option (list Z)) :
  file_bytes basic_file -> file_bytes kernal_file -> file_bytes char_file ->
  let loaded := load_roms (memory_init (mem (emu_machine e)))
                          basic_file kernal_file char_file in
  let s := emu_machine (init_emulator e basic_file kernal_file char_file) in
  let m := mem s in
  kernal_rom m = kernal_rom loaded /\
  (forall bytes i, kernal_file = Some bytes ->
     0 <= i < 8192 -> i < Z.of_nat (length bytes) ->
     kernal_rom loaded i = nth (Z.to_nat i) bytes 0) /\
  memory_read m 0xFFFC = kernal_rom loaded 0x1FFC /\
  memory_read m 0xFFFD = kernal_rom loaded 0x1FFD /\
  cpu s = mkCPU (memory_read m 0xFFFC + 256 * memory_read m 0xFFFD)
                0 0 0 0xFD 0 0 1 0 0 0 0 /\
  cycles s = 0 /\
  (forall i, 0 <= i < 7 ->
     memory_read m (0x0800 + i) = nth (Z.to_nat i) Main.basic_rom 0) /\
  (forall i, 0 <= i < 1000 ->
     memory_read m (SCREEN_MEMORY_START + i) = 32 /\
     memory_read m (COLOR_RAM_START + i) = 14) /\
  machine_wf s.
Proof.
  intros Hb Hk Hc loaded s m.
  destruct (init_emulator_steps e basic_file kernal_file char_file) as [Hs _].
  cbv zeta in Hs. unfold m, s. rewrite Hs. clear Hs m s.
  set (s0 := emu_machine e) in *.
  set (m0 := memory_init (mem s0)) in *.
  destruct (load_roms_state m0 basic_file kernal_file char_file
              (memory_ready_init _) Hb Hk Hc) as (R1 & M1 & K1).
  fold loaded in R1, M1, K1 |- *.
  set (m1 := loaded) in *. clearbody m1. clear loaded.
  destruct (clear_loop m1 1000 ltac:(lia)) as [Hrec2 Hmem2].
  set (m2 := for_loop 1000 0 _ m1) in *. clearbody m2.
  change (Z.of_nat 1000) with 1000 in Hmem2.
  unfold SCREEN_MEMORY_START, COLOR_RAM_START in *.
  assert (Hcw : colour_writable m1 = true).
  { unfold colour_writable. destruct R1 as (_ & _ & _ & Hio & _). rewrite Hio. reflexivity. }
  rewrite Hcw in Hmem2.
  assert (R2 : memory_ready m2).
  { rewrite Hrec2. apply memory_ready_set_memory; [exact R1|].
    intros a Ha. rewrite Hmem2.
    destruct (_ && _); [unfold byte; lia|].
    destruct (_ && _); [unfold byte; lia|].
    destruct R1 as (_ & _ & _ & _ & _ & B & _). exact (B a Ha). }
  assert (Hprog : Forall byte Main.basic_rom)
    by (repeat constructor; unfold byte; lia).
  rewrite (memory_load_inside m2 0x0800 Main.basic_rom 7) by lia.
  set (m3 := set_memory m2 (memcpy (memory m2) 0x0800 Main.basic_rom 7)).
  assert (R3 : memory_ready m3).
  { apply memory_ready_set_memory; [exact R2|].
    apply bytes_upto_memcpy; [apply R2|exact Hprog]. }
  pose proof R3 as (_ & K3 & _ & I3 & C3 & B3).
  rewrite (memory_write_kernal_rom m3 0xFFFC) by (assumption || lia).
  rewrite (memory_write_kernal_rom m3 0xFFFD) by (assumption || lia).
  assert (B3' : maps_built m3) by (apply maps_current_built, C3).
  assert (Hram : forall a, memory m3 a =
            if (0x0800 <=? a) && (a <? 0x0800 + 7)
            then nth (Z.to_nat (a - 0x0800)) Main.basic_rom 0
            else if (0x0400 <=? a) && (a <? 0x0400 + 1000) then 32
            else if (0xD800 <=? a) && (a <? 0xD800 + 1000) then 14
            else memory m1 a).
  { intros a. unfold m3. cbn [memory set_memory]. unfold memcpy.
    destruct (_ && _); [reflexivity|]. rewrite Hmem2.
    rewrite andb_true_r. reflexivity. }
  assert (Himage : kernal_rom m3 = kernal_rom m1).
  { unfold m3. cbn [kernal_rom set_memory]. rewrite Hrec2. reflexivity. }
  assert (Hrom : forall a, 0xE000 <= a <= 0xFFFF ->
            memory_read m3 a = kernal_rom m1 (a - 0xE000)).
  { intros a Ha. rewrite (memory_read_kernal_rom m3 a C3 K3 Ha), Himage. reflexivity. }
  cbn [mem cpu cycles cpu_reset set_mem RESET_VECTOR].
  unfold RESET_VECTOR.
  split; [exact Himage|].
  split.
  { intros bytes i Hfile Hi Hlen. rewrite K1, Hfile.
    unfold memcpy. rewrite Z.sub_0_r. zbool. }
  split; [exact (Hrom 0xFFFC ltac:(lia))|].
  split; [exact (Hrom 0xFFFD ltac:(lia))|].
  assert (Hcpu : with_i (with_sp (with_pc (cpu (cpu_init (set_mem s0 m1)))
                    (u16 (Z.lor (memory_read m3 0xFFFC)
                                (Z.shiftl (memory_read m3 (0xFFFC + 1)) 8)))) 0xFD) 1 =
                 mkCPU (memory_read m3 0xFFFC + 256 * memory_read m3 0xFFFD)
                       0 0 0 0xFD 0 0 1 0 0 0 0).
  { rewrite word_value by (apply memory_read_byte; [exact B3'|exact B3]).
    reflexivity. }
  split; [exact Hcpu|]. split; [reflexivity|].
  split; [|split].
  - intros i Hi. rewrite memory_read_plain by (assumption || lia).
    rewrite Hram. zbool. f_equal. f_equal. lia.
  - intros i Hi. split.
    + rewrite memory_read_plain by (assumption || lia). rewrite Hram. zbool.
    + rewrite memory_read_current by (assumption || lia).
      unfold visible, in_io, IO_REGION_START, IO_REGION_END.
      rewrite I3, Hram. zbool.
  - split; [|split; [unfold cpu_reset; cbn [cycles]; lia|split; [exact B3'|exact B3]]].
    unfold cpu_reset, RESET_VECTOR. cbn [cpu mem set_mem]. rewrite Hcpu.
    pose proof (memory_read_byte m3 0xFFFC B3' B3) as V1.
    pose proof (memory_read_byte m3 0xFFFD B3' B3) as V2.
    unfold cpu_wf, byte, flag in *.
    cbn [cpu_pc cpu_a cpu_x cpu_y cpu_sp cpu_c cpu_z cpu_i cpu_d cpu_b cpu_v cpu_n].
    repeat split; lia || (left; reflexivity) || (right; reflexivity).
Qed.

Lemma init_emulator_state_short_kernal_file :
  memory_read (mem (emu_machine (init_emulator emulator_power_on
                                   None (Some [0x4C; 0x00; 0x08]) None))) 0xFFFC =
    kernal_rom (load_roms (memory_init (mem (emu_machine emulator_power_on)))
                          None (Some [0x4C; 0x00; 0x08]) None) 0x1FFC /\
  kernal_rom (load_roms (memory_init (mem (emu_machine emulator_power_on)))
                        None (Some [0x4C; 0x00; 0x08]) None) 2 = 0x08 /\
  cycles (emu_machine (init_emulator emulator_power_on
                         None (Some [0x4C; 0x00; 0x08]) None)) = 0.
Proof.
  assert (B : file_bytes (Some [0x4C; 0x00; 0x08]))
    by (repeat constructor; unfold byte; lia).
  pose proof (init_emulator_state emulator_power_on None (Some [0x4C; 0x00; 0x08]) None
                I B I) as (_ & H2 & H3 & _ & _ & H6 & _).
  split; [exact H3|]. split; [|exact H6].
  exact (H2 [0x4C; 0x00; 0x08] 2 eq_refl ltac:(lia) ltac:(cbn; lia)).
Defined.
